(** * Enclave helpers: [nsm-ioctl] and [vsock-connect]

    A shallow embedding of the two C helper programs that live in
    [enclave-aws-nitro/enclave/]:

    - [nsm-ioctl.c]: reads an attestation request from standard input,
      performs one ioctl on [/dev/nsm] and writes the response to standard
      output;
    - [vsock-connect.c]: connects an [AF_VSOCK] stream socket and bridges
      standard input / output with it through a [poll] loop.

    The programs are written in a small state-and-exit monad over a model
    of the operating system ([world]): what the descriptors will deliver,
    what the sinks will accept, and a chronological log of the system
    calls that were issued.  The [read] and [write] loops take fuel, and
    the theorems show how much is enough; the [poll] loop of the bridge
    runs over the list of wake-ups that the kernel will deliver, and is
    left blocked in [poll] when the list is used up.

    The bridge that the specification describes is given beside the
    program, as a state machine over the byte streams; the loop of
    [vsock-connect.c] is shown to do, wake-up by wake-up, what that
    machine does. *)

From Stdlib Require Import String Ascii.
From Stdlib Require Import ZArith List Bool Lia.
From Stdlib Require Import Init.Byte.
Import ListNotations.
Local Open Scope Z_scope.

(* ================================================================= *)
(** ** Machine integers (LP64 Linux) *)

(** [size_t] is 64 bits wide, [unsigned int] and [int] 32 bits.  A cast
    wraps around; [ssize_t] arithmetic is left exact (signed overflow is
    undefined in C and every [ssize_t] below is bounded by a buffer
    size). *)

Definition to_size_t (z : Z) : Z := z mod 2 ^ 64.
Definition to_uint (z : Z) : Z := z mod 2 ^ 32.
Definition to_int (z : Z) : Z := (z + 2 ^ 31) mod 2 ^ 32 - 2 ^ 31.

Definition len (l : list byte) : Z := Z.of_nat (length l).

(* ================================================================= *)
(** ** Buffers *)

(** A C array is a list of bytes; [buf + off] is an offset into it.
    [buf_store] is what the kernel does when it fills [buf + off] with
    [data], [buf_load] what it sees when handed [buf + off] and a
    count. *)

Definition buf_store (buf : list byte) (off : Z) (data : list byte) : list byte :=
  firstn (Z.to_nat off) buf ++ data ++ skipn (Z.to_nat off + length data) buf.

Definition buf_load (buf : list byte) (off count : Z) : list byte :=
  firstn (Z.to_nat count) (skipn (Z.to_nat off) buf).

(* ================================================================= *)
(** ** The operating system *)

(** What a readable descriptor will deliver, read after read: a chunk of
    bytes that has arrived, or an error.  The empty source is at end of
    input.  A chunk longer than the count asked for is delivered in
    pieces; an empty chunk is a zero-length read. *)

Inductive rd_event :=
| Chunk (bs : list byte)
| RdErr.

Definition source := list rd_event.

(** How a writable descriptor answers successive writes: it takes at most
    [k] bytes, takes nothing (returns 0) or fails (returns -1).  Once the
    schedule is used up every write is taken whole. *)

Inductive wr_event :=
| Accept (k : positive)
| WrNone
| WrErr.

Record sink := Sink { taken : list byte; sched : list wr_event }.

Inductive syscall :=
| SysRead (fd off count ret : Z)
| SysWrite (fd off count ret : Z)
| SysOpen (path : string) (ret : Z)
| SysIoctl (fd cmd : Z) (req : list byte) (ret : Z)
| SysClose (fd : Z)
| SysSocket (ret : Z)
| SysConnect (fd cid port ret : Z)
| SysPoll (fd0 fd1 ret : Z)
| SysShutdown (fd how : Z).

(** The part of the machine that the programs cannot change: whether the
    attestation device and the vsock transport are there, what the device
    answers to a request ([None]: the ioctl fails), which endpoints accept
    a connection, and how the remote peer reacts to the bytes it is sent
    (by changing what the socket will deliver). *)

Record environment := Env {
  dev_present : bool;
  dev_ioctl : list byte -> option (list byte);
  vsock_present : bool;
  vsock_accepts : Z -> Z -> bool;
  peer : list byte -> source -> source
}.

Record world := World {
  w_env : environment;
  w_stdin : source;
  w_stdout : sink;
  w_stderr : list string;
  w_sock_rx : source;
  w_sock_tx : sink;
  w_log : list syscall
}.

Definition set_stdin (w : world) (s : source) : world :=
  World (w_env w) s (w_stdout w) (w_stderr w) (w_sock_rx w) (w_sock_tx w) (w_log w).
Definition set_stdout (w : world) (k : sink) : world :=
  World (w_env w) (w_stdin w) k (w_stderr w) (w_sock_rx w) (w_sock_tx w) (w_log w).
Definition set_stderr (w : world) (e : list string) : world :=
  World (w_env w) (w_stdin w) (w_stdout w) e (w_sock_rx w) (w_sock_tx w) (w_log w).
Definition set_sock_rx (w : world) (s : source) : world :=
  World (w_env w) (w_stdin w) (w_stdout w) (w_stderr w) s (w_sock_tx w) (w_log w).
Definition set_sock_tx (w : world) (k : sink) : world :=
  World (w_env w) (w_stdin w) (w_stdout w) (w_stderr w) (w_sock_rx w) k (w_log w).
Definition logged (w : world) (c : syscall) : world :=
  World (w_env w) (w_stdin w) (w_stdout w) (w_stderr w) (w_sock_rx w) (w_sock_tx w)
        (w_log w ++ [c]).

Definition STDIN_FILENO : Z := 0.
Definition STDOUT_FILENO : Z := 1.
(** The descriptor that [open] and [socket] hand out: the lowest free one. *)
Definition NEW_FD : Z := 3.

(** One [read] on a source, asked for [count] bytes: the return value, the
    bytes delivered and what is left of the source. *)
Definition source_read (s : source) (count : Z) : Z * list byte * source :=
  match s with
  | [] => (0, [], [])
  | RdErr :: s' => (-1, [], s')
  | Chunk bs :: s' =>
      let k := Z.min count (len bs) in
      (k, firstn (Z.to_nat k) bs,
       if len bs <=? count then s' else Chunk (skipn (Z.to_nat k) bs) :: s')
  end.

(** One [write] of [data] on a sink: the return value, the bytes taken and
    the sink afterwards. *)
Definition sink_write (k : sink) (data : list byte) : Z * list byte * sink :=
  match sched k with
  | [] => (len data, data, Sink (taken k ++ data) [])
  | Accept m :: s =>
      let a := firstn (Pos.to_nat m) data in
      (len a, a, Sink (taken k ++ a) s)
  | WrNone :: s => (0, [], Sink (taken k) s)
  | WrErr :: s => (-1, [], Sink (taken k) s)
  end.

(** The bytes that successive reads of a source deliver before the first
    read that returns zero or less. *)
Fixpoint avail (s : source) : list byte :=
  match s with
  | Chunk (b :: bs) :: s' => (b :: bs) ++ avail s'
  | _ => []
  end.

(** All the bytes that a source still holds. *)
Fixpoint src_bytes (s : source) : list byte :=
  match s with
  | Chunk bs :: s' => bs ++ src_bytes s'
  | RdErr :: s' => src_bytes s'
  | [] => []
  end.

(** A sink whose writes may be short but never return zero or less. *)
Definition accepts (e : wr_event) : bool :=
  match e with
  | Accept _ => true
  | _ => false
  end.

Definition never_fails (k : sink) : Prop := forallb accepts (sched k) = true.

(* ================================================================= *)
(** ** The monad of a running process *)

(** A computation either yields a value, ends the process ([exit]), is
    left blocked in [poll] with no further event to wake it, or runs out
    of the fuel given to its loops. *)

Inductive res (A : Type) :=
| Val (a : A)
| Halt (code : Z)
| Blocked
| OutOfFuel.
Arguments Val {A} a.
Arguments Halt {A} code.
Arguments Blocked {A}.
Arguments OutOfFuel {A}.

Definition M (A : Type) : Type := world -> res A * world.

Definition ret {A} (a : A) : M A := fun w => (Val a, w).

Definition bind {A B} (m : M A) (f : A -> M B) : M B :=
  fun w =>
    match m w with
    | (Val a, w') => f a w'
    | (Halt c, w') => (Halt c, w')
    | (Blocked, w') => (Blocked, w')
    | (OutOfFuel, w') => (OutOfFuel, w')
    end.

Notation "x <- m ;; k" := (bind m (fun x => k))
  (at level 61, m at next level, right associativity).
Notation "' p <- m ;; k" := (bind m (fun x => match x with p => k end))
  (at level 61, p pattern, m at next level, right associativity).
Notation "m ;; k" := (bind m (fun _ => k))
  (at level 61, right associativity).

Definition out_of_fuel {A} : M A := fun w => (OutOfFuel, w).
Definition blocked {A} : M A := fun w => (Blocked, w).

(** The newline that ends a diagnostic. *)
Definition nl : string := String "010"%char EmptyString.

(** An uninitialised array of [n] bytes on the stack: it holds whatever
    was there ([stack], zero where [stack] says nothing). *)
Definition alloca (n : Z) (stack : list byte) : list byte :=
  firstn (Z.to_nat n) (stack ++ repeat "000"%byte (Z.to_nat n)).

(** [fprintf(stderr, msg)]. *)
Definition fprintf_stderr (msg : string) : M unit :=
  fun w => (Val tt, set_stderr w (w_stderr w ++ [msg])).

(** [die]: [perror(msg); exit(1)]. *)
Definition die {A} (msg : string) : M A :=
  fun w => (Halt 1, set_stderr w (w_stderr w ++ [msg])).

(** The exit status of the process once [main] has run: its return value
    or the argument of [exit]; none while it is still running. *)
Definition exit_status (r : res Z) : option Z :=
  match r with
  | Val c => Some c
  | Halt c => Some c
  | Blocked => None
  | OutOfFuel => None
  end.

(* ================================================================= *)
(** ** System calls *)

(** [read(fd, buf + off, count)]: the return value and the buffer. *)
Definition sys_read (fd : Z) (buf : list byte) (off count : Z) : M (Z * list byte) :=
  fun w =>
    if fd =? STDIN_FILENO then
      let '(n, d, s) := source_read (w_stdin w) count in
      (Val (n, buf_store buf off d), logged (set_stdin w s) (SysRead fd off count n))
    else if fd =? NEW_FD then
      let '(n, d, s) := source_read (w_sock_rx w) count in
      (Val (n, buf_store buf off d), logged (set_sock_rx w s) (SysRead fd off count n))
    else (Val (-1, buf), logged w (SysRead fd off count (-1))).

(** [write(fd, buf + off, count)].  Bytes taken by the socket reach the
    peer, which reacts. *)
Definition sys_write (fd : Z) (buf : list byte) (off count : Z) : M Z :=
  fun w =>
    if fd =? STDOUT_FILENO then
      let '(n, _, k) := sink_write (w_stdout w) (buf_load buf off count) in
      (Val n, logged (set_stdout w k) (SysWrite fd off count n))
    else if fd =? NEW_FD then
      let '(n, a, k) := sink_write (w_sock_tx w) (buf_load buf off count) in
      (Val n, logged (set_sock_rx (set_sock_tx w k) (peer (w_env w) a (w_sock_rx w)))
                     (SysWrite fd off count n))
    else (Val (-1), logged w (SysWrite fd off count (-1))).

(** [close(fd)]. *)
Definition sys_close (fd : Z) : M unit :=
  fun w => (Val tt, logged w (SysClose fd)).

(* ================================================================= *)
(** ** [nsm-ioctl.c] *)

Module NsmIoctl.

Definition NSM_DEV_PATH : string := "/dev/nsm".
Definition NSM_IOCTL_CMD : Z := 0xC0609900.
Definition MAX_REQUEST : Z := 4096.
Definition MAX_RESPONSE : Z := 16384.
Definition O_RDWR : Z := 2.

(** [struct nsm_iovec].  The two pointers alias [req_buf] and [resp_buf]
    of [main]; the record carries the memory they point to, and [main]
    reads [resp_buf] back from it after the ioctl. *)
Record nsm_iovec := Iovec {
  request_len : Z;
  response_len : Z;
  request : list byte;
  response : list byte
}.

(** [open(path, flags)]. *)
Definition sys_open (path : string) (flags : Z) : M Z :=
  fun w =>
    let fd := if (path =? NSM_DEV_PATH)%string && dev_present (w_env w)
              then NEW_FD else -1 in
    (Val fd, logged w (SysOpen path fd)).

(** [ioctl(fd, cmd, &iov)]: the device is handed the first [request_len]
    bytes at [request]; when it answers it stores at most the capacity it
    was given at [response] and reports the length of its answer in
    [response_len]. *)
Definition sys_ioctl (fd cmd : Z) (iov : nsm_iovec) : M (Z * nsm_iovec) :=
  fun w =>
    let req := buf_load (request iov) 0 (request_len iov) in
    match dev_ioctl (w_env w) req with
    | None => (Val (-1, iov), logged w (SysIoctl fd cmd req (-1)))
    | Some resp =>
        (Val (0, Iovec (request_len iov) (to_uint (len resp)) (request iov)
                       (buf_store (response iov) 0
                                  (firstn (Z.to_nat (response_len iov)) resp))),
         logged w (SysIoctl fd cmd req 0))
    end.

(** The loop of lines 53-56: [req_buf] and [req_len] are its state. *)
Fixpoint read_request (fuel : nat) (req_buf : list byte) (req_len : Z)
  : M (list byte * Z) :=
  match fuel with
  | O => out_of_fuel
  | S fuel' =>
      ' (n, req_buf') <- sys_read STDIN_FILENO req_buf req_len
                                  (to_size_t (MAX_REQUEST - req_len)) ;;
      if 0 <? n then read_request fuel' req_buf' (req_len + n)
      else ret (req_buf', req_len)
  end.

(** The loop of lines 79-84. *)
Fixpoint write_response (fuel : nat) (iov : nsm_iovec) (resp_buf : list byte)
  (written : Z) : M unit :=
  match fuel with
  | O => out_of_fuel
  | S fuel' =>
      if to_size_t written <? response_len iov then
        n <- sys_write STDOUT_FILENO resp_buf written
                       (to_size_t (to_int (response_len iov) - written)) ;;
        if n <=? 0 then die "write(stdout)"
        else write_response fuel' iov resp_buf (written + n)
      else ret tt
  end.

(** [main].  [stack] is what the uninitialised [req_buf] holds on entry;
    [resp_buf] is zeroed by [memset]. *)
Definition main (fuel : nat) (stack : list byte) : M Z :=
  let req_buf := alloca MAX_REQUEST stack in
  ' (req_buf, req_len) <- read_request fuel req_buf 0 ;;
  if req_len <=? 0 then
    fprintf_stderr ("nsm-ioctl: empty request" ++ nl) ;;
    ret 1
  else
    let resp_buf := repeat "000"%byte (Z.to_nat MAX_RESPONSE) in
    let iov := Iovec (to_uint req_len) MAX_RESPONSE req_buf resp_buf in
    fd <- sys_open NSM_DEV_PATH O_RDWR ;;
    if fd <? 0 then die "open(/dev/nsm)"
    else
      ' (r, iov) <- sys_ioctl fd NSM_IOCTL_CMD iov ;;
      if r <? 0 then die "ioctl(NSM)"
      else
        sys_close fd ;;
        write_response fuel iov (response iov) 0 ;;
        ret 0.

(** A read of the request loop that stays inside [req_buf]. *)
Definition request_read (c : syscall) : Prop :=
  match c with
  | SysRead fd off count ret =>
      fd = STDIN_FILENO /\ 0 <= off <= MAX_REQUEST
      /\ count = MAX_REQUEST - off /\ off + ret <= MAX_REQUEST
  | _ => False
  end.

(** A write of the response loop. *)
Definition stdout_write (c : syscall) : Prop :=
  match c with
  | SysWrite fd _ _ _ => fd = STDOUT_FILENO
  | _ => False
  end.

(** The request that [main] hands to the device. *)
Definition request_of (w : world) : list byte :=
  firstn (Z.to_nat MAX_REQUEST) (avail (w_stdin w)).

(** [resp_buf] after the [memset] of line 63. *)
Definition zeros : list byte := repeat "000"%byte (Z.to_nat MAX_RESPONSE).

End NsmIoctl.

(* ================================================================= *)
(** ** [vsock-connect.c] *)

Module VsockConnect.

Definition BUF_SIZE : Z := 65536.

(** Constants of [<sys/socket.h>] and [<poll.h>] on Linux. *)
Definition AF_VSOCK : Z := 40.
Definition SOCK_STREAM : Z := 1.
Definition SHUT_WR : Z := 1.
Definition POLLIN : Z := 0x001.
Definition POLLERR : Z := 0x008.
Definition POLLHUP : Z := 0x010.
Definition POLLNVAL : Z := 0x020.

(** *** [atoi]

    The C library's [atoi], as glibc defines it: [(int) strtol(s, NULL, 10)].
    White space is skipped, an optional sign is read, then decimal digits
    up to the first character that is not one; with no digit the value is
    0.  [strtol] saturates at the bounds of [long], the cast to [int]
    wraps. *)

Definition isspace (c : ascii) : bool :=
  let n := Z.of_nat (nat_of_ascii c) in
  (n =? 32) || ((9 <=? n) && (n <=? 13)).

Definition isdigit (c : ascii) : bool :=
  let n := Z.of_nat (nat_of_ascii c) in
  (48 <=? n) && (n <=? 57).

Fixpoint skip_spaces (s : string) : string :=
  match s with
  | String c s' => if isspace c then skip_spaces s' else s
  | EmptyString => s
  end.

Fixpoint digits (s : string) (acc : Z) : Z :=
  match s with
  | String c s' =>
      if isdigit c then digits s' (10 * acc + (Z.of_nat (nat_of_ascii c) - 48))
      else acc
  | EmptyString => acc
  end.

Definition LONG_MAX : Z := 2 ^ 63 - 1.
Definition LONG_MIN : Z := - 2 ^ 63.

Definition strtol (s : string) : Z :=
  let v := match skip_spaces s with
           | String "-" s' => - digits s' 0
           | String "+" s' => digits s' 0
           | s' => digits s' 0
           end in
  Z.max LONG_MIN (Z.min LONG_MAX v).

Definition atoi (s : string) : Z := to_int (strtol s).

(** *** System calls of the bridge *)

Record sockaddr_vm := Sockaddr {
  svm_family : Z;
  svm_cid : Z;
  svm_port : Z
}.

Record pollfd := Pollfd {
  fd : Z;
  events : Z;
  revents : Z
}.

(** What wakes a [poll] up: a failure, or the readiness the kernel sees
    on standard input and on the socket. *)
Inductive poll_event :=
| PollErr
| Ready (rev0 rev1 : Z).

(** [socket(domain, type, protocol)]. *)
Definition sys_socket (domain type protocol : Z) : M Z :=
  fun w =>
    let s := if (domain =? AF_VSOCK) && vsock_present (w_env w)
             then NEW_FD else -1 in
    (Val s, logged w (SysSocket s)).

(** [connect(sock, &addr, sizeof addr)]. *)
Definition sys_connect (sock : Z) (addr : sockaddr_vm) : M Z :=
  fun w =>
    let r := if vsock_accepts (w_env w) (svm_cid addr) (svm_port addr)
             then 0 else -1 in
    (Val r, logged w (SysConnect sock (svm_cid addr) (svm_port addr) r)).

(** [shutdown(sock, how)]. *)
Definition sys_shutdown (sock how : Z) : M unit :=
  fun w => (Val tt, logged w (SysShutdown sock how)).

(** What [poll] reports for one entry: nothing for a negative descriptor,
    else the readiness among the events asked for and the three that are
    always reported. *)
Definition poll_revents (p : pollfd) (rev : Z) : pollfd :=
  Pollfd (fd p) (events p)
         (if fd p <? 0 then 0
          else Z.land rev (Z.lor (events p) (Z.lor POLLERR (Z.lor POLLHUP POLLNVAL)))).

(** [poll(fds, 2, -1)]: the return value and the array. *)
Definition sys_poll (ev : poll_event) (fds : pollfd * pollfd)
  : M (Z * (pollfd * pollfd)) :=
  fun w =>
    match ev with
    | PollErr => (Val (-1, fds), logged w (SysPoll (fd (fst fds)) (fd (snd fds)) (-1)))
    | Ready rev0 rev1 =>
        let p0 := poll_revents (fst fds) rev0 in
        let p1 := poll_revents (snd fds) rev1 in
        let r := (if revents p0 =? 0 then 0 else 1)
                 + (if revents p1 =? 0 then 0 else 1) in
        (Val (r, (p0, p1)), logged w (SysPoll (fd (fst fds)) (fd (snd fds)) r))
    end.

(** *** The program *)

(** The inner loops of lines 67-72 and 80-85: the same text, for the
    socket and for standard output. *)
Fixpoint write_all (fuel : nat) (out : Z) (msg : string) (buf : list byte)
  (n written : Z) : M unit :=
  match fuel with
  | O => out_of_fuel
  | S fuel' =>
      if written <? n then
        w <- sys_write out buf written (to_size_t (n - written)) ;;
        if w <=? 0 then die msg
        else write_all fuel' out msg buf n (written + w)
      else ret tt
  end.

(** Lines 63-74, stdin to socket. *)
Definition stdin_to_socket (fuel : nat) (sock : Z) (buf : list byte)
  (fds : pollfd * pollfd) : M (list byte * (pollfd * pollfd)) :=
  if negb (Z.land (revents (fst fds)) POLLIN =? 0) then
    ' (n, buf) <- sys_read STDIN_FILENO buf 0 BUF_SIZE ;;
    if n <=? 0 then
      sys_shutdown sock SHUT_WR ;;
      ret (buf, (Pollfd (-1) (events (fst fds)) (revents (fst fds)), snd fds))
    else
      write_all fuel sock "write(sock)" buf n 0 ;;
      ret (buf, fds)
  else ret (buf, fds).

(** Lines 77-86, socket to stdout; [true] is the [break]. *)
Definition socket_to_stdout (fuel : nat) (sock : Z) (buf : list byte)
  (fds : pollfd * pollfd) : M (bool * list byte) :=
  if negb (Z.land (revents (snd fds)) (Z.lor POLLIN POLLHUP) =? 0) then
    ' (n, buf) <- sys_read sock buf 0 BUF_SIZE ;;
    if n <=? 0 then ret (true, buf)
    else
      write_all fuel STDOUT_FILENO "write(stdout)" buf n 0 ;;
      ret (false, buf)
  else ret (false, buf).

(** The [while (1)] of lines 58-87, one iteration for each wake-up of
    [poll] in [evs]; past the last one the process sits in [poll]. *)
Fixpoint bridge (fuel : nat) (evs : list poll_event) (sock : Z)
  (buf : list byte) (fds : pollfd * pollfd) : M unit :=
  match evs with
  | [] => blocked
  | ev :: evs' =>
      ' (r, fds) <- sys_poll ev fds ;;
      if r <? 0 then die "poll"
      else
        ' (buf, fds) <- stdin_to_socket fuel sock buf fds ;;
        ' (brk, buf) <- socket_to_stdout fuel sock buf fds ;;
        if brk : bool then ret tt
        else bridge fuel evs' sock buf fds
  end.

(** The message of line 33. *)
Definition usage : string := "usage: vsock-connect <cid> <port>" ++ nl.

(** [main]; [argv] includes the program name, [stack] is what the
    uninitialised [buf] holds.  Of [addr], zeroed by [memset], the three
    fields that are set are kept; the [revents] that the program leaves
    uninitialised are overwritten by [poll] before they are read. *)
Definition main (fuel : nat) (evs : list poll_event) (stack : list byte)
  (argv : list string) : M Z :=
  let argc := Z.of_nat (length argv) in
  if negb (argc =? 3) then
    fprintf_stderr usage ;;
    ret 1
  else
    let cid := to_uint (atoi (nth 1 argv EmptyString)) in
    let port := to_uint (atoi (nth 2 argv EmptyString)) in
    sock <- sys_socket AF_VSOCK SOCK_STREAM 0 ;;
    if sock <? 0 then die "socket(AF_VSOCK)"
    else
      let addr := Sockaddr AF_VSOCK cid port in
      r <- sys_connect sock addr ;;
      if r <? 0 then die "connect(vsock)"
      else
        let buf := alloca BUF_SIZE stack in
        let fds := (Pollfd STDIN_FILENO POLLIN 0, Pollfd sock POLLIN 0) in
        bridge fuel evs sock buf fds ;;
        sys_close sock ;;
        ret 0.

(** An argument in which [atoi] finds no number: after the white space
    and the optional sign there is no digit. *)
Definition non_numeric (s : string) : bool :=
  match skip_spaces s with
  | String c s' =>
      if (c =? "-")%char || (c =? "+")%char then
        match s' with
        | String d _ => negb (isdigit d)
        | EmptyString => true
        end
      else negb (isdigit c)
  | EmptyString => true
  end.

(** The diagnostics of [die] in this program. *)
Definition fatal_diags : list string :=
  ["socket(AF_VSOCK)"; "connect(vsock)"; "poll"; "write(sock)";
   "write(stdout)"]%string.

(** The system calls of a bridge whose standard input is closed: [poll]
    without standard input, reads of the socket, writes to standard
    output. *)
Definition half_closed_call (c : syscall) : Prop :=
  match c with
  | SysPoll fd0 _ _ => fd0 = -1
  | SysRead f _ _ _ => f = NEW_FD
  | SysWrite f _ _ _ => f = STDOUT_FILENO
  | _ => False
  end.

(** A call that is not a read, or a read that delivered data. *)
Definition data_read (c : syscall) : Prop :=
  match c with
  | SysRead _ _ _ n => 0 < n
  | _ => True
  end.

(** An echo endpoint: whatever it receives it sends back. *)
Definition echo_peer (bs : list byte) (rx : source) : source :=
  match bs with
  | [] => rx
  | _ => rx ++ [Chunk bs]
  end.

(** A write on [fd] that took some bytes. *)
Definition write_to (fd : Z) (c : syscall) : Prop :=
  match c with
  | SysWrite f _ _ ret => f = fd /\ 0 < ret
  | _ => False
  end.

(** The diagnostics of the loop. *)
Definition bridge_diags : list string :=
  ["poll"; "write(sock)"; "write(stdout)"]%string.

End VsockConnect.

(* ================================================================= *)
(** ** The bridge of the specification

    DuplexStreamBridge as its specification describes it: a state
    machine over the byte streams alone, with no buffer, no descriptor
    and no system call.  It is not part of the program; the theorems on
    [vsock-connect.c] compare the program's loop with it. *)

Module DuplexStreamBridge.
Import VsockConnect.

(** The states of a connected bridge.  [POLL_FAILED] is the exit on a
    failure of the readiness wait, which the specification leaves to its
    error handling. *)
Inductive state :=
| BRIDGING
| STDIN_HALF_CLOSED
| TERMINATED
| POLL_FAILED.

(** What the machine works on: the two inputs, how the remote end takes
    what it is sent, and the bytes forwarded so far in each direction. *)
Record streams := Streams {
  local_input : source;
  remote_input : source;
  remote_takes : list wr_event;
  to_remote : list byte;
  to_output : list byte
}.

(** The streams of a world. *)
Definition streams_of (w : world) : streams :=
  Streams (w_stdin w) (w_sock_rx w) (sched (w_sock_tx w))
          (taken (w_sock_tx w)) (taken (w_stdout w)).

(** The pieces in which a remote end that takes at most [m] bytes at a
    time, for the successive [m] of [k], takes the chunk [d], and what is
    left of [k]; once [k] is used up it takes everything at once. *)
Fixpoint pieces (k : list wr_event) (d : list byte)
  : list (list byte) * list wr_event :=
  match k with
  | Accept m :: k' =>
      if Z.pos m <? len d then
        let '(ps, k'') := pieces k' (skipn (Pos.to_nat m) d) in
        (firstn (Pos.to_nat m) d :: ps, k'')
      else ([d], k')
  | _ => ([d], k)
  end.

(** Local-input-ready: read up to [BUF_SIZE] bytes.  A result of zero or
    less is the half-close; a positive read is forwarded in full to the
    remote end, which reacts to each piece it takes. *)
Definition local_input_ready (react : list byte -> source -> source)
  (st : streams) : state * streams :=
  let '(n, d, s) := source_read (local_input st) BUF_SIZE in
  if n <=? 0 then
    (STDIN_HALF_CLOSED,
     Streams s (remote_input st) (remote_takes st) (to_remote st) (to_output st))
  else
    let '(ps, k) := pieces (remote_takes st) d in
    (BRIDGING,
     Streams s (fold_left (fun rx a => react a rx) ps (remote_input st)) k
             (to_remote st ++ d) (to_output st)).

(** Remote-ready: read up to [BUF_SIZE] bytes.  A result of zero or less
    ends the bridge; a positive read is forwarded in full to standard
    output and the machine stays in the state [q] it was in. *)
Definition remote_ready (q : state) (st : streams) : state * streams :=
  let '(n, d, s) := source_read (remote_input st) BUF_SIZE in
  if n <=? 0 then
    (TERMINATED,
     Streams (local_input st) s (remote_takes st) (to_remote st) (to_output st))
  else
    (q, Streams (local_input st) s (remote_takes st) (to_remote st)
                (to_output st ++ d)).

(** The machine over the wake-ups of the readiness wait: [rev0] is what
    is reported for the local input, [rev1] for the remote end.  A
    hang-up of the remote end counts as ready: it leads to the read,
    whose result decides.  The local input is looked at in [BRIDGING]
    only.  The machine is started in [BRIDGING] or [STDIN_HALF_CLOSED]
    and stops when it reaches [TERMINATED] or [POLL_FAILED]. *)
Fixpoint run (react : list byte -> source -> source) (evs : list poll_event)
  (q : state) (st : streams) : state * streams :=
  match evs with
  | [] => (q, st)
  | PollErr :: _ => (POLL_FAILED, st)
  | Ready rev0 rev1 :: evs' =>
      let '(q1, st1) :=
        match q with
        | BRIDGING =>
            if Z.land rev0 POLLIN =? 0 then (q, st)
            else local_input_ready react st
        | _ => (q, st)
        end in
      let '(q2, st2) :=
        if Z.land rev1 (Z.lor POLLIN POLLHUP) =? 0 then (q1, st1)
        else remote_ready q1 st1 in
      match q2 with
      | TERMINATED => (q2, st2)
      | _ => run react evs' q2 st2
      end
  end.

(** How the loop of the program ends when the machine is in [q]: it has
    left the loop, it has exited on a failure of [poll], or it is back in
    [poll]. *)
Definition loop_result (q : state) : res unit :=
  match q with
  | TERMINATED => Val tt
  | POLL_FAILED => Halt 1
  | _ => Blocked
  end.

(** The error stream then. *)
Definition loop_stderr (q : state) (e : list string) : list string :=
  match q with
  | POLL_FAILED => e ++ ["poll"%string]
  | _ => e
  end.

(** How [main] ends then. *)
Definition main_result (q : state) : res Z :=
  match q with
  | TERMINATED => Val 0
  | POLL_FAILED => Halt 1
  | _ => Blocked
  end.

(** [refines q st w w']: the program has gone from [w] to [w'] and is
    where the machine is in [(q, st)]; the sinks are still such that no
    write fails. *)
Definition refines (q : state) (st : streams) (w w' : world) : Prop :=
  streams_of w' = st
  /\ w_env w' = w_env w
  /\ w_stderr w' = loop_stderr q (w_stderr w)
  /\ never_fails (w_stdout w')
  /\ (q = BRIDGING -> never_fails (w_sock_tx w'))
  /\ exists L, w_log w' = w_log w ++ L.

(** The state of the machine and the entry of standard input in the
    array given to [poll]. *)
Definition stdin_polled (q : state) (p0 : pollfd) : Prop :=
  events p0 = POLLIN
  /\ ((q = BRIDGING /\ fd p0 = STDIN_FILENO)
      \/ (q = STDIN_HALF_CLOSED /\ fd p0 = -1)).

End DuplexStreamBridge.

(* ================================================================= *)
(** ** Outcomes *)

(** [outcome msgs w p]: the run [p] from [w] only appends to the log; it
    leaves the error stream alone unless it ends in [exit(1)] after one
    diagnostic among [msgs]. *)
Definition outcome {A} (msgs : list string) (w : world) (p : res A * world) : Prop :=
  (exists L, w_log (snd p) = w_log w ++ L)
  /\ match fst p with
     | Halt c => c = 1 /\ exists m, In m msgs /\ w_stderr (snd p) = w_stderr w ++ [m]
     | _ => w_stderr (snd p) = w_stderr w
     end.

(* ================================================================= *)
(** ** Sample machines *)

(** A machine with the device and the transport in place: the device
    answers a request with the request twice over, every endpoint
    accepts, the remote peer stays silent. *)
Definition demo_env : environment :=
  Env true (fun req => Some (req ++ req)) true (fun _ _ => true) (fun _ rx => rx).

(** A fresh process on it, given its standard input and the behaviour of
    its standard output. *)
Definition demo_world (stdin : source) (out : list wr_event) : world :=
  World demo_env stdin (Sink [] out) [] [] (Sink [] []) [].

Definition abc : list byte := ["a"; "b"; "c"]%byte.

(** More iterations than any loop of the two programs can make. *)
Definition big_fuel : nat := Z.to_nat 70000.

(** One byte more than [MAX_REQUEST]. *)
Definition oversized : source := [Chunk (repeat "x"%byte 4097)].

(** The same machine with an echo endpoint as the peer. *)
Definition echo_env : environment :=
  Env true (fun req => Some req) true (fun _ _ => true) VsockConnect.echo_peer.

Definition echo_world (stdin : source) (to_sock to_out : list wr_event) : world :=
  World echo_env stdin (Sink [] to_out) [] [] (Sink [] to_sock) [].

Definition argv3 : list string := ["vsock-connect"; "3"; "5000"]%string.

(** A process with three unread bytes on standard input and three bytes
    waiting on the socket. *)
Definition pending_world : world :=
  World demo_env [Chunk abc] (Sink [] []) [] [Chunk abc] (Sink [] []) [].

(* ================================================================= *)
(** ** Further notions for the statements *)

Module NsmIoctlSpec.
Import NsmIoctl.

(** What [nsm-ioctl] can print on the error stream. *)
Definition nsm_diags : list string :=
  ["nsm-ioctl: empty request" ++ nl; "open(/dev/nsm)"; "ioctl(NSM)";
   "write(stdout)"]%string.

(** A write of the response loop that stays inside the [n] bytes of the
    response. *)
Definition response_write (n : Z) (c : syscall) : Prop :=
  match c with
  | SysWrite fd off count _ =>
      fd = STDOUT_FILENO /\ 0 <= off /\ 0 < count /\ off + count = n
  | _ => False
  end.

End NsmIoctlSpec.

Module VsockConnectSpec.
Import VsockConnect.

(** A wake-up of [poll] that reports neither input on standard input nor
    input or a hang-up on the socket. *)
Definition idle (ev : poll_event) : Prop :=
  match ev with
  | PollErr => False
  | Ready rev0 rev1 =>
      Z.land rev0 POLLIN = 0 /\ Z.land rev1 (Z.lor POLLIN POLLHUP) = 0
  end.

(** A call of [poll]. *)
Definition is_poll (c : syscall) : Prop :=
  match c with
  | SysPoll _ _ _ => True
  | _ => False
  end.

(** A [read] or [write] of the loop that stays inside [buf]. *)
Definition inside_buf (c : syscall) : Prop :=
  match c with
  | SysRead _ off count _ => off = 0 /\ count = BUF_SIZE
  | SysWrite _ off count _ => 0 <= off /\ 0 < count /\ off + count <= BUF_SIZE
  | _ => True
  end.

(** [downstream_only w w']: from [w] to [w'] standard input was not read
    and nothing was taken by the socket; every system call issued was a
    [poll] without standard input, a read of the socket or a write to
    standard output. *)
Definition downstream_only (w w' : world) : Prop :=
  w_env w' = w_env w
  /\ w_stdin w' = w_stdin w
  /\ w_sock_tx w' = w_sock_tx w
  /\ exists L, w_log w' = w_log w ++ L /\ Forall half_closed_call L.

(** [forwarded w w']: from [w] to [w'] the socket took exactly the bytes
    that were consumed from standard input, in order. *)
Definition forwarded (w w' : world) : Prop :=
  exists sent,
    taken (w_sock_tx w') = taken (w_sock_tx w) ++ sent
    /\ src_bytes (w_stdin w) = sent ++ src_bytes (w_stdin w').

(** [forwarded], with a socket that will still not fail. *)
Definition forwarded_clean (w w' : world) : Prop :=
  forwarded w w' /\ never_fails (w_sock_tx w').

End VsockConnectSpec.

(* ================================================================= *)
(** * Proofs *)

(** ** Buffers *)

Lemma len_app (a b : list byte) : len (a ++ b) = len a + len b.
Proof. unfold len. rewrite length_app. lia. Qed.

Lemma len_nonneg (a : list byte) : 0 <= len a.
Proof. unfold len. lia. Qed.

Lemma len_firstn (n : Z) (l : list byte) :
  0 <= n -> len (firstn (Z.to_nat n) l) = Z.min n (len l).
Proof. intros Hn. unfold len. rewrite length_firstn. lia. Qed.

Lemma buf_store_nil (buf : list byte) (off : Z) : buf_store buf off [] = buf.
Proof.
  unfold buf_store. cbn [List.length app]. rewrite Nat.add_0_r.
  apply firstn_skipn.
Qed.

Lemma length_buf_store (buf : list byte) (off : Z) (d : list byte) :
  0 <= off -> off + len d <= len buf ->
  length (buf_store buf off d) = length buf.
Proof.
  unfold buf_store, len. intros H0 H1.
  rewrite !length_app, length_firstn, length_skipn. lia.
Qed.

Lemma firstn_exact (q r : list byte) : firstn (length q) (q ++ r) = q.
Proof.
  rewrite firstn_app, firstn_all, Nat.sub_diag. cbn [firstn]. apply app_nil_r.
Qed.

Lemma skipn_past (q r : list byte) (n : nat) :
  skipn (length q + n) (q ++ r) = skipn n r.
Proof.
  rewrite skipn_app, skipn_all2 by lia. cbn [app]. f_equal. lia.
Qed.

Lemma buf_store_app (buf : list byte) (off : Z) (d1 d2 : list byte) :
  0 <= off -> off + len d1 <= len buf ->
  buf_store (buf_store buf off d1) (off + len d1) d2 = buf_store buf off (d1 ++ d2).
Proof.
  unfold buf_store, len. intros H0 H1.
  set (p := firstn (Z.to_nat off) buf).
  assert (Hp : length p = Z.to_nat off)
    by (unfold p; rewrite length_firstn; lia).
  assert (Hq : length (p ++ d1) = Z.to_nat (off + Z.of_nat (length d1)))
    by (rewrite length_app, Hp; lia).
  rewrite (app_assoc p d1), <- Hq, firstn_exact, skipn_past, skipn_skipn.
  rewrite <- !app_assoc. do 3 f_equal. rewrite length_app. f_equal. lia.
Qed.

Lemma buf_load_store_0 (buf d : list byte) (off : Z) :
  0 <= off <= len d ->
  buf_load (buf_store buf 0 d) off (len d - off) = skipn (Z.to_nat off) d.
Proof.
  unfold buf_load, buf_store, len. intros H. cbn [Z.to_nat firstn app Nat.add].
  rewrite skipn_app.
  replace (Z.to_nat off - length d)%nat with 0%nat by lia.
  rewrite skipn_0, firstn_app.
  rewrite length_skipn.
  replace (Z.to_nat (Z.of_nat (length d) - off) - (length d - Z.to_nat off))%nat
    with 0%nat by lia.
  cbn [firstn]. rewrite app_nil_r.
  apply firstn_all2. rewrite length_skipn. lia.
Qed.

Lemma length_alloca (n : Z) (stack : list byte) :
  0 <= n -> len (alloca n stack) = n.
Proof.
  intros Hn. unfold alloca, len.
  rewrite length_firstn, length_app, repeat_length. lia.
Qed.

(** ** Machine integers and worlds *)

Ltac wsimpl :=
  unfold logged, set_stdin, set_stdout, set_stderr, set_sock_rx, set_sock_tx in *;
  cbn [w_env w_stdin w_stdout w_stderr w_sock_rx w_sock_tx w_log taken sched] in *.

Lemma to_size_t_small (z : Z) : 0 <= z < 2 ^ 64 -> to_size_t z = z.
Proof. intros H. unfold to_size_t. apply Z.mod_small. exact H. Qed.

Lemma to_uint_small (z : Z) : 0 <= z < 2 ^ 32 -> to_uint z = z.
Proof. intros H. unfold to_uint. apply Z.mod_small. exact H. Qed.

Lemma to_int_small (z : Z) : - 2 ^ 31 <= z < 2 ^ 31 -> to_int z = z.
Proof. intros H. unfold to_int. rewrite Z.mod_small; lia. Qed.

(** ** One write on a sink *)

Lemma skipn_nonempty (d : list byte) (off : Z) :
  0 <= off < len d -> skipn (Z.to_nat off) d <> [].
Proof.
  unfold len. intros H E. apply (f_equal (@length byte)) in E.
  rewrite length_skipn in E. cbn in E. lia.
Qed.

Lemma firstn_add (a b : nat) :
  forall l : list byte, firstn a l ++ firstn b (skipn a l) = firstn (a + b) l.
Proof.
  induction a as [|a IH]; intros l; [reflexivity|].
  destruct l as [|x l]; cbn [firstn skipn Nat.add app].
  - rewrite firstn_nil. reflexivity.
  - rewrite IH. reflexivity.
Qed.

Lemma sys_write_stdout (buf : list byte) (off count : Z) (w : world) :
  sys_write STDOUT_FILENO buf off count w
  = let '(n, _, k) := sink_write (w_stdout w) (buf_load buf off count) in
    (Val n, logged (set_stdout w k) (SysWrite 1 off count n)).
Proof. reflexivity. Qed.

Lemma sys_write_socket (buf : list byte) (off count : Z) (w : world) :
  sys_write NEW_FD buf off count w
  = let '(n, a, k) := sink_write (w_sock_tx w) (buf_load buf off count) in
    (Val n, logged (set_sock_rx (set_sock_tx w k) (peer (w_env w) a (w_sock_rx w)))
                   (SysWrite 3 off count n)).
Proof. reflexivity. Qed.

Lemma sys_read_stdin (buf : list byte) (off count : Z) (w : world) :
  sys_read STDIN_FILENO buf off count w
  = let '(n, d, s) := source_read (w_stdin w) count in
    (Val (n, buf_store buf off d), logged (set_stdin w s) (SysRead 0 off count n)).
Proof. reflexivity. Qed.

Lemma sys_read_socket (buf : list byte) (off count : Z) (w : world) :
  sys_read NEW_FD buf off count w
  = let '(n, d, s) := source_read (w_sock_rx w) count in
    (Val (n, buf_store buf off d), logged (set_sock_rx w s) (SysRead 3 off count n)).
Proof. reflexivity. Qed.

(** ** Reads and the bytes of a source *)

Lemma source_read_bytes (s : source) (count : Z) :
  0 <= count ->
  forall n d s', source_read s count = (n, d, s') ->
    src_bytes s = d ++ src_bytes s'
    /\ (0 < n -> n = len d)
    /\ (n <= 0 -> d = []).
Proof.
  intros Hc n d s' HE.
  destruct s as [|[bs|] s0]; cbn [source_read] in HE.
  - inversion HE; subst. repeat split; auto; lia.
  - inversion HE; subst; clear HE. pose proof (len_nonneg bs) as Hbs.
    split; [|split].
    + cbn [src_bytes].
      destruct (Z.leb_spec (len bs) count) as [Hle|Hgt].
      * rewrite Z.min_r by lia. unfold len. rewrite Nat2Z.id, firstn_all. reflexivity.
      * cbn [src_bytes]. rewrite app_assoc, firstn_skipn. reflexivity.
    + intros _. rewrite len_firstn; lia.
    + intros Hn. replace (Z.to_nat (Z.min count (len bs))) with 0%nat by lia.
      reflexivity.
  - inversion HE; subst. repeat split; auto; lia.
Qed.

Lemma sink_write_accepts (k : sink) (data : list byte) :
  never_fails k -> data <> [] ->
  exists a k', sink_write k data = (len a, a, Sink (taken k ++ a) k')
    /\ 0 < len a <= len data
    /\ a = firstn (length a) data
    /\ forallb accepts k' = true.
Proof.
  unfold never_fails, sink_write. intros Hnf Hne.
  assert (Hd : 0 < len data) by (destruct data; [congruence | unfold len; cbn; lia]).
  destruct (sched k) as [|[m| |] k'] eqn:Hk; cbn [forallb accepts andb] in Hnf;
    try discriminate.
  - exists data, []. rewrite firstn_all. repeat split; auto; lia.
  - exists (firstn (Pos.to_nat m) data), k'. split; [reflexivity|].
    split; [|split; [|exact Hnf]].
    + unfold len in *. rewrite length_firstn. lia.
    + rewrite length_firstn.
      destruct (Nat.min_spec (Pos.to_nat m) (length data)) as [[? ->]|[? ->]];
        [reflexivity|].
      rewrite firstn_all, firstn_all2 by lia. reflexivity.
Qed.

Lemma skipn_step (d : list byte) (written : Z) (a : list byte) :
  0 <= written ->
  a = firstn (length a) (skipn (Z.to_nat written) d) ->
  a ++ skipn (Z.to_nat (written + len a)) d = skipn (Z.to_nat written) d.
Proof.
  intros Hw Ha. rewrite <- (firstn_skipn (length a) (skipn (Z.to_nat written) d)).
  rewrite <- Ha, skipn_skipn. do 2 f_equal. unfold len. lia.
Qed.

(** ** Outcomes *)

Lemma outcome_ret {A} msgs (a : A) w : outcome msgs w (ret a w).
Proof. split; [exists []; symmetry; apply app_nil_r | reflexivity]. Qed.

Lemma outcome_die {A} msgs m w : In m msgs -> outcome (A := A) msgs w (die m w).
Proof.
  intros Hin. split; [exists []; symmetry; apply app_nil_r|].
  cbn. split; [reflexivity|]. exists m. auto.
Qed.

Lemma outcome_bind {A B} msgs (m : M A) (f : A -> M B) w :
  outcome msgs w (m w) ->
  (forall a w1, outcome msgs w1 (f a w1)) ->
  outcome msgs w (bind m f w).
Proof.
  unfold outcome, bind. intros [[L HL] Hm] Hf.
  destruct (m w) as [[a| c | |] w1]; cbn [fst snd] in *; try (split; [eauto|assumption]).
  destruct (Hf a w1) as [[L' HL'] Hf']. split.
  - exists (L ++ L'). rewrite HL', HL, app_assoc. reflexivity.
  - rewrite <- Hm. exact Hf'.
Qed.

Lemma outcome_logged {A} msgs (a : A) w c : outcome msgs w (Val a, logged w c).
Proof. split; [eexists; reflexivity | reflexivity]. Qed.

Lemma outcome_sys_write msgs fd buf off count w :
  outcome msgs w (sys_write fd buf off count w).
Proof.
  unfold sys_write.
  destruct (fd =? STDOUT_FILENO); [|destruct (fd =? NEW_FD)].
  - destruct (sink_write _ _) as [[n a] k]. split; [eexists; reflexivity | reflexivity].
  - destruct (sink_write _ _) as [[n a] k]. split; [eexists; reflexivity | reflexivity].
  - apply outcome_logged.
Qed.

Lemma outcome_sys_read msgs fd buf off count w :
  outcome msgs w (sys_read fd buf off count w).
Proof.
  unfold sys_read.
  destruct (fd =? STDIN_FILENO); [|destruct (fd =? NEW_FD)].
  - destruct (source_read _ _) as [[n a] k]. split; [eexists; reflexivity | reflexivity].
  - destruct (source_read _ _) as [[n a] k]. split; [eexists; reflexivity | reflexivity].
  - apply outcome_logged.
Qed.

(* ================================================================= *)
(** ** [nsm-ioctl.c] *)

Module NsmIoctlProofs.
Import NsmIoctl.

Lemma read_request_spec (fuel : nat) :
  forall (buf : list byte) (req_len : Z) (w : world),
    0 <= req_len <= MAX_REQUEST ->
    len buf = MAX_REQUEST ->
    MAX_REQUEST - req_len < Z.of_nat fuel ->
    let d := firstn (Z.to_nat (MAX_REQUEST - req_len)) (avail (w_stdin w)) in
    exists s' L,
      read_request fuel buf req_len w
      = (Val (buf_store buf req_len d, req_len + len d),
         World (w_env w) s' (w_stdout w) (w_stderr w) (w_sock_rx w)
               (w_sock_tx w) (w_log w ++ L))
      /\ Forall request_read L.
Proof.
  unfold MAX_REQUEST.
  induction fuel as [|fuel IH]; intros buf req_len w Hr Hb Hf; [lia|].
  set (d := firstn (Z.to_nat (4096 - req_len)) (avail (w_stdin w))).
  cbn [read_request]. unfold bind, sys_read. cbn [Z.eqb STDIN_FILENO].
  unfold MAX_REQUEST, STDIN_FILENO.
  rewrite to_size_t_small by lia.
  assert (Hone : forall n, n <= 0 -> 0 <= 4096 - req_len ->
            Forall request_read [SysRead 0 req_len (4096 - req_len) n]).
  { intros n Hn _. constructor; [|constructor]. cbn. unfold MAX_REQUEST, STDIN_FILENO. lia. }
  destruct (w_stdin w) as [|[bs|] s] eqn:Hs; cbn [source_read].
  - (* end of input *)
    subst d. cbn [avail]. rewrite firstn_nil, buf_store_nil.
    cbn [Z.ltb Z.compare]. unfold ret. wsimpl.
    exists [], [SysRead 0 req_len (4096 - req_len) 0].
    change (len []) with 0. rewrite Z.add_0_r.
    split; [reflexivity|apply Hone; lia].
  - (* a chunk *)
    destruct (Z.ltb_spec 0 (Z.min (4096 - req_len) (len bs))) as [Hk|Hk].
    + (* some bytes are delivered *)
      destruct bs as [|b bs']; [unfold len in Hk; cbn in Hk; lia|].
      set (bs := b :: bs') in *.
      set (k := Z.min (4096 - req_len) (len bs)) in *.
      assert (Hd1 : len (firstn (Z.to_nat k) bs) = k)
        by (rewrite len_firstn; lia).
      edestruct (IH (buf_store buf req_len (firstn (Z.to_nat k) bs)) (req_len + k)
                   (logged (set_stdin w
                      (if len bs <=? 4096 - req_len then s
                       else Chunk (skipn (Z.to_nat k) bs) :: s))
                      (SysRead 0 req_len (4096 - req_len) k)))
        as (s' & L & HE & HL).
      * lia.
      * unfold len in *. rewrite length_buf_store; unfold len; lia.
      * lia.
      * exists s', (SysRead 0 req_len (4096 - req_len) k :: L).
        split.
        2:{ constructor; [cbn; unfold MAX_REQUEST, STDIN_FILENO; lia | exact HL]. }
        etransitivity; [exact HE|]. wsimpl.
        rewrite <- app_assoc. cbn [app].
        rewrite <- Hd1 at 2. rewrite buf_store_app by (rewrite ?Hd1; lia).
        assert (Hdd : d = firstn (Z.to_nat k) bs
                   ++ firstn (Z.to_nat (4096 - (req_len + k)))
                        (avail (if len bs <=? 4096 - req_len then s
                                else Chunk (skipn (Z.to_nat k) bs) :: s))).
        { subst d. change (avail (Chunk bs :: s)) with (bs ++ avail s).
          rewrite firstn_app.
          destruct (Z.leb_spec (len bs) (4096 - req_len)) as [Hle|Hgt].
          - replace k with (len bs) by lia. unfold len in *.
            rewrite Nat2Z.id, firstn_all.
            rewrite (firstn_all2 bs) by lia. do 2 f_equal. lia.
          - replace k with (4096 - req_len) by lia.
            replace (Z.to_nat (4096 - (req_len + (4096 - req_len)))) with 0%nat by lia.
            replace (Z.to_nat (4096 - req_len) - length bs)%nat with 0%nat
              by (unfold len in Hgt; lia).
            reflexivity. }
        rewrite <- Hdd. do 3 f_equal.
        rewrite Hdd, len_app, Hd1. lia.
    + (* nothing is delivered: an empty chunk, or no room left *)
      unfold ret. wsimpl.
      assert (Hd0 : d = []).
      { subst d. destruct bs as [|b bs']; [cbn [avail]; apply firstn_nil|].
        unfold len in Hk. cbn [List.length] in Hk.
        replace (Z.to_nat (4096 - req_len)) with 0%nat by lia. reflexivity. }
      rewrite Hd0.
      replace (Z.to_nat (Z.min (4096 - req_len) (len bs))) with 0%nat
        by (pose proof (len_nonneg bs); lia).
      cbn [firstn]. rewrite buf_store_nil.
      change (len []) with 0. rewrite Z.add_0_r.
      eexists _, [_]. split; [reflexivity|apply Hone; lia].
  - (* a read error *)
    subst d. cbn [avail]. rewrite firstn_nil, buf_store_nil.
    cbn [Z.ltb Z.compare]. unfold ret. wsimpl.
    exists s, [SysRead 0 req_len (4096 - req_len) (-1)].
    change (len []) with 0. rewrite Z.add_0_r.
    split; [reflexivity|apply Hone; lia].
Qed.

Lemma write_response_spec (fuel : nat) :
  forall (iov : nsm_iovec) (buf d : list byte) (written : Z) (w : world),
    response_len iov = len d ->
    len d <= MAX_RESPONSE ->
    0 <= written <= len d ->
    len d - written < Z.of_nat fuel ->
    exists (j : nat) k' diag L r,
      write_response fuel iov (buf_store buf 0 d) written w
      = (r, World (w_env w) (w_stdin w)
                  (Sink (taken (w_stdout w) ++ firstn j (skipn (Z.to_nat written) d)) k')
                  (w_stderr w ++ diag) (w_sock_rx w) (w_sock_tx w) (w_log w ++ L))
      /\ Forall stdout_write L
      /\ ((r = Val tt /\ Z.of_nat j = len d - written /\ diag = [])
          \/ (r = Halt 1 /\ Z.of_nat j < len d - written
              /\ diag = ["write(stdout)"%string]
              /\ ~ never_fails (w_stdout w))).
Proof.
  unfold MAX_RESPONSE.
  induction fuel as [|fuel IH]; intros iov buf d written w Hn Hcap Hw Hf; [lia|].
  cbn [write_response]. rewrite Hn, to_size_t_small by lia.
  destruct (Z.ltb_spec written (len d)) as [Hlt|Hge].
  2:{ (* everything is written *)
    exists 0%nat, (sched (w_stdout w)), [], [], (Val tt).
    unfold ret. cbn [firstn]. rewrite !app_nil_r.
    destruct w as [e i [t k] er rx tx l]. cbn.
    repeat split; [constructor | left; repeat split; lia]. }
  unfold bind. rewrite sys_write_stdout.
  rewrite to_int_small, to_size_t_small by lia.
  rewrite buf_load_store_0 by lia.
  pose proof (skipn_nonempty d written ltac:(lia)) as Hne.
  set (data := skipn (Z.to_nat written) d) in *.
  assert (Hdl : len data = len d - written)
    by (unfold data, len; rewrite length_skipn; unfold len in *; lia).
  unfold sink_write.
  destruct (sched (w_stdout w)) as [|[m| |] k] eqn:Hk.
  - (* the whole of it is taken *)
    destruct (Z.leb_spec (len data) 0) as [H0|H0]; [lia|].
    edestruct (IH iov buf d (written + len data)
                 (logged (set_stdout w (Sink (taken (w_stdout w) ++ data) []))
                         (SysWrite 1 written (len d - written) (len data))))
      as (j & k' & diag & L & r & HE & HL & HR); try lia.
    exists (length data + j)%nat, k', diag,
      (SysWrite 1 written (len d - written) (len data) :: L), r.
    split; [etransitivity; [exact HE|]|split].
    + wsimpl. rewrite <- !app_assoc. cbn [app].
      replace (Z.to_nat (written + len data)) with (Z.to_nat written + length data)%nat
        by (unfold len; lia).
      replace (skipn (Z.to_nat written + length data) d) with (skipn (length data) data)
        by (unfold data; rewrite skipn_skipn; f_equal; lia).
      rewrite <- firstn_add, firstn_all. reflexivity.
    + constructor; [reflexivity|exact HL].
    + destruct HR as [(-> & Hj & ->)|(-> & Hj & -> & Hnf)].
      * left. repeat split. unfold len in *. lia.
      * exfalso. apply Hnf. unfold never_fails. wsimpl. reflexivity.
  - (* part of it is taken *)
    set (a := firstn (Pos.to_nat m) data).
    assert (Ha : 0 < len a <= len data).
    { unfold a, len. rewrite length_firstn.
      destruct data; [congruence|]. cbn [List.length]. lia. }
    destruct (Z.leb_spec (len a) 0) as [H0|H0]; [lia|].
    edestruct (IH iov buf d (written + len a)
                 (logged (set_stdout w (Sink (taken (w_stdout w) ++ a) k))
                         (SysWrite 1 written (len d - written) (len a))))
      as (j & k' & diag & L & r & HE & HL & HR); try lia.
    exists (length a + j)%nat, k', diag,
      (SysWrite 1 written (len d - written) (len a) :: L), r.
    split; [etransitivity; [exact HE|]|split].
    + wsimpl. rewrite <- !app_assoc. cbn [app].
      replace (Z.to_nat (written + len a)) with (Z.to_nat written + length a)%nat
        by (unfold len; lia).
      replace (skipn (Z.to_nat written + length a) d) with (skipn (length a) data)
        by (unfold data; rewrite skipn_skipn; f_equal; lia).
      rewrite <- firstn_add.
      replace (firstn (length a) data) with a; [reflexivity|].
      unfold a. rewrite length_firstn.
      destruct (Nat.min_spec (Pos.to_nat m) (length data)) as [[? ->]|[? ->]];
        [reflexivity|].
      rewrite firstn_all, firstn_all2 by lia. reflexivity.
    + constructor; [reflexivity|exact HL].
    + destruct HR as [(-> & Hj & ->)|(-> & Hj & -> & Hnf)].
      * left. repeat split. unfold len in *. lia.
      * right. repeat split; [unfold len in *; lia|].
        intros Hc. apply Hnf. unfold never_fails in *. wsimpl.
        rewrite Hk in Hc. cbn in Hc. exact Hc.
  - (* nothing is taken *)
    cbn [Z.leb Z.compare]. unfold die. wsimpl.
    exists 0%nat, k, ["write(stdout)"%string],
      [SysWrite 1 written (len d - written) 0], (Halt 1).
    cbn [firstn]. rewrite app_nil_r.
    repeat split; [repeat constructor | right; repeat split; try lia].
    unfold never_fails. rewrite Hk. cbn. discriminate.
  - (* the write fails *)
    cbn [Z.leb Z.compare]. unfold die. wsimpl.
    exists 0%nat, k, ["write(stdout)"%string],
      [SysWrite 1 written (len d - written) (-1)], (Halt 1).
    cbn [firstn]. rewrite app_nil_r.
    repeat split; [repeat constructor | right; repeat split; try lia].
    unfold never_fails. rewrite Hk. cbn. discriminate.
Qed.

Lemma len_request_of (w : world) : 0 <= len (request_of w) <= MAX_REQUEST.
Proof.
  unfold request_of. rewrite len_firstn by (unfold MAX_REQUEST; lia).
  pose proof (len_nonneg (avail (w_stdin w))). unfold MAX_REQUEST. lia.
Qed.

(** [main] up to the loop that writes the response. *)
Lemma main_cases (fuel : nat) (stack : list byte) (w : world) :
  MAX_REQUEST < Z.of_nat fuel ->
  exists s' L,
    Forall request_read L
    /\ let req := request_of w in
       let req_buf := buf_store (alloca MAX_REQUEST stack) 0 req in
       let w1 := World (w_env w) s' (w_stdout w) (w_stderr w) (w_sock_rx w)
                       (w_sock_tx w) (w_log w ++ L) in
       main fuel stack w
       = if len req <=? 0 then
           (Val 1, set_stderr w1 (w_stderr w ++ ["nsm-ioctl: empty request" ++ nl]%string))
         else if negb (dev_present (w_env w)) then
           (Halt 1, set_stderr (logged w1 (SysOpen NSM_DEV_PATH (-1)))
                               (w_stderr w ++ ["open(/dev/nsm)"%string]))
         else
           let w2 := logged w1 (SysOpen NSM_DEV_PATH NEW_FD) in
           match dev_ioctl (w_env w) req with
           | None =>
               (Halt 1, set_stderr (logged w2 (SysIoctl NEW_FD NSM_IOCTL_CMD req (-1)))
                                   (w_stderr w ++ ["ioctl(NSM)"%string]))
           | Some resp =>
               let resp_buf :=
                 buf_store zeros 0 (firstn (Z.to_nat MAX_RESPONSE) resp) in
               (write_response fuel
                  (Iovec (len req) (to_uint (len resp)) req_buf resp_buf) resp_buf 0 ;;
                ret 0)
                 (logged (logged w2 (SysIoctl NEW_FD NSM_IOCTL_CMD req 0))
                         (SysClose NEW_FD))
           end.
Proof.
  intros Hf.
  destruct (read_request_spec fuel (alloca MAX_REQUEST stack) 0 w)
    as (s' & L & HE & HL).
  { unfold MAX_REQUEST; lia. }
  { apply length_alloca. unfold MAX_REQUEST; lia. }
  { lia. }
  exists s', L. split; [exact HL|]. intros req req_buf w1.
  rewrite Z.sub_0_r, Z.add_0_l in HE. fold (request_of w) in HE. fold req in HE.
  fold req_buf in HE.
  pose proof (len_request_of w) as Hreq. fold req in Hreq. unfold MAX_REQUEST in Hreq.
  unfold main. unfold bind at 1. rewrite HE. fold w1.
  destruct (Z.leb_spec (len req) 0) as [H0|H0]; [reflexivity|].
  rewrite to_uint_small by lia.
  unfold bind at 1. unfold sys_open at 1.
  rewrite String.eqb_refl. cbn [andb].
  destruct (dev_present (w_env w1)) eqn:Hdev; cbn [w_env w1] in Hdev; rewrite Hdev;
    cbn [negb]; [|reflexivity].
  change (NEW_FD <? 0) with false. cbn iota.
  unfold bind at 1. unfold sys_ioctl at 1.
  cbn [request request_len response response_len w_env logged w1].
  replace (buf_load req_buf 0 (len req)) with req.
  2:{ unfold req_buf. rewrite <- (Z.sub_0_r (len req)).
      rewrite buf_load_store_0 by lia. reflexivity. }
  destruct (dev_ioctl (w_env w) req) as [resp|]; reflexivity.
Qed.

Lemma write_response_log (fuel : nat) :
  forall iov buf written w r w',
    write_response fuel iov buf written w = (r, w') ->
    exists T, w_log w' = w_log w ++ T.
Proof.
  induction fuel as [|fuel IH]; intros iov buf written w r w' HE; cbn [write_response] in HE.
  - inversion HE; subst. exists []. symmetry; apply app_nil_r.
  - destruct (to_size_t written <? response_len iov).
    2:{ inversion HE; subst. exists []. symmetry; apply app_nil_r. }
    unfold bind in HE. rewrite sys_write_stdout in HE.
    destruct (sink_write _ _) as [[n a] k].
    destruct (n <=? 0).
    + inversion HE; subst. wsimpl. eexists [_]. reflexivity.
    + apply IH in HE. destruct HE as [T ->]. wsimpl.
      rewrite <- app_assoc. eexists. reflexivity.
Qed.

(** The successful run, for whatever request was read. *)
Lemma main_success (fuel : nat) (stack : list byte) (w : world) (resp : list byte) :
  MAX_RESPONSE < Z.of_nat fuel ->
  1 <= len (request_of w) ->
  dev_present (w_env w) = true ->
  dev_ioctl (w_env w) (request_of w) = Some resp ->
  len resp <= MAX_RESPONSE ->
  never_fails (w_stdout w) ->
  exists w' R W,
    main fuel stack w = (Val 0, w')
    /\ taken (w_stdout w') = taken (w_stdout w) ++ resp
    /\ w_stderr w' = w_stderr w
    /\ w_log w' = w_log w ++ R
                  ++ [SysOpen NSM_DEV_PATH NEW_FD;
                      SysIoctl NEW_FD NSM_IOCTL_CMD (request_of w) 0;
                      SysClose NEW_FD] ++ W
    /\ Forall request_read R /\ Forall stdout_write W.
Proof.
  intros Hf Hreq Hdev Hio Hcap Hnf.
  destruct (main_cases fuel stack w) as (s' & R & HR & HE).
  { unfold MAX_REQUEST, MAX_RESPONSE in *; lia. }
  cbv zeta in HE. rewrite HE. clear HE.
  destruct (Z.leb_spec (len (request_of w)) 0) as [H0|_]; [lia|].
  rewrite Hdev, Hio. cbn [negb].
  rewrite firstn_all2 by (unfold MAX_RESPONSE, len in *; lia).
  rewrite to_uint_small by (unfold MAX_RESPONSE in *; pose proof (len_nonneg resp); lia).
  unfold bind at 1.
  match goal with |- context [write_response fuel ?iov _ 0 ?w0] =>
    destruct (write_response_spec fuel iov zeros resp 0 w0)
      as (j & k' & diag & W & r & HW & HWl & Hcase);
      [reflexivity | exact Hcap | pose proof (len_nonneg resp); lia | lia |]
  end.
  rewrite HW. clear HW. wsimpl.
  destruct Hcase as [(-> & Hj & ->)|(_ & _ & _ & Hn)]; [|contradiction].
  unfold ret. eexists _, R, W. split; [reflexivity|]. wsimpl.
  cbn [Z.to_nat skipn].
  rewrite firstn_all2 by (unfold len in *; lia).
  rewrite app_nil_r, <- !app_assoc. cbn [app].
  repeat split; assumption.
Qed.

(** Claim C7.  When no byte is read from standard input (it is at end of
    input, or its first read fails or is empty), [main] prints the
    "empty request" diagnostic and returns 1; standard output is left
    untouched and the only system calls issued are the reads of the
    request loop: the device is neither opened nor sent an ioctl. *)
Theorem empty_request_fails (fuel : nat) (stack : list byte) (w : world) :
  MAX_REQUEST < Z.of_nat fuel ->
  avail (w_stdin w) = [] ->
  exists w' L,
    main fuel stack w = (Val 1, w')
    /\ w_stdout w' = w_stdout w
    /\ w_stderr w' = w_stderr w ++ ["nsm-ioctl: empty request" ++ nl]%string
    /\ w_log w' = w_log w ++ L
    /\ Forall request_read L.
Proof.
  intros Hf Hav.
  destruct (main_cases fuel stack w Hf) as (s' & L & HL & HE).
  cbv zeta in HE. rewrite HE. unfold request_of. rewrite Hav, firstn_nil.
  change (len [] <=? 0) with true. cbn iota.
  eexists _, L. split; [reflexivity|]. wsimpl. repeat split. exact HL.
Qed.

(** The theorem at an empty standard input. *)
Lemma empty_request_fails_witness :
  exists w' L,
    main big_fuel [] (demo_world [] []) = (Val 1, w')
    /\ w_stdout w' = Sink [] []
    /\ w_stderr w' = [] ++ ["nsm-ioctl: empty request" ++ nl]%string
    /\ w_log w' = [] ++ L
    /\ Forall request_read L.
Proof.
  apply (empty_request_fails big_fuel [] (demo_world [] [])).
  - vm_compute. reflexivity.
  - reflexivity.
Defined.

(** Claim C4.  When standard input holds a request of 1 to 4096 bytes,
    the device opens, its single ioctl answers that request with [resp]
    of at most 16384 bytes, and writes to standard output may be short
    but do not fail, [main] returns 0 having appended exactly [resp] to
    standard output; between the reads and the writes it issued one open,
    one ioctl carrying the request, and one close. *)
Theorem request_response_ok (fuel : nat) (stack : list byte) (w : world)
  (resp : list byte) :
  MAX_RESPONSE < Z.of_nat fuel ->
  1 <= len (avail (w_stdin w)) <= MAX_REQUEST ->
  dev_present (w_env w) = true ->
  dev_ioctl (w_env w) (avail (w_stdin w)) = Some resp ->
  len resp <= MAX_RESPONSE ->
  never_fails (w_stdout w) ->
  exists w' R W,
    main fuel stack w = (Val 0, w')
    /\ taken (w_stdout w') = taken (w_stdout w) ++ resp
    /\ w_stderr w' = w_stderr w
    /\ w_log w' = w_log w ++ R
                  ++ [SysOpen NSM_DEV_PATH NEW_FD;
                      SysIoctl NEW_FD NSM_IOCTL_CMD (avail (w_stdin w)) 0;
                      SysClose NEW_FD] ++ W
    /\ Forall request_read R /\ Forall stdout_write W.
Proof.
  intros Hf Hlen Hdev Hio Hcap Hnf.
  assert (Hreq : request_of w = avail (w_stdin w)).
  { unfold request_of. apply firstn_all2. unfold len in Hlen. lia. }
  rewrite <- Hreq in Hio, Hlen |- *.
  apply main_success; try assumption. lia.
Qed.

(** The theorem for a six-byte request arriving in two chunks, a device
    that answers with the request twice over, and two short writes. *)
Lemma request_response_ok_witness :
  exists w' R W,
    main big_fuel [] (demo_world [Chunk abc; Chunk abc] [Accept 4; Accept 1])
    = (Val 0, w')
    /\ taken (w_stdout w') = [] ++ (abc ++ abc) ++ (abc ++ abc)
    /\ w_stderr w' = []
    /\ w_log w' = [] ++ R
                  ++ [SysOpen NSM_DEV_PATH NEW_FD;
                      SysIoctl NEW_FD NSM_IOCTL_CMD (abc ++ abc) 0;
                      SysClose NEW_FD] ++ W
    /\ Forall request_read R /\ Forall stdout_write W.
Proof.
  apply (request_response_ok big_fuel []
           (demo_world [Chunk abc; Chunk abc] [Accept 4; Accept 1])
           ((abc ++ abc) ++ (abc ++ abc))).
  - vm_compute. reflexivity.
  - vm_compute. split; discriminate.
  - reflexivity.
  - reflexivity.
  - vm_compute. discriminate.
  - reflexivity.
Defined.

(** Claim C10.  The request loop, started as [main] starts it, ends for
    every standard input; each of its reads was issued with
    [0 <= req_len <= 4096] as the offset and [4096 - req_len] as the
    count (the conversion to [size_t] never wrapped) and returned no more
    than fits, so that nothing is stored past the end of [req_buf]; the
    final length is between 0 and 4096. *)
Theorem request_length_bounded (fuel : nat) (stack : list byte) (w : world) :
  MAX_REQUEST < Z.of_nat fuel ->
  exists req_buf req_len w' L,
    read_request fuel (alloca MAX_REQUEST stack) 0 w = (Val (req_buf, req_len), w')
    /\ 0 <= req_len <= MAX_REQUEST
    /\ len req_buf = MAX_REQUEST
    /\ w_log w' = w_log w ++ L
    /\ Forall request_read L.
Proof.
  intros Hf.
  assert (Ha : len (alloca MAX_REQUEST stack) = MAX_REQUEST)
    by (apply length_alloca; unfold MAX_REQUEST; lia).
  destruct (read_request_spec fuel (alloca MAX_REQUEST stack) 0 w)
    as (s' & L & HE & HL); [unfold MAX_REQUEST; lia | exact Ha | lia |].
  rewrite Z.sub_0_r, Z.add_0_l in HE. fold (request_of w) in HE.
  pose proof (len_request_of w) as Hreq.
  eexists _, _, _, L. split; [exact HE|]. wsimpl.
  repeat split; try lia; try assumption.
  unfold len in *. rewrite length_buf_store; unfold len; lia.
Qed.

(** The theorem for an input with a read error in the middle. *)
Lemma request_length_bounded_witness :
  exists req_buf req_len w' L,
    read_request big_fuel (alloca MAX_REQUEST abc) 0
                 (demo_world [Chunk abc; RdErr; Chunk abc] [])
    = (Val (req_buf, req_len), w')
    /\ 0 <= req_len <= MAX_REQUEST
    /\ len req_buf = MAX_REQUEST
    /\ w_log w' = [] ++ L
    /\ Forall request_read L.
Proof.
  apply (request_length_bounded big_fuel abc
           (demo_world [Chunk abc; RdErr; Chunk abc] [])).
  vm_compute. reflexivity.
Defined.

(** Claim C1 fails on the code: with 4097 bytes on standard input [main]
    reads 4096 of them, issues a read of count 0 that returns 0, sends the
    4096-byte prefix to the device and returns 0, with nothing on the
    error stream. *)
Lemma request_too_large_cex :
  len (avail oversized) = 4097
  /\ exit_status (fst (main big_fuel [] (demo_world oversized []))) = Some 0
  /\ w_stderr (snd (main big_fuel [] (demo_world oversized []))) = []
  /\ w_log (snd (main big_fuel [] (demo_world oversized [])))
     = [SysRead 0 0 4096 4096; SysRead 0 4096 0 0;
        SysOpen NSM_DEV_PATH 3;
        SysIoctl 3 NSM_IOCTL_CMD (repeat "x"%byte 4096) 0;
        SysClose 3; SysWrite 1 0 8192 8192].
Proof. vm_compute. repeat split; reflexivity. Qed.

(** Claim C1, amended.  When more than 4096 bytes are available on
    standard input and the device opens, [main] keeps the first 4096
    bytes and carries on with them: the ioctl is issued with that
    truncated request; if the device answers within the capacity and
    the writes do not fail, [main] returns 0 with the answer on standard
    output and nothing on the error stream. *)
Theorem oversized_request_truncated (fuel : nat) (stack : list byte) (w : world) :
  MAX_RESPONSE < Z.of_nat fuel ->
  MAX_REQUEST < len (avail (w_stdin w)) ->
  dev_present (w_env w) = true ->
  len (request_of w) = MAX_REQUEST
  /\ (exists R rc T,
        w_log (snd (main fuel stack w))
        = w_log w ++ R ++ SysOpen NSM_DEV_PATH NEW_FD
                  :: SysIoctl NEW_FD NSM_IOCTL_CMD (request_of w) rc :: T
        /\ Forall request_read R)
  /\ (forall resp,
        dev_ioctl (w_env w) (request_of w) = Some resp ->
        len resp <= MAX_RESPONSE ->
        never_fails (w_stdout w) ->
        fst (main fuel stack w) = Val 0
        /\ taken (w_stdout (snd (main fuel stack w))) = taken (w_stdout w) ++ resp
        /\ w_stderr (snd (main fuel stack w)) = w_stderr w).
Proof.
  intros Hf Hbig Hdev.
  assert (Hlen : len (request_of w) = MAX_REQUEST).
  { unfold request_of. rewrite len_firstn by (unfold MAX_REQUEST; lia). lia. }
  split; [exact Hlen|]. split.
  - destruct (main_cases fuel stack w) as (s' & R & HR & HE).
    { unfold MAX_REQUEST, MAX_RESPONSE in *; lia. }
    cbv zeta in HE. rewrite HE. clear HE. rewrite Hlen, Hdev.
    change (MAX_REQUEST <=? 0) with false. cbn [negb].
    destruct (dev_ioctl (w_env w) (request_of w)) as [resp|].
    + unfold bind at 1.
      match goal with |- context [write_response fuel ?iov ?b 0 ?w0] =>
        destruct (write_response fuel iov b 0 w0) as [r w'] eqn:HW
      end.
      apply write_response_log in HW. destruct HW as [T HT].
      exists R, 0, (SysClose NEW_FD :: T). split; [|exact HR].
      destruct r as [[]| | |]; cbn [snd ret]; unfold ret; cbn [snd]; rewrite HT; wsimpl;
        rewrite <- !app_assoc; reflexivity.
    + exists R, (-1), []. split; [|exact HR]. cbn [snd]. wsimpl.
      rewrite <- !app_assoc. reflexivity.
  - intros resp Hio Hcap Hnf.
    destruct (main_success fuel stack w resp) as (w' & R & W & HE & Ho & He & _);
      try assumption; [unfold MAX_REQUEST in *; lia|].
    rewrite HE. cbn [fst snd]. auto.
Qed.

(** The theorem at 4097 bytes of input. *)
Lemma oversized_request_truncated_witness :
  len (request_of (demo_world oversized [])) = MAX_REQUEST
  /\ (exists R rc T,
        w_log (snd (main big_fuel [] (demo_world oversized [])))
        = [] ++ R ++ SysOpen NSM_DEV_PATH NEW_FD
             :: SysIoctl NEW_FD NSM_IOCTL_CMD (request_of (demo_world oversized [])) rc
             :: T
        /\ Forall request_read R)
  /\ (forall resp,
        dev_ioctl demo_env (request_of (demo_world oversized [])) = Some resp ->
        len resp <= MAX_RESPONSE ->
        never_fails (Sink [] []) ->
        fst (main big_fuel [] (demo_world oversized [])) = Val 0
        /\ taken (w_stdout (snd (main big_fuel [] (demo_world oversized []))))
           = [] ++ resp
        /\ w_stderr (snd (main big_fuel [] (demo_world oversized []))) = []).
Proof.
  apply (oversized_request_truncated big_fuel [] (demo_world oversized [])).
  - vm_compute. reflexivity.
  - vm_compute. reflexivity.
  - reflexivity.
Defined.

(** Claim C3 fails on the code: the device answers with six bytes, the
    first write takes four of them and the second fails; the process
    exits with status 1 having written a proper, non-empty prefix. *)
Lemma partial_output_cex :
  dev_ioctl demo_env abc = Some (abc ++ abc)
  /\ exit_status (fst (main big_fuel [] (demo_world [Chunk abc] [Accept 4; WrErr])))
     = Some 1
  /\ taken (w_stdout (snd (main big_fuel [] (demo_world [Chunk abc] [Accept 4; WrErr]))))
     = ["a"; "b"; "c"; "a"]%byte.
Proof. vm_compute. repeat split; reflexivity. Qed.

(** Claim C3, amended.  As long as the device keeps its answer within
    the capacity, every run of [main] comes to its end having appended
    to standard output a prefix of the device's answer: nothing at all
    when the request is empty, the open fails or the ioctl fails, and
    the whole answer when it ends with status 0.  When the run ends with
    an exit status, the status is 0 or 1. *)
Theorem output_is_prefix (fuel : nat) (stack : list byte) (w : world) :
  MAX_RESPONSE < Z.of_nat fuel ->
  (forall resp, dev_ioctl (w_env w) (request_of w) = Some resp ->
                len resp <= MAX_RESPONSE) ->
  exists r w' out,
    main fuel stack w = (r, w')
    /\ r <> OutOfFuel
    /\ taken (w_stdout w') = taken (w_stdout w) ++ out
    /\ (forall c, exit_status r = Some c -> c = 0 \/ c = 1)
    /\ (exit_status r = Some 0 -> dev_ioctl (w_env w) (request_of w) = Some out)
    /\ (len (request_of w) <= 0 \/ dev_present (w_env w) = false
        \/ dev_ioctl (w_env w) (request_of w) = None -> out = [])
    /\ (forall resp, dev_ioctl (w_env w) (request_of w) = Some resp ->
                     exists j, out = firstn j resp).
Proof.
  intros Hf Hcap.
  destruct (main_cases fuel stack w) as (s' & R & HR & HE).
  { unfold MAX_REQUEST, MAX_RESPONSE in *; lia. }
  cbv zeta in HE. rewrite HE. clear HE.
  assert (Hnil : forall l : list byte, l = l ++ []) by (intros; symmetry; apply app_nil_r).
  assert (Hone : forall c : Z, Some 1 = Some c -> c = 0 \/ c = 1)
    by (intros c H; inversion H; auto).
  assert (Hpre : forall resp : list byte, exists j, @nil byte = firstn j resp)
    by (intros; exists 0%nat; reflexivity).
  destruct (Z.leb_spec (len (request_of w)) 0) as [Hlen|Hlen].
  { eexists _, _, []. split; [reflexivity|]. wsimpl.
    repeat split; auto; discriminate. }
  destruct (dev_present (w_env w)) eqn:Hdev; cbn [negb].
  2:{ eexists _, _, []. split; [reflexivity|]. wsimpl.
      repeat split; auto; discriminate. }
  destruct (dev_ioctl (w_env w) (request_of w)) as [resp|] eqn:Hio.
  2:{ eexists _, _, []. split; [reflexivity|]. wsimpl.
      repeat split; auto; discriminate. }
  specialize (Hcap resp eq_refl).
  rewrite firstn_all2 by (unfold MAX_RESPONSE, len in *; lia).
  rewrite to_uint_small by (unfold MAX_RESPONSE in *; pose proof (len_nonneg resp); lia).
  unfold bind at 1.
  match goal with |- context [write_response fuel ?iov _ 0 ?w0] =>
    destruct (write_response_spec fuel iov zeros resp 0 w0)
      as (j & k' & diag & W & r & HW & HWl & Hcase);
      [reflexivity | exact Hcap | pose proof (len_nonneg resp); lia | lia |]
  end.
  rewrite HW. clear HW. wsimpl. cbn [Z.to_nat skipn].
  destruct Hcase as [(-> & Hj & ->)|(-> & Hj & -> & Hn)].
  - unfold ret. eexists _, _, resp. split; [reflexivity|]. wsimpl.
    rewrite firstn_all2 by (unfold len in *; lia).
    repeat split; auto; try discriminate;
      try (intros [H|[H|H]]; [lia | discriminate | discriminate]).
    + intros c H. inversion H. auto.
    + intros resp' H. inversion H; subst resp'. exists (length resp).
      symmetry. apply firstn_all.
  - eexists _, _, (firstn j resp). split; [reflexivity|]. wsimpl.
    repeat split; auto; try discriminate;
      try (intros [H|[H|H]]; [lia | discriminate | discriminate]).
    intros resp' H. inversion H; subst resp'. eauto.
Qed.

(** The theorem at a run whose second write fails. *)
Lemma output_is_prefix_witness :
  exists r w' out,
    main big_fuel [] (demo_world [Chunk abc] [Accept 4; WrErr]) = (r, w')
    /\ r <> OutOfFuel
    /\ taken (w_stdout w') = [] ++ out
    /\ (forall c, exit_status r = Some c -> c = 0 \/ c = 1)
    /\ (exit_status r = Some 0 ->
        dev_ioctl demo_env (request_of (demo_world [Chunk abc] [Accept 4; WrErr]))
        = Some out)
    /\ (len (request_of (demo_world [Chunk abc] [Accept 4; WrErr])) <= 0
        \/ true = false
        \/ dev_ioctl demo_env (request_of (demo_world [Chunk abc] [Accept 4; WrErr]))
           = None -> out = [])
    /\ (forall resp,
          dev_ioctl demo_env (request_of (demo_world [Chunk abc] [Accept 4; WrErr]))
          = Some resp -> exists j, out = firstn j resp).
Proof.
  apply (output_is_prefix big_fuel [] (demo_world [Chunk abc] [Accept 4; WrErr])).
  - vm_compute. reflexivity.
  - intros resp H. vm_compute in H. inversion H. vm_compute. discriminate.
Defined.

End NsmIoctlProofs.

(* ================================================================= *)
(** ** [vsock-connect.c] *)

Module VsockConnectProofs.
Import VsockConnect DuplexStreamBridge.

Lemma outcome_write_all msgs (fuel : nat) out msg :
  In msg msgs ->
  forall buf n written w, outcome msgs w (write_all fuel out msg buf n written w).
Proof.
  intros Hin. induction fuel as [|fuel IH]; intros buf n written w; cbn [write_all].
  - split; [exists []; symmetry; apply app_nil_r | reflexivity].
  - destruct (written <? n); [|apply outcome_ret].
    apply outcome_bind; [apply outcome_sys_write|].
    intros a w1. destruct (a <=? 0); [apply outcome_die; exact Hin | apply IH].
Qed.

Lemma outcome_stdin_to_socket fuel sock buf fds w :
  outcome bridge_diags w (stdin_to_socket fuel sock buf fds w).
Proof.
  unfold stdin_to_socket. destruct (negb _); [|apply outcome_ret].
  apply outcome_bind; [apply outcome_sys_read|].
  intros [n b] w1. destruct (n <=? 0).
  - apply outcome_bind; [apply outcome_logged | intros; apply outcome_ret].
  - apply outcome_bind; [|intros; apply outcome_ret].
    apply outcome_write_all. cbn; auto.
Qed.

Lemma outcome_socket_to_stdout fuel sock buf fds w :
  outcome bridge_diags w (socket_to_stdout fuel sock buf fds w).
Proof.
  unfold socket_to_stdout. destruct (negb _); [|apply outcome_ret].
  apply outcome_bind; [apply outcome_sys_read|].
  intros [n b] w1. destruct (n <=? 0); [apply outcome_ret|].
  apply outcome_bind; [|intros; apply outcome_ret].
  apply outcome_write_all. cbn; auto.
Qed.

Lemma outcome_bridge fuel sock (evs : list poll_event) :
  forall buf fds w, outcome bridge_diags w (bridge fuel evs sock buf fds w).
Proof.
  induction evs as [|ev evs IH]; intros buf fds w; cbn [bridge].
  - split; [exists []; symmetry; apply app_nil_r | reflexivity].
  - apply outcome_bind.
    { unfold sys_poll. destruct ev; apply outcome_logged. }
    intros [r fds1] w1. destruct (r <? 0); [apply outcome_die; cbn; auto|].
    apply outcome_bind; [apply outcome_stdin_to_socket|].
    intros [buf1 fds2] w2.
    apply outcome_bind; [apply outcome_socket_to_stdout|].
    intros [brk buf2] w3. destruct brk; [apply outcome_ret | apply IH].
Qed.

Lemma digits_non_digit (s : string) (acc : Z) :
  match s with
  | String d _ => negb (isdigit d)
  | EmptyString => true
  end = true ->
  digits s acc = acc.
Proof.
  destruct s as [|d s]; cbn [digits]; [reflexivity|].
  intros H. apply negb_true_iff in H. rewrite H. reflexivity.
Qed.

Lemma atoi_non_numeric (s : string) : non_numeric s = true -> atoi s = 0.
Proof.
  unfold non_numeric, atoi, strtol.
  destruct (skip_spaces s) as [|c s'] eqn:Hs; [reflexivity|].
  destruct (Ascii.eqb_spec c "-") as [->|Hm]; cbn [orb].
  { intros H. rewrite (digits_non_digit s' 0 H). reflexivity. }
  destruct (Ascii.eqb_spec c "+") as [->|Hp].
  { intros H. rewrite (digits_non_digit s' 0 H). reflexivity. }
  intros H.
  assert (Hd : digits (String c s') 0 = 0) by (apply digits_non_digit; exact H).
  destruct c as [[] [] [] [] [] [] [] []]; try (rewrite Hd; reflexivity);
    congruence.
Qed.

(** [main] with two arguments, up to the loop. *)
Lemma main_connected (fuel : nat) (evs : list poll_event) (stack : list byte)
  (prog a1 a2 : string) (w : world) :
  let cid := to_uint (atoi a1) in
  let port := to_uint (atoi a2) in
  main fuel evs stack [prog; a1; a2] w
  = if vsock_present (w_env w) then
      let w1 := logged w (SysSocket NEW_FD) in
      if vsock_accepts (w_env w) cid port then
        (bridge fuel evs NEW_FD (alloca BUF_SIZE stack)
                (Pollfd STDIN_FILENO POLLIN 0, Pollfd NEW_FD POLLIN 0) ;;
         sys_close NEW_FD ;;
         ret 0) (logged w1 (SysConnect NEW_FD cid port 0))
      else
        (Halt 1, set_stderr (logged w1 (SysConnect NEW_FD cid port (-1)))
                            (w_stderr w ++ ["connect(vsock)"%string]))
    else
      (Halt 1, set_stderr (logged w (SysSocket (-1)))
                          (w_stderr w ++ ["socket(AF_VSOCK)"%string])).
Proof.
  intros cid port. unfold main.
  cbn [List.length Z.of_nat Pos.of_succ_nat Pos.succ Z.eqb Pos.eqb negb nth].
  fold cid port. unfold bind at 1. unfold sys_socket at 1.
  change (AF_VSOCK =? AF_VSOCK) with true. cbn [andb].
  destruct (vsock_present (w_env w)); [|reflexivity].
  change (NEW_FD <? 0) with false. cbn iota.
  unfold bind at 1. unfold sys_connect at 1.
  cbn [svm_cid svm_port w_env logged].
  destruct (vsock_accepts (w_env w) cid port); reflexivity.
Qed.

Lemma outcome_weaken {A} (m1 m2 : list string) w (p : res A * world) :
  incl m1 m2 -> outcome m1 w p -> outcome m2 w p.
Proof.
  intros Hi [HL Hr]. split; [exact HL|].
  destruct (fst p); try exact Hr.
  destruct Hr as [Hc (m & Hin & Hm)]. split; [exact Hc|]. exists m. auto.
Qed.

(** The run after a successful [connect]. *)
Lemma outcome_bridging fuel evs buf fds w :
  outcome fatal_diags w
    ((bridge fuel evs NEW_FD buf fds ;; sys_close NEW_FD ;; ret 0) w).
Proof.
  apply outcome_bind.
  - apply (outcome_weaken bridge_diags); [|apply outcome_bridge].
    intros m Hm. cbn in *. tauto.
  - intros _ w1. apply outcome_bind; [apply outcome_logged|].
    intros _ w2. apply outcome_ret.
Qed.

(** Claim C8.  With two arguments, whatever the strings are, [main] does
    not print the usage message: it calls [socket] and, when that
    succeeds, [connect] with [(unsigned) atoi(argv[1])] and
    [(unsigned) atoi(argv[2])]; the only diagnostics it can print are
    those of [die].  An argument in which [atoi] finds no number gives
    0. *)
Theorem arguments_parsed_with_atoi (fuel : nat) (evs : list poll_event)
  (stack : list byte) (prog a1 a2 : string) (w : world) :
  (non_numeric a1 = true -> to_uint (atoi a1) = 0)
  /\ (non_numeric a2 = true -> to_uint (atoi a2) = 0)
  /\ (w_stderr (snd (main fuel evs stack [prog; a1; a2] w)) = w_stderr w
      \/ exists m, In m fatal_diags
           /\ w_stderr (snd (main fuel evs stack [prog; a1; a2] w)) = w_stderr w ++ [m])
  /\ (exists s L, w_log (snd (main fuel evs stack [prog; a1; a2] w))
                  = w_log w ++ SysSocket s :: L)
  /\ (vsock_present (w_env w) = true ->
      exists r L, w_log (snd (main fuel evs stack [prog; a1; a2] w))
                  = w_log w ++ SysSocket NEW_FD
                      :: SysConnect NEW_FD (to_uint (atoi a1)) (to_uint (atoi a2)) r
                      :: L).
Proof.
  split; [intros H; rewrite (atoi_non_numeric a1 H); reflexivity|].
  split; [intros H; rewrite (atoi_non_numeric a2 H); reflexivity|].
  rewrite main_connected. cbv zeta.
  destruct (vsock_present (w_env w)).
  2:{ cbn [snd]. wsimpl. split; [right; eexists; split; [|reflexivity]; cbn; auto|].
      split; [eexists _, []; reflexivity | discriminate]. }
  destruct (vsock_accepts (w_env w) _ _).
  2:{ cbn [snd]. wsimpl. split; [right; eexists; split; [|reflexivity]; cbn; auto|].
      rewrite <- app_assoc. cbn [app].
      split; [eexists _, [_]; reflexivity | intros _; eexists _, []; reflexivity]. }
  match goal with |- context [bind ?m ?f ?w0] =>
    pose proof (outcome_bridging fuel evs (alloca BUF_SIZE stack)
                  (Pollfd STDIN_FILENO POLLIN 0, Pollfd NEW_FD POLLIN 0) w0) as [[L HL] Hr];
    destruct (bind m f w0) as [r w'] eqn:HE
  end.
  cbn [fst snd] in *. wsimpl. rewrite HL, <- !app_assoc. cbn [app].
  split.
  - destruct r; auto. right. destruct Hr as [_ (m & Hin & Hm)]. eauto.
  - split; [eexists _, (_ :: L); reflexivity | intros _; eexists _, L; reflexivity].
Qed.

(** The theorem at the arguments ["abc"] and ["-x"]: a connection to
    (0, 0) is attempted. *)
Lemma arguments_parsed_with_atoi_witness :
  to_uint (atoi "abc") = 0
  /\ to_uint (atoi "-x") = 0
  /\ exists r L, w_log (snd (main big_fuel [] [] ["vsock-connect"; "abc"; "-x"]%string
                                  (demo_world [] [])))
                 = [] ++ SysSocket NEW_FD :: SysConnect NEW_FD 0 0 r :: L.
Proof.
  destruct (arguments_parsed_with_atoi big_fuel [] [] "vsock-connect" "abc" "-x"
              (demo_world [] [])) as (H1 & H2 & _ & _ & H5).
  split; [apply H1; reflexivity|].
  split; [apply H2; reflexivity|].
  apply H5. reflexivity.
Defined.

Lemma write_all_stdout (fuel : nat) (msg : string) :
  forall (buf d : list byte) (written : Z) (w : world),
    0 <= written <= len d ->
    len d < 2 ^ 64 ->
    len d - written < Z.of_nat fuel ->
    never_fails (w_stdout w) ->
    exists k' L,
      write_all fuel STDOUT_FILENO msg (buf_store buf 0 d) (len d) written w
      = (Val tt, World (w_env w) (w_stdin w)
                   (Sink (taken (w_stdout w) ++ skipn (Z.to_nat written) d) k')
                   (w_stderr w) (w_sock_rx w) (w_sock_tx w) (w_log w ++ L))
      /\ forallb accepts k' = true
      /\ Forall (write_to STDOUT_FILENO) L.
Proof.
  induction fuel as [|fuel IH]; intros buf d written w Hw Hd Hf Hnf; [lia|].
  cbn [write_all].
  destruct (Z.ltb_spec written (len d)) as [Hlt|Hge].
  2:{ exists (sched (w_stdout w)), []. unfold ret.
      rewrite skipn_all2 by (unfold len in *; lia). rewrite !app_nil_r.
      destruct w as [e i [t k] er rx tx l]. repeat split; [exact Hnf | constructor]. }
  unfold bind. rewrite sys_write_stdout, to_size_t_small by lia.
  rewrite buf_load_store_0 by lia.
  destruct (sink_write_accepts (w_stdout w) (skipn (Z.to_nat written) d) Hnf)
    as (a & k & HS & Ha & Hpre & Hk).
  { apply skipn_nonempty. lia. }
  rewrite HS.
  assert (Hal : len (skipn (Z.to_nat written) d) = len d - written)
    by (unfold len; rewrite length_skipn; unfold len in Hw; lia).
  destruct (Z.leb_spec (len a) 0) as [H0|_]; [lia|].
  edestruct (IH buf d (written + len a)
               (logged (set_stdout w (Sink (taken (w_stdout w) ++ a) k))
                       (SysWrite 1 written (len d - written) (len a))))
    as (k' & L & HE & Hk' & HL); try lia; [exact Hk|].
  exists k', (SysWrite 1 written (len d - written) (len a) :: L).
  split; [etransitivity; [exact HE|] | split; [exact Hk'|]].
  - wsimpl. rewrite <- !app_assoc. cbn [app].
    rewrite skipn_step by (tauto || lia). reflexivity.
  - constructor; [cbn; unfold STDOUT_FILENO; lia | exact HL].
Qed.

Lemma echo_peer_bytes (a : list byte) (rx : source) :
  src_bytes (echo_peer a rx) = src_bytes rx ++ a.
Proof.
  assert (Happ : forall s1 s2, src_bytes (s1 ++ s2) = src_bytes s1 ++ src_bytes s2).
  { induction s1 as [|[bs|] s1 IH]; intros s2; cbn [app src_bytes]; auto.
    rewrite IH, app_assoc. reflexivity. }
  destruct a as [|x a]; cbn [echo_peer]; [symmetry; apply app_nil_r|].
  rewrite Happ. cbn [src_bytes]. rewrite app_nil_r. reflexivity.
Qed.

Lemma write_all_socket_echo (fuel : nat) (msg : string) :
  forall (buf d : list byte) (written : Z) (w : world),
    0 <= written <= len d ->
    len d < 2 ^ 64 ->
    len d - written < Z.of_nat fuel ->
    never_fails (w_sock_tx w) ->
    peer (w_env w) = echo_peer ->
    exists k' rx' L,
      write_all fuel NEW_FD msg (buf_store buf 0 d) (len d) written w
      = (Val tt, World (w_env w) (w_stdin w) (w_stdout w) (w_stderr w) rx'
                   (Sink (taken (w_sock_tx w) ++ skipn (Z.to_nat written) d) k')
                   (w_log w ++ L))
      /\ forallb accepts k' = true
      /\ src_bytes rx' = src_bytes (w_sock_rx w) ++ skipn (Z.to_nat written) d
      /\ Forall (write_to NEW_FD) L.
Proof.
  induction fuel as [|fuel IH]; intros buf d written w Hw Hd Hf Hnf Hp; [lia|].
  cbn [write_all].
  destruct (Z.ltb_spec written (len d)) as [Hlt|Hge].
  2:{ exists (sched (w_sock_tx w)), (w_sock_rx w), []. unfold ret.
      rewrite skipn_all2 by (unfold len in *; lia). rewrite !app_nil_r.
      destruct w as [e i o er rx [t k] l]. repeat split; [exact Hnf | constructor]. }
  unfold bind. rewrite sys_write_socket, to_size_t_small by lia.
  rewrite buf_load_store_0 by lia.
  destruct (sink_write_accepts (w_sock_tx w) (skipn (Z.to_nat written) d) Hnf)
    as (a & k & HS & Ha & Hpre & Hk).
  { apply skipn_nonempty. lia. }
  rewrite HS, Hp.
  assert (Hal : len (skipn (Z.to_nat written) d) = len d - written)
    by (unfold len; rewrite length_skipn; unfold len in Hw; lia).
  destruct (Z.leb_spec (len a) 0) as [H0|_]; [lia|].
  edestruct (IH buf d (written + len a)
               (logged (set_sock_rx (set_sock_tx w (Sink (taken (w_sock_tx w) ++ a) k))
                                    (echo_peer a (w_sock_rx w)))
                       (SysWrite 3 written (len d - written) (len a))))
    as (k' & rx' & L & HE & Hk' & Hrx & HL); try lia; [exact Hk | exact Hp |].
  exists k', rx', (SysWrite 3 written (len d - written) (len a) :: L).
  split; [etransitivity; [exact HE|] | split; [exact Hk'|split]].
  - wsimpl. rewrite <- !app_assoc. cbn [app].
    rewrite skipn_step by (tauto || lia). reflexivity.
  - rewrite Hrx. wsimpl. rewrite echo_peer_bytes, <- app_assoc.
    rewrite skipn_step by (tauto || lia). reflexivity.
  - constructor; [cbn; unfold NEW_FD; lia | exact HL].
Qed.

Lemma write_to_stdout_half_closed (L : list syscall) :
  Forall (write_to STDOUT_FILENO) L ->
  Forall half_closed_call L /\ Forall data_read L.
Proof.
  induction 1 as [|c L Hc _ [IH1 IH2]]; [split; constructor|].
  destruct c; cbn in Hc; try contradiction.
  split; constructor; cbn; tauto.
Qed.

(** Lines 77-86 when writes to standard output do not fail. *)
Lemma socket_phase (fuel : nat) (buf : list byte) (fds : pollfd * pollfd) (w : world) :
  BUF_SIZE < Z.of_nat fuel ->
  never_fails (w_stdout w) ->
  exists brk buf' out k' rx' L,
    socket_to_stdout fuel NEW_FD buf fds w
    = (Val (brk, buf'),
       World (w_env w) (w_stdin w) (Sink (taken (w_stdout w) ++ out) k') (w_stderr w)
             rx' (w_sock_tx w) (w_log w ++ L))
    /\ src_bytes (w_sock_rx w) = out ++ src_bytes rx'
    /\ forallb accepts k' = true
    /\ Forall half_closed_call L
    /\ (if brk then exists L0 n, L = L0 ++ [SysRead NEW_FD 0 BUF_SIZE n] /\ n <= 0
        else Forall data_read L).
Proof.
  intros Hf Hnf. unfold socket_to_stdout.
  destruct (negb _).
  2:{ exists false, buf, [], (sched (w_stdout w)), (w_sock_rx w), [].
      unfold ret. rewrite !app_nil_r. destruct w as [e i [t k] er rx tx l].
      repeat split; try constructor. exact Hnf. }
  unfold bind. rewrite sys_read_socket.
  destruct (source_read (w_sock_rx w) BUF_SIZE) as [[n d] s] eqn:HR.
  destruct (source_read_bytes _ BUF_SIZE ltac:(unfold BUF_SIZE; lia) _ _ _ HR)
    as (Hb & Hpos & Hneg).
  destruct (Z.leb_spec n 0) as [Hn|Hn].
  - (* the remote is closed *)
    rewrite (Hneg Hn) in *. unfold ret.
    exists true, (buf_store buf 0 []), [], (sched (w_stdout w)), s,
      [SysRead 3 0 BUF_SIZE n].
    rewrite !app_nil_r. destruct w as [e i [t k] er rx tx l]. wsimpl.
    repeat split; try exact Hnf; try exact Hb.
    + repeat constructor.
    + exists [], n. auto.
  - (* data: all of it goes to standard output *)
    specialize (Hpos Hn). subst n.
    assert (Hlen : len d <= BUF_SIZE).
    { destruct (w_sock_rx w) as [|[bs|] s0]; cbn [source_read] in HR;
        inversion HR; subst; unfold len in *; cbn in *; unfold BUF_SIZE in *; lia. }
    edestruct (write_all_stdout fuel "write(stdout)" buf d 0
                 (logged (set_sock_rx w s) (SysRead 3 0 BUF_SIZE (len d))))
      as (k' & L & HE & Hk' & HL);
      try (unfold BUF_SIZE in *; lia); [exact Hnf|].
    rewrite HE. wsimpl. cbn [Z.to_nat skipn]. unfold ret.
    exists false, (buf_store buf 0 d), d, k', s, (SysRead 3 0 BUF_SIZE (len d) :: L).
    rewrite <- app_assoc. cbn [app].
    destruct (write_to_stdout_half_closed L HL) as [H1 H2].
    repeat split; auto; constructor; auto; reflexivity.
Qed.

(** One iteration of the loop after a wake-up that is not a failure. *)
Lemma bridge_ready (fuel : nat) (rev0 rev1 : Z) (evs : list poll_event) (sock : Z)
  (buf : list byte) (fds : pollfd * pollfd) (w : world) :
  exists r,
    0 <= r
    /\ bridge fuel (Ready rev0 rev1 :: evs) sock buf fds w
       = (' (buf, fds) <- stdin_to_socket fuel sock buf
                            (poll_revents (fst fds) rev0, poll_revents (snd fds) rev1) ;;
          ' (brk, buf) <- socket_to_stdout fuel sock buf fds ;;
          if brk : bool then ret tt else bridge fuel evs sock buf fds)
           (logged w (SysPoll (fd (fst fds)) (fd (snd fds)) r)).
Proof.
  cbn [bridge]. unfold bind at 1. unfold sys_poll at 1.
  set (p0 := poll_revents (fst fds) rev0).
  set (p1 := poll_revents (snd fds) rev1).
  exists ((if revents p0 =? 0 then 0 else 1) + (if revents p1 =? 0 then 0 else 1)).
  destruct (revents p0 =? 0), (revents p1 =? 0); (split; [lia | reflexivity]).
Qed.

Lemma poll_revents_closed (p : pollfd) (rev : Z) :
  fd p = -1 -> poll_revents p rev = Pollfd (-1) (events p) 0.
Proof. intros H. unfold poll_revents. rewrite H. reflexivity. Qed.

(** The loop once standard input is closed, as long as [poll] and the
    writes to standard output do not fail. *)
Lemma half_closed_run (fuel : nat) (evs : list poll_event) :
  BUF_SIZE < Z.of_nat fuel ->
  ~ In PollErr evs ->
  forall (buf : list byte) (p0 p1 : pollfd) (w : world),
    fd p0 = -1 ->
    never_fails (w_stdout w) ->
    exists r out k' rx' L,
      bridge fuel evs NEW_FD buf (p0, p1) w
      = (r, World (w_env w) (w_stdin w) (Sink (taken (w_stdout w) ++ out) k')
                  (w_stderr w) rx' (w_sock_tx w) (w_log w ++ L))
      /\ src_bytes (w_sock_rx w) = out ++ src_bytes rx'
      /\ Forall half_closed_call L
      /\ ((r = Blocked /\ Forall data_read L)
          \/ (r = Val tt
              /\ exists L0 n, L = L0 ++ [SysRead NEW_FD 0 BUF_SIZE n] /\ n <= 0)).
Proof.
  intros Hf. induction evs as [|ev evs IH]; intros Hev buf p0 p1 w Hp0 Hnf.
  - exists Blocked, [], (sched (w_stdout w)), (w_sock_rx w), [].
    cbn [bridge]. unfold blocked. rewrite !app_nil_r.
    destruct w as [e i [t k] er rx tx l].
    repeat split; try constructor. split; [reflexivity | constructor].
  - destruct ev as [|rev0 rev1]; [exfalso; apply Hev; left; reflexivity|].
    assert (Hev' : ~ In PollErr evs) by (intros H; apply Hev; right; exact H).
    destruct (bridge_ready fuel rev0 rev1 evs NEW_FD buf (p0, p1) w) as (r & Hr & ->).
    cbn [fst snd]. rewrite (poll_revents_closed p0 rev0 Hp0), Hp0.
    set (p1' := poll_revents p1 rev1).
    unfold bind at 1. unfold stdin_to_socket at 1. cbn [fst revents Z.land negb Z.eqb].
    unfold ret at 1.
    set (w1 := logged w (SysPoll (-1) (fd p1) r)).
    destruct (socket_phase fuel buf (Pollfd (-1) (events p0) 0, p1') w1 Hf Hnf)
      as (brk & buf' & out & k' & rx' & L & HE & Hb & Hk' & HL & Hbrk).
    unfold bind at 1. rewrite HE. subst w1. wsimpl.
    destruct brk.
    + unfold ret. exists (Val tt), out, k', rx', (SysPoll (-1) (fd p1) r :: L).
      rewrite <- app_assoc. cbn [app].
      repeat split; auto; [constructor; [reflexivity|exact HL]|].
      right. split; [reflexivity|].
      destruct Hbrk as (L0 & n & -> & Hn). exists (SysPoll (-1) (fd p1) r :: L0), n. auto.
    + rewrite <- app_assoc. cbn [app].
      edestruct (IH Hev' buf' (Pollfd (-1) (events p0) 0) p1'
                   (World (w_env w) (w_stdin w) (Sink (taken (w_stdout w) ++ out) k')
                          (w_stderr w) rx' (w_sock_tx w)
                          (w_log w ++ SysPoll (-1) (fd p1) r :: L)))
        as (r2 & out2 & k2 & rx2 & L2 & HE2 & Hb2 & HL2 & Hcase);
        [reflexivity | exact Hk' |].
      wsimpl. rewrite HE2.
      exists r2, (out ++ out2), k2, rx2, (SysPoll (-1) (fd p1) r :: L ++ L2).
      rewrite <- !app_assoc. cbn [app].
      split; [reflexivity|]. split; [rewrite Hb, Hb2; reflexivity|].
      split; [constructor; [reflexivity | apply Forall_app; auto]|].
      destruct Hcase as [[-> Hd]|[-> (L0 & n & -> & Hn)]].
      * left. split; [reflexivity|]. constructor; [exact I | apply Forall_app; auto].
      * right. split; [reflexivity|].
        exists (SysPoll (-1) (fd p1) r :: L ++ L0), n.
        cbn [app]. rewrite <- app_assoc. auto.
Qed.

(** The rest of an iteration, and of the loop, once standard input is
    closed. *)
Lemma half_closed_tail (fuel : nat) (evs : list poll_event) :
  BUF_SIZE < Z.of_nat fuel ->
  ~ In PollErr evs ->
  forall (buf : list byte) (p0 p1 : pollfd) (w : world),
    fd p0 = -1 ->
    never_fails (w_stdout w) ->
    exists r out k' rx' L,
      (' (brk, buf) <- socket_to_stdout fuel NEW_FD buf (p0, p1) ;;
       if brk : bool then ret tt else bridge fuel evs NEW_FD buf (p0, p1)) w
      = (r, World (w_env w) (w_stdin w) (Sink (taken (w_stdout w) ++ out) k')
                  (w_stderr w) rx' (w_sock_tx w) (w_log w ++ L))
      /\ src_bytes (w_sock_rx w) = out ++ src_bytes rx'
      /\ Forall half_closed_call L
      /\ ((r = Blocked /\ Forall data_read L)
          \/ (r = Val tt
              /\ exists L0 n, L = L0 ++ [SysRead NEW_FD 0 BUF_SIZE n] /\ n <= 0)).
Proof.
  intros Hf Hev buf p0 p1 w Hp0 Hnf.
  destruct (socket_phase fuel buf (p0, p1) w Hf Hnf)
    as (brk & buf' & out & k' & rx' & L & HE & Hb & Hk' & HL & Hbrk).
  unfold bind at 1. rewrite HE. destruct brk.
  - unfold ret. exists (Val tt), out, k', rx', L.
    repeat (split; [assumption || reflexivity|]). right. auto.
  - edestruct (half_closed_run fuel evs Hf Hev buf' p0 p1
                 (World (w_env w) (w_stdin w) (Sink (taken (w_stdout w) ++ out) k')
                        (w_stderr w) rx' (w_sock_tx w) (w_log w ++ L)))
      as (r2 & out2 & k2 & rx2 & L2 & HE2 & Hb2 & HL2 & Hcase);
      [exact Hp0 | exact Hk' |].
    wsimpl. rewrite HE2.
    exists r2, (out ++ out2), k2, rx2, (L ++ L2).
    rewrite <- !app_assoc.
    split; [reflexivity|]. split; [rewrite Hb, Hb2; reflexivity|].
    split; [apply Forall_app; auto|].
    destruct Hcase as [[-> Hd]|[-> (L0 & n & -> & Hn)]].
    + left. split; [reflexivity | apply Forall_app; auto].
    + right. split; [reflexivity|]. exists (L ++ L0), n.
      rewrite <- app_assoc. auto.
Qed.

Lemma pollin_reported (rev : Z) :
  Z.land (Z.land rev (Z.lor POLLIN (Z.lor POLLERR (Z.lor POLLHUP POLLNVAL)))) POLLIN
  = Z.land rev POLLIN.
Proof. rewrite <- Z.land_assoc. reflexivity. Qed.

Lemma pollin_pollhup_reported (rev : Z) :
  Z.land (Z.land rev (Z.lor POLLIN (Z.lor POLLERR (Z.lor POLLHUP POLLNVAL))))
         (Z.lor POLLIN POLLHUP)
  = Z.land rev (Z.lor POLLIN POLLHUP).
Proof. rewrite <- Z.land_assoc. reflexivity. Qed.

Lemma revents_pollin (p : pollfd) (rev : Z) :
  events p = POLLIN -> Z.land rev POLLIN = 0 ->
  Z.land (revents (poll_revents p rev)) POLLIN = 0.
Proof.
  intros He Hr. unfold poll_revents. cbn [revents].
  destruct (fd p <? 0); [reflexivity|]. rewrite He, pollin_reported. exact Hr.
Qed.

Lemma revents_pollin_pollhup (p : pollfd) (rev : Z) :
  events p = POLLIN -> Z.land rev (Z.lor POLLIN POLLHUP) = 0 ->
  Z.land (revents (poll_revents p rev)) (Z.lor POLLIN POLLHUP) = 0.
Proof.
  intros He Hr. unfold poll_revents. cbn [revents].
  destruct (fd p <? 0); [reflexivity|]. rewrite He, pollin_pollhup_reported. exact Hr.
Qed.

Lemma source_read_len (s : source) (n : Z) (d : list byte) (s' : source) :
  source_read s BUF_SIZE = (n, d, s') -> len d <= BUF_SIZE.
Proof.
  intros HR.
  destruct s as [|[bs|] s0]; cbn [source_read] in HR; inversion HR; subst;
    try (unfold len, BUF_SIZE; cbn; lia).
  rewrite len_firstn by (pose proof (len_nonneg bs); unfold BUF_SIZE; lia).
  lia.
Qed.

(** *** The loop and the bridge of the specification *)

Lemma pieces_accepts (k : list wr_event) :
  forall d ps k', forallb accepts k = true -> pieces k d = (ps, k') ->
    forallb accepts k' = true.
Proof.
  induction k as [|[m| |] k IH]; intros d ps k' Hk HP; cbn [pieces] in HP;
    cbn [forallb accepts andb] in Hk; try discriminate.
  - inversion HP; subst. reflexivity.
  - destruct (Z.pos m <? len d).
    + destruct (pieces k (skipn (Pos.to_nat m) d)) as [ps0 k0] eqn:HP0.
      inversion HP; subst. eapply IH; eauto.
    + inversion HP; subst. exact Hk.
Qed.

(** The inner loop on the socket takes a chunk in the pieces of
    [pieces]; the peer reacts to each of them. *)
Lemma write_all_socket_pieces (fuel : nat) (msg : string) :
  forall (buf d : list byte) (written : Z) (w : world) ps k,
    0 <= written < len d ->
    len d < 2 ^ 64 ->
    len d - written < Z.of_nat fuel ->
    never_fails (w_sock_tx w) ->
    pieces (sched (w_sock_tx w)) (skipn (Z.to_nat written) d) = (ps, k) ->
    exists L,
      write_all fuel NEW_FD msg (buf_store buf 0 d) (len d) written w
      = (Val tt, World (w_env w) (w_stdin w) (w_stdout w) (w_stderr w)
                   (fold_left (fun rx a => peer (w_env w) a rx) ps (w_sock_rx w))
                   (Sink (taken (w_sock_tx w) ++ skipn (Z.to_nat written) d) k)
                   (w_log w ++ L)).
Proof.
  induction fuel as [|fuel IH]; intros buf d written w ps k Hw Hd Hf Hnf HP; [lia|].
  cbn [write_all].
  destruct (Z.ltb_spec written (len d)) as [_|Hge]; [|lia].
  unfold bind. rewrite sys_write_socket, to_size_t_small by lia.
  rewrite buf_load_store_0 by lia.
  set (rest := skipn (Z.to_nat written) d) in *.
  assert (Hrest : len rest = len d - written)
    by (unfold rest, len; rewrite length_skipn; unfold len in Hw; lia).
  assert (Hdone : forall w1,
             write_all fuel NEW_FD msg (buf_store buf 0 d) (len d) (written + len rest) w1
             = (Val tt, w1)).
  { intros w1. destruct fuel as [|fuel']; [lia|]. cbn [write_all].
    destruct (Z.ltb_spec (written + len rest) (len d)) as [Hlt|_]; [lia|]. reflexivity. }
  unfold never_fails in Hnf. unfold sink_write.
  destruct (sched (w_sock_tx w)) as [|[m| |] k0] eqn:Hk;
    cbn [forallb accepts andb] in Hnf; try discriminate.
  - (* the whole rest is taken *)
    cbn [pieces] in HP. inversion HP; subst ps k. clear HP.
    destruct (Z.leb_spec (len rest) 0) as [H0|_]; [lia|].
    rewrite Hdone. wsimpl. cbn [fold_left]. eexists [_]. reflexivity.
  - cbn [pieces] in HP. fold rest in HP.
    destruct (Z.ltb_spec (Z.pos m) (len rest)) as [Hm|Hm].
    + (* a short write *)
      destruct (pieces k0 (skipn (Pos.to_nat m) rest)) as [ps0 k1] eqn:HP0.
      inversion HP; subst ps k. clear HP.
      set (a := firstn (Pos.to_nat m) rest).
      assert (Ha : len a = Z.pos m).
      { unfold a, len. rewrite length_firstn. unfold len in Hm. lia. }
      destruct (Z.leb_spec (len a) 0) as [H0|_]; [lia|].
      assert (Hsk : skipn (Pos.to_nat m) rest = skipn (Z.to_nat (written + len a)) d).
      { unfold rest. rewrite skipn_skipn. f_equal. lia. }
      edestruct (IH buf d (written + len a)
                   (logged (set_sock_rx (set_sock_tx w (Sink (taken (w_sock_tx w) ++ a) k0))
                                        (peer (w_env w) a (w_sock_rx w)))
                           (SysWrite 3 written (len d - written) (len a))) ps0 k1)
        as [L HE]; try lia.
      * unfold never_fails. wsimpl. exact Hnf.
      * wsimpl. rewrite <- Hsk. exact HP0.
      * rewrite HE. wsimpl. cbn [fold_left].
        rewrite <- Hsk, <- !app_assoc. cbn [app].
        unfold a. rewrite firstn_skipn.
        eexists (_ :: L). reflexivity.
    + (* the rest fits *)
      inversion HP; subst ps k. clear HP.
      assert (Ha : firstn (Pos.to_nat m) rest = rest).
      { apply firstn_all2. unfold len in Hm. lia. }
      rewrite Ha.
      destruct (Z.leb_spec (len rest) 0) as [H0|_]; [lia|].
      rewrite Hdone. wsimpl. cbn [fold_left]. eexists [_]. reflexivity.
Qed.

(** Lines 63-74 and the machine's local-input step. *)
Lemma stdin_phase_refines (fuel : nat) (buf : list byte) (p0 p1 : pollfd) (rev0 : Z)
  (w : world) :
  BUF_SIZE < Z.of_nat fuel ->
  never_fails (w_sock_tx w) ->
  fd p0 = STDIN_FILENO -> events p0 = POLLIN ->
  Z.land rev0 POLLIN <> 0 ->
  forall q st,
    local_input_ready (peer (w_env w)) (streams_of w) = (q, st) ->
    exists buf' p0' L,
      stdin_to_socket fuel NEW_FD buf (poll_revents p0 rev0, p1) w
      = (Val (buf', (p0', p1)),
         World (w_env w) (local_input st) (w_stdout w) (w_stderr w) (remote_input st)
               (Sink (to_remote st) (remote_takes st)) (w_log w ++ L))
      /\ to_output st = taken (w_stdout w)
      /\ forallb accepts (remote_takes st) = true
      /\ events p0' = POLLIN
      /\ ((q = BRIDGING /\ fd p0' = STDIN_FILENO)
          \/ (q = STDIN_HALF_CLOSED /\ fd p0' = -1)).
Proof.
  intros Hf Hnf Hfd Hev Hin q st HS.
  unfold stdin_to_socket. cbn [fst snd].
  unfold poll_revents at 1. cbn [revents]. rewrite Hfd, Hev.
  change (STDIN_FILENO <? 0) with false. cbn iota. rewrite pollin_reported.
  destruct (Z.eqb_spec (Z.land rev0 POLLIN) 0) as [H0|_]; [contradiction|].
  cbn [negb]. unfold bind at 1. rewrite sys_read_stdin.
  unfold local_input_ready, streams_of in HS. cbn [local_input] in HS.
  destruct (source_read (w_stdin w) BUF_SIZE) as [[n d] s] eqn:HR.
  destruct (source_read_bytes _ BUF_SIZE ltac:(unfold BUF_SIZE; lia) _ _ _ HR)
    as (_ & Hpos & Hneg).
  pose proof (source_read_len _ _ _ _ HR) as Hlen.
  destruct (Z.leb_spec n 0) as [Hn|Hn].
  - (* end of input *)
    inversion HS; subst q st. clear HS.
    cbn [local_input remote_input remote_takes to_remote to_output].
    unfold bind, sys_shutdown, ret. wsimpl.
    eexists _, (Pollfd (-1) _ _), [_; _]. rewrite <- app_assoc. cbn [app].
    split; [destruct w as [e i o er rx [t k] l]; reflexivity|].
    cbn [events fd poll_revents]. repeat split; auto.
  - (* data *)
    specialize (Hpos Hn). subst n.
    cbn [remote_takes remote_input to_remote to_output] in HS.
    destruct (pieces (sched (w_sock_tx w)) d) as [ps k] eqn:HP.
    inversion HS; subst q st. clear HS.
    cbn [local_input remote_input remote_takes to_remote to_output].
    edestruct (write_all_socket_pieces fuel "write(sock)" buf d 0
                 (logged (set_stdin w s) (SysRead 0 0 BUF_SIZE (len d))) ps k)
      as [L HE]; try (unfold BUF_SIZE in *; lia); [exact Hnf | exact HP |].
    unfold bind at 1. rewrite HE. wsimpl. cbn [Z.to_nat skipn]. unfold ret.
    eexists _, (poll_revents p0 rev0), (_ :: L). rewrite <- app_assoc. cbn [app].
    split; [reflexivity|].
    split; [reflexivity|].
    split; [eapply pieces_accepts; [exact Hnf | exact HP]|].
    cbn [events fd poll_revents]. auto.
Qed.

(** Lines 77-86 and the machine's remote step. *)
Lemma socket_phase_refines (fuel : nat) (buf : list byte) (p0 p1 : pollfd) (rev1 : Z)
  (w : world) (q0 : state) :
  BUF_SIZE < Z.of_nat fuel ->
  never_fails (w_stdout w) ->
  fd p1 = NEW_FD -> events p1 = POLLIN ->
  Z.land rev1 (Z.lor POLLIN POLLHUP) <> 0 ->
  q0 = BRIDGING \/ q0 = STDIN_HALF_CLOSED ->
  forall q st,
    remote_ready q0 (streams_of w) = (q, st) ->
    exists buf' k' L,
      socket_to_stdout fuel NEW_FD buf (p0, poll_revents p1 rev1) w
      = (Val (match q with TERMINATED => true | _ => false end, buf'),
         World (w_env w) (local_input st) (Sink (to_output st) k') (w_stderr w)
               (remote_input st) (Sink (to_remote st) (remote_takes st))
               (w_log w ++ L))
      /\ forallb accepts k' = true
      /\ remote_takes st = sched (w_sock_tx w)
      /\ (q = TERMINATED \/ q = q0).
Proof.
  intros Hf Hnf Hfd Hev Hin Hq0 q st HS.
  unfold socket_to_stdout. cbn [fst snd].
  unfold poll_revents at 1. cbn [revents]. rewrite Hfd, Hev.
  change (NEW_FD <? 0) with false. cbn iota. rewrite pollin_pollhup_reported.
  destruct (Z.eqb_spec (Z.land rev1 (Z.lor POLLIN POLLHUP)) 0) as [H0|_]; [contradiction|].
  cbn [negb]. unfold bind at 1. rewrite sys_read_socket.
  unfold remote_ready, streams_of in HS. cbn [remote_input] in HS.
  destruct (source_read (w_sock_rx w) BUF_SIZE) as [[n d] s] eqn:HR.
  destruct (source_read_bytes _ BUF_SIZE ltac:(unfold BUF_SIZE; lia) _ _ _ HR)
    as (_ & Hpos & Hneg).
  pose proof (source_read_len _ _ _ _ HR) as Hlen.
  destruct (Z.leb_spec n 0) as [Hn|Hn].
  - inversion HS; subst q st. clear HS.
    cbn [local_input remote_input remote_takes to_remote to_output].
    unfold ret. wsimpl.
    eexists _, (sched (w_stdout w)), [_].
    split; [destruct w as [e i [t k] er rx [t' k'] l]; reflexivity|].
    repeat split; auto.
  - specialize (Hpos Hn). subst n.
    inversion HS; subst q st. clear HS.
    cbn [local_input remote_input remote_takes to_remote to_output].
    edestruct (write_all_stdout fuel "write(stdout)" buf d 0
                 (logged (set_sock_rx w s) (SysRead 3 0 BUF_SIZE (len d))))
      as (k' & L & HE & Hk' & HL);
      try (unfold BUF_SIZE in *; lia); [exact Hnf|].
    unfold bind at 1. rewrite HE. wsimpl. cbn [Z.to_nat skipn]. unfold ret.
    eexists _, k', (_ :: L). rewrite <- app_assoc. cbn [app].
    split.
    + destruct Hq0; subst q0; destruct w as [e i [t k] er rx [t' k''] l];
        reflexivity.
    + repeat split; auto.
Qed.

Lemma open_state (q : state) (p0 : pollfd) :
  stdin_polled q p0 -> q = BRIDGING \/ q = STDIN_HALF_CLOSED.
Proof. intros [_ [[-> _]|[-> _]]]; auto. Qed.

Lemma refines_refl (q : state) (w : world) :
  q = BRIDGING \/ q = STDIN_HALF_CLOSED ->
  never_fails (w_stdout w) ->
  (q = BRIDGING -> never_fails (w_sock_tx w)) ->
  refines q (streams_of w) w w.
Proof.
  intros Hq Ho Ht. unfold refines. repeat split; auto.
  - destruct Hq; subst q; reflexivity.
  - exists []. symmetry. apply app_nil_r.
Qed.

Lemma refines_trans (q1 q2 : state) (st1 st2 : streams) (w w1 w2 : world) :
  q1 = BRIDGING \/ q1 = STDIN_HALF_CLOSED ->
  refines q1 st1 w w1 -> refines q2 st2 w1 w2 -> refines q2 st2 w w2.
Proof.
  intros Hq (_ & He1 & Her1 & _ & _ & [L1 HL1]) (Hs & He2 & Her2 & Ho & Ht & [L2 HL2]).
  unfold refines. repeat split; auto.
  - congruence.
  - rewrite Her2, Her1. destruct Hq; subst q1; reflexivity.
  - exists (L1 ++ L2). rewrite HL2, HL1, app_assoc. reflexivity.
Qed.

Lemma refines_logged (q : state) (w : world) (c : syscall) :
  q = BRIDGING \/ q = STDIN_HALF_CLOSED ->
  never_fails (w_stdout w) ->
  (q = BRIDGING -> never_fails (w_sock_tx w)) ->
  refines q (streams_of w) w (logged w c).
Proof.
  intros Hq Ho Ht. unfold refines. repeat split; auto.
  - destruct Hq; subst q; reflexivity.
  - eexists. reflexivity.
Qed.

(** The stdin part of an iteration and the first half of a step of the
    machine. *)
Lemma stdin_step_refines (fuel : nat) (buf : list byte) (p0 p1 : pollfd) (rev0 : Z)
  (w : world) (q : state) :
  BUF_SIZE < Z.of_nat fuel ->
  never_fails (w_stdout w) ->
  (q = BRIDGING -> never_fails (w_sock_tx w)) ->
  stdin_polled q p0 ->
  forall q1 st1,
    match q with
    | BRIDGING =>
        if Z.land rev0 POLLIN =? 0 then (q, streams_of w)
        else local_input_ready (peer (w_env w)) (streams_of w)
    | _ => (q, streams_of w)
    end = (q1, st1) ->
    exists buf' p0' w',
      stdin_to_socket fuel NEW_FD buf (poll_revents p0 rev0, p1) w
      = (Val (buf', (p0', p1)), w')
      /\ refines q1 st1 w w'
      /\ stdin_polled q1 p0'.
Proof.
  intros Hf Hno Hnf Hp q1 st1 HS.
  pose proof (open_state q p0 Hp) as Hq0. destruct Hp as [Hev Hq].
  assert (Hnop : Z.land (revents (poll_revents p0 rev0)) POLLIN = 0 ->
                 (q1, st1) = (q, streams_of w) ->
                 exists buf' p0' w',
                   stdin_to_socket fuel NEW_FD buf (poll_revents p0 rev0, p1) w
                   = (Val (buf', (p0', p1)), w')
                   /\ refines q1 st1 w w' /\ stdin_polled q1 p0').
  { intros H0 HE. inversion HE; subst q1 st1.
    exists buf, (poll_revents p0 rev0), w.
    unfold stdin_to_socket. cbn [fst snd]. rewrite H0. cbn [Z.eqb negb].
    split; [reflexivity|]. split; [apply refines_refl; assumption|].
    split; [exact Hev | exact Hq]. }
  destruct Hq as [[-> Hfd]|[-> Hfd]].
  - destruct (Z.eqb_spec (Z.land rev0 POLLIN) 0) as [H0|H0].
    + apply Hnop; [apply revents_pollin; assumption | symmetry; exact HS].
    + destruct (stdin_phase_refines fuel buf p0 p1 rev0 w Hf (Hnf eq_refl) Hfd Hev H0
                  q1 st1 HS)
        as (buf' & p0' & L & HE & Hout & Hk & Hev' & Hq').
      eexists buf', p0', _. split; [exact HE|]. split; [|split; assumption].
      unfold refines, streams_of. wsimpl.
      repeat split; auto.
      * rewrite <- Hout. destruct st1; reflexivity.
      * destruct Hq' as [[-> _]|[-> _]]; reflexivity.
      * eauto.
  - apply Hnop; [|symmetry; exact HS].
    rewrite (poll_revents_closed p0 rev0 Hfd). reflexivity.
Qed.

(** The socket part of an iteration and the second half of a step of the
    machine. *)
Lemma socket_step_refines (fuel : nat) (buf : list byte) (p0 p1 : pollfd) (rev1 : Z)
  (w : world) (q : state) :
  BUF_SIZE < Z.of_nat fuel ->
  never_fails (w_stdout w) ->
  (q = BRIDGING -> never_fails (w_sock_tx w)) ->
  fd p1 = NEW_FD -> events p1 = POLLIN ->
  q = BRIDGING \/ q = STDIN_HALF_CLOSED ->
  forall q2 st2,
    (if Z.land rev1 (Z.lor POLLIN POLLHUP) =? 0 then (q, streams_of w)
     else remote_ready q (streams_of w)) = (q2, st2) ->
    exists buf' w',
      socket_to_stdout fuel NEW_FD buf (p0, poll_revents p1 rev1) w
      = (Val (match q2 with TERMINATED => true | _ => false end, buf'), w')
      /\ refines q2 st2 w w'
      /\ (q2 = TERMINATED \/ q2 = q).
Proof.
  intros Hf Hno Hnf Hfd Hev Hq q2 st2 HS.
  destruct (Z.eqb_spec (Z.land rev1 (Z.lor POLLIN POLLHUP)) 0) as [H0|H0].
  - inversion HS; subst q2 st2. exists buf, w.
    unfold socket_to_stdout. cbn [fst snd].
    rewrite (revents_pollin_pollhup p1 rev1 Hev H0). cbn [Z.eqb negb].
    split; [destruct Hq; subst q; reflexivity|].
    split; [apply refines_refl; assumption | auto].
  - destruct (socket_phase_refines fuel buf p0 p1 rev1 w q Hf Hno Hfd Hev H0 Hq q2 st2 HS)
      as (buf' & k' & L & HE & Hk' & Htx & Hq2).
    eexists buf', _. split; [exact HE|]. split; [|exact Hq2].
    unfold refines, streams_of. wsimpl.
    split; [destruct st2; reflexivity|].
    split; [reflexivity|].
    split; [destruct Hq2 as [-> | ->]; [reflexivity|]; destruct Hq; subst q; reflexivity|].
    split; [exact Hk'|].
    split; [|eauto].
    intros Hb. unfold never_fails. wsimpl. rewrite Htx. apply Hnf.
    destruct Hq2 as [-> | ->]; [discriminate | exact Hb].
Qed.

(** The rest of an iteration and of the loop, given that the loop
    refines the machine on the wake-ups still to come. *)
Lemma tail_refines (fuel : nat) (evs : list poll_event) :
  BUF_SIZE < Z.of_nat fuel ->
  (forall (q : state) (buf : list byte) (p0 p1 : pollfd) (w : world) q' st',
     never_fails (w_stdout w) ->
     (q = BRIDGING -> never_fails (w_sock_tx w)) ->
     stdin_polled q p0 ->
     fd p1 = NEW_FD -> events p1 = POLLIN ->
     run (peer (w_env w)) evs q (streams_of w) = (q', st') ->
     exists w',
       bridge fuel evs NEW_FD buf (p0, p1) w = (loop_result q', w')
       /\ refines q' st' w w') ->
  forall (q : state) (buf : list byte) (p0 p1 : pollfd) (rev1 : Z) (w : world) q' st',
    never_fails (w_stdout w) ->
    (q = BRIDGING -> never_fails (w_sock_tx w)) ->
    stdin_polled q p0 ->
    fd p1 = NEW_FD -> events p1 = POLLIN ->
    (let '(q2, st2) :=
       if Z.land rev1 (Z.lor POLLIN POLLHUP) =? 0 then (q, streams_of w)
       else remote_ready q (streams_of w) in
     match q2 with
     | TERMINATED => (q2, st2)
     | _ => run (peer (w_env w)) evs q2 st2
     end) = (q', st') ->
    exists w',
      (' (brk, buf) <- socket_to_stdout fuel NEW_FD buf (p0, poll_revents p1 rev1) ;;
       if brk : bool then ret tt
       else bridge fuel evs NEW_FD buf (p0, poll_revents p1 rev1)) w
      = (loop_result q', w')
      /\ refines q' st' w w'.
Proof.
  intros Hf IH q buf p0 p1 rev1 w q' st' Ho Ht Hp Hfd Hev HR.
  pose proof (open_state q p0 Hp) as Hq.
  destruct (if Z.land rev1 (Z.lor POLLIN POLLHUP) =? 0 then (q, streams_of w)
            else remote_ready q (streams_of w)) as [q2 st2] eqn:H2.
  destruct (socket_step_refines fuel buf p0 p1 rev1 w q Hf Ho Ht Hfd Hev Hq
              q2 st2 H2) as (buf2 & w2 & HE2 & Hr2 & Hq2).
  unfold bind at 1. rewrite HE2.
  destruct Hq2 as [-> | ->].
  - inversion HR; subst q' st'. unfold ret. exists w2. split; [reflexivity|exact Hr2].
  - pose proof Hr2 as (Hs2 & He2 & _ & Ho2 & Ht2 & _).
    assert (HR' : run (peer (w_env w2)) evs q (streams_of w2) = (q', st')).
    { rewrite Hs2, He2. destruct Hq; subst q; exact HR. }
    destruct (IH q buf2 p0 (poll_revents p1 rev1) w2 q' st' Ho2 Ht2 Hp Hfd Hev HR')
      as (w' & HE & Hr').
    exists w'. split; [destruct Hq; subst q; exact HE|].
    eapply (refines_trans q); [exact Hq | exact Hr2 | exact Hr'].
Qed.

(** The loop of the program does what the machine of the specification
    does, wake-up by wake-up, as long as no write fails. *)
Lemma bridge_refines (fuel : nat) (evs : list poll_event) :
  BUF_SIZE < Z.of_nat fuel ->
  forall (q : state) (buf : list byte) (p0 p1 : pollfd) (w : world) q' st',
    never_fails (w_stdout w) ->
    (q = BRIDGING -> never_fails (w_sock_tx w)) ->
    stdin_polled q p0 ->
    fd p1 = NEW_FD -> events p1 = POLLIN ->
    run (peer (w_env w)) evs q (streams_of w) = (q', st') ->
    exists w',
      bridge fuel evs NEW_FD buf (p0, p1) w = (loop_result q', w')
      /\ refines q' st' w w'.
Proof.
  intros Hf. induction evs as [|ev evs IH];
    intros q buf p0 p1 w q' st' Ho Ht Hp Hfd Hev HR;
    pose proof (open_state q p0 Hp) as Hq.
  - cbn [run] in HR. inversion HR; subst q' st'. exists w.
    split; [destruct Hq; subst q; reflexivity | apply refines_refl; assumption].
  - destruct ev as [|rev0 rev1].
    { (* poll fails *)
      cbn [run] in HR. inversion HR; subst q' st'.
      cbn [bridge]. unfold bind, sys_poll, die. cbn [Z.ltb Z.compare fst snd].
      eexists. split; [reflexivity|].
      unfold refines. wsimpl. repeat split; auto; [discriminate|].
      eexists. reflexivity. }
    destruct (bridge_ready fuel rev0 rev1 evs NEW_FD buf (p0, p1) w) as (r & _ & ->).
    cbn [fst snd]. set (w0 := logged w (SysPoll (fd p0) (fd p1) r)).
    cbn [run] in HR.
    change (streams_of w) with (streams_of w0) in HR.
    change (peer (w_env w)) with (peer (w_env w0)) in HR.
    destruct (match q with
              | BRIDGING =>
                  if Z.land rev0 POLLIN =? 0 then (q, streams_of w0)
                  else local_input_ready (peer (w_env w0)) (streams_of w0)
              | _ => (q, streams_of w0)
              end) as [q1 st1] eqn:H1.
    destruct (stdin_step_refines fuel buf p0 (poll_revents p1 rev1) rev0 w0 q Hf Ho Ht Hp
                q1 st1 H1) as (buf1 & p0' & w1 & HE1 & Hr1 & Hp1).
    unfold bind at 1. rewrite HE1.
    pose proof (open_state q1 p0' Hp1) as Hq1.
    pose proof Hr1 as (Hs1 & He1 & _ & Ho1 & Ht1 & _).
    rewrite <- Hs1, <- He1 in HR.
    destruct (tail_refines fuel evs Hf IH q1 buf1 p0' p1 rev1 w1 q' st' Ho1 Ht1 Hp1
                Hfd Hev HR) as (w' & HE & Hr').
    exists w'. split; [exact HE|].
    eapply (refines_trans q); [exact Hq | apply refines_logged; assumption|].
    eapply (refines_trans q1); [exact Hq1 | exact Hr1 | exact Hr'].
Qed.

(** Once standard input is closed the machine is in [STDIN_HALF_CLOSED]
    until it ends; nothing more goes to the remote end. *)
Lemma run_half_closed (react : list byte -> source -> source) (evs : list poll_event) :
  forall st,
    fst (run react evs STDIN_HALF_CLOSED st) <> BRIDGING
    /\ to_remote (snd (run react evs STDIN_HALF_CLOSED st)) = to_remote st
    /\ local_input (snd (run react evs STDIN_HALF_CLOSED st)) = local_input st.
Proof.
  induction evs as [|[|rev0 rev1] evs IH]; intros st; cbn [run].
  - repeat split. discriminate.
  - repeat split. discriminate.
  - destruct (Z.land rev1 (Z.lor POLLIN POLLHUP) =? 0); [apply IH|].
    unfold remote_ready.
    destruct (source_read (remote_input st) BUF_SIZE) as [[n d] s].
    destruct (n <=? 0).
    + repeat split. discriminate.
    + destruct (IH (Streams (local_input st) s (remote_takes st) (to_remote st)
                            (to_output st ++ d))) as (H1 & H2 & H3).
      repeat split; assumption.
Qed.

(** Claim C5.  The bridge polls standard input, [poll] reports it
    readable and its read returns zero or less.  Then, in that
    iteration, the write half of the socket is shut down; from there on,
    as long as [poll] and the writes to standard output do not fail,
    every [poll] leaves standard input out and standard input is never
    read again, nothing more is sent to the socket, every byte read from
    the socket is written to standard output, and the loop is left only
    by a read of the socket that returns zero or less: until then the
    process is still in [poll].  The traffic from the remote end goes on
    being relayed: the run is the run of the specification's machine on
    the same wake-ups, which is then in [STDIN_HALF_CLOSED] or
    [TERMINATED]; each wake-up that reports the socket makes one read of
    it, and the bytes of a positive read are appended in full to
    standard output. *)
Theorem stdin_eof_half_closes (fuel : nat) (rev0 rev1 : Z) (evs : list poll_event)
  (buf : list byte) (rv0 rv1 : Z) (w : world) :
  BUF_SIZE < Z.of_nat fuel ->
  Z.land rev0 POLLIN <> 0 ->
  fst (fst (source_read (w_stdin w) BUF_SIZE)) <= 0 ->
  ~ In PollErr evs ->
  never_fails (w_stdout w) ->
  exists r polled n out k' rx' L,
    bridge fuel (Ready rev0 rev1 :: evs) NEW_FD buf
           (Pollfd STDIN_FILENO POLLIN rv0, Pollfd NEW_FD POLLIN rv1) w
    = (r, World (w_env w) (snd (source_read (w_stdin w) BUF_SIZE))
                (Sink (taken (w_stdout w) ++ out) k') (w_stderr w) rx'
                (w_sock_tx w)
                (w_log w ++ [SysPoll STDIN_FILENO NEW_FD polled;
                             SysRead STDIN_FILENO 0 BUF_SIZE n;
                             SysShutdown NEW_FD SHUT_WR] ++ L))
    /\ n <= 0
    /\ src_bytes (w_sock_rx w) = out ++ src_bytes rx'
    /\ Forall half_closed_call L
    /\ ((r = Blocked /\ Forall data_read L)
        \/ (r = Val tt
            /\ exists L0 m, L = L0 ++ [SysRead NEW_FD 0 BUF_SIZE m] /\ m <= 0))
    /\ (let '(q, st) := run (peer (w_env w)) (Ready rev0 rev1 :: evs) BRIDGING
                            (streams_of w) in
        (q = STDIN_HALF_CLOSED \/ q = TERMINATED)
        /\ r = loop_result q
        /\ taken (w_stdout w) ++ out = to_output st
        /\ rx' = remote_input st).
Proof.
  intros Hf Hin Heof Hev Hnf.
  destruct (run (peer (w_env w)) (Ready rev0 rev1 :: evs) BRIDGING (streams_of w))
    as [q st] eqn:HRun.
  cbn [run] in HRun.
  destruct (bridge_ready fuel rev0 rev1 evs NEW_FD buf
              (Pollfd STDIN_FILENO POLLIN rv0, Pollfd NEW_FD POLLIN rv1) w)
    as (polled & _ & ->).
  cbn [fst snd fd]. unfold bind at 1. unfold stdin_to_socket at 1.
  cbn [fst snd]. unfold poll_revents at 1 2 3.
  cbn [fd events revents]. change (STDIN_FILENO <? 0) with false. cbn iota.
  rewrite pollin_reported.
  destruct (Z.eqb_spec (Z.land rev0 POLLIN) 0) as [H0|_]; [contradiction|].
  cbn [negb]. unfold bind at 1. rewrite sys_read_stdin. wsimpl.
  unfold local_input_ready, streams_of in HRun. cbn [local_input] in HRun.
  destruct (source_read (w_stdin w) BUF_SIZE) as [[n d] s] eqn:HR.
  cbn [fst snd] in Heof |- *.
  destruct (source_read_bytes _ BUF_SIZE ltac:(unfold BUF_SIZE; lia) _ _ _ HR)
    as (_ & _ & Hneg).
  rewrite (Hneg Heof), buf_store_nil.
  destruct (Z.leb_spec n 0) as [_|Hn]; [|lia].
  cbn [remote_input remote_takes to_remote to_output] in HRun.
  unfold bind at 1. unfold sys_shutdown at 1. unfold ret at 1.
  match goal with |- context [bind _ _ ?w2] =>
    destruct (half_closed_tail fuel evs Hf Hev buf
                (Pollfd (-1) POLLIN
                   (Z.land rev0 (Z.lor POLLIN (Z.lor POLLERR (Z.lor POLLHUP POLLNVAL)))))
                (poll_revents (Pollfd NEW_FD POLLIN rv1) rev1) w2 eq_refl Hnf)
      as (r & out & k' & rx' & L & HE & Hb & HL & Hcase);
    destruct (tail_refines fuel evs Hf (bridge_refines fuel evs Hf) STDIN_HALF_CLOSED buf
                (Pollfd (-1) POLLIN
                   (Z.land rev0 (Z.lor POLLIN (Z.lor POLLERR (Z.lor POLLHUP POLLNVAL)))))
                (Pollfd NEW_FD POLLIN rv1) rev1 w2 q st Hnf
                ltac:(discriminate)
                ltac:(split; [reflexivity | right; split; reflexivity])
                eq_refl eq_refl HRun)
      as (w' & HE' & Hr')
  end.
  pose proof (eq_trans (eq_sym HE) HE') as Heq.
  rewrite HE. wsimpl.
  exists r, polled, n, out, k', rx', L.
  rewrite <- !app_assoc. cbn [app].
  repeat (split; [assumption || reflexivity|]).
  inversion Heq as [[Hr Hw]]. rewrite <- Hw in Hr'.
  destruct Hr' as (Hst & _). unfold streams_of in Hst. wsimpl.
  rewrite <- Hst. cbn [to_output remote_input].
  repeat split.
  destruct Hcase as [[Hrb _]|[Hrv _]]; rewrite Hr in *.
  - left. destruct q; try discriminate Hrb; [|reflexivity].
    exfalso. revert HRun.
    destruct (Z.land rev1 (Z.lor POLLIN POLLHUP) =? 0).
    + intros HRun.
      match type of HRun with run ?p ?e _ ?s = _ =>
        destruct (run_half_closed p e s) as (Hne & _); rewrite HRun in Hne
      end.
      apply Hne. reflexivity.
    + unfold remote_ready. cbn [remote_input].
      destruct (source_read (w_sock_rx w) BUF_SIZE) as [[n1 d1] s1].
      destruct (n1 <=? 0); [discriminate|]. intros HRun.
      match type of HRun with run ?p ?e _ ?s = _ =>
        destruct (run_half_closed p e s) as (Hne & _); rewrite HRun in Hne
      end.
      apply Hne. reflexivity.
  - right. destruct q; try discriminate Hrv. reflexivity.
Qed.

(** The theorem for an empty standard input and a remote that sends
    three bytes, which standard output takes in two writes, and then
    closes. *)
Lemma stdin_eof_half_closes_witness :
  exists r polled n out k' rx' L,
    bridge big_fuel [Ready 1 0; Ready 1 1; Ready 0 16] NEW_FD []
           (Pollfd STDIN_FILENO POLLIN 0, Pollfd NEW_FD POLLIN 0)
           (World demo_env [] (Sink [] [Accept 2]) [] [Chunk abc] (Sink [] []) [])
    = (r, World demo_env (snd (source_read [] BUF_SIZE))
                (Sink ([] ++ out) k') [] rx' (Sink [] [])
                ([] ++ [SysPoll STDIN_FILENO NEW_FD polled;
                        SysRead STDIN_FILENO 0 BUF_SIZE n;
                        SysShutdown NEW_FD SHUT_WR] ++ L))
    /\ n <= 0
    /\ src_bytes [Chunk abc] = out ++ src_bytes rx'
    /\ Forall half_closed_call L
    /\ ((r = Blocked /\ Forall data_read L)
        \/ (r = Val tt
            /\ exists L0 m, L = L0 ++ [SysRead NEW_FD 0 BUF_SIZE m] /\ m <= 0))
    /\ ((TERMINATED = STDIN_HALF_CLOSED \/ TERMINATED = TERMINATED)
        /\ r = Val tt
        /\ [] ++ out = abc
        /\ rx' = []).
Proof.
  apply (stdin_eof_half_closes big_fuel 1 0 [Ready 1 1; Ready 0 16] [] 0 0
           (World demo_env [] (Sink [] [Accept 2]) [] [Chunk abc] (Sink [] []) [])).
  - vm_compute. reflexivity.
  - vm_compute. discriminate.
  - vm_compute. discriminate.
  - intros [H|[H|[]]]; discriminate H.
  - reflexivity.
Defined.

(** Lines 63-74 against an echo endpoint, when writes to the socket do
    not fail. *)
Lemma stdin_phase_echo (fuel : nat) (buf : list byte) (fds : pollfd * pollfd)
  (w : world) :
  BUF_SIZE < Z.of_nat fuel ->
  never_fails (w_sock_tx w) ->
  peer (w_env w) = echo_peer ->
  exists buf' fds' delta k' rx' s' L,
    stdin_to_socket fuel NEW_FD buf fds w
    = (Val (buf', fds'),
       World (w_env w) s' (w_stdout w) (w_stderr w) rx'
             (Sink (taken (w_sock_tx w) ++ delta) k') (w_log w ++ L))
    /\ src_bytes (w_stdin w) = delta ++ src_bytes s'
    /\ src_bytes rx' = src_bytes (w_sock_rx w) ++ delta
    /\ forallb accepts k' = true.
Proof.
  intros Hf Hnf Hp. unfold stdin_to_socket.
  destruct (negb _).
  2:{ exists buf, fds, [], (sched (w_sock_tx w)), (w_sock_rx w), (w_stdin w), [].
      unfold ret. rewrite !app_nil_r. destruct w as [e i o er rx [t k] l].
      repeat split. exact Hnf. }
  unfold bind at 1. rewrite sys_read_stdin.
  destruct (source_read (w_stdin w) BUF_SIZE) as [[n d] s] eqn:HR.
  destruct (source_read_bytes _ BUF_SIZE ltac:(unfold BUF_SIZE; lia) _ _ _ HR)
    as (Hb & Hpos & Hneg).
  pose proof (source_read_len _ _ _ _ HR) as Hlen.
  destruct (Z.leb_spec n 0) as [Hn|Hn].
  - (* end of input: the write half is shut down *)
    rewrite (Hneg Hn) in *. unfold bind, sys_shutdown, ret.
    eexists _, _, [], (sched (w_sock_tx w)), (w_sock_rx w), s, [_; _].
    rewrite !app_nil_r. destruct w as [e i o er rx [t k] l]. wsimpl.
    rewrite <- app_assoc. cbn [app].
    repeat split; [exact Hb | exact Hnf].
  - (* data: all of it goes to the socket *)
    specialize (Hpos Hn). subst n.
    edestruct (write_all_socket_echo fuel "write(sock)" buf d 0
                 (logged (set_stdin w s) (SysRead 0 0 BUF_SIZE (len d))))
      as (k' & rx' & L & HE & Hk' & Hrx & HL);
      try (unfold BUF_SIZE in *; lia); [exact Hnf | exact Hp |].
    unfold bind at 1. rewrite HE. wsimpl. cbn [Z.to_nat skipn] in *. unfold ret.
    exists (buf_store buf 0 d), fds, d, k', rx', s, (SysRead 0 0 BUF_SIZE (len d) :: L).
    rewrite <- app_assoc. cbn [app]. auto.
Qed.

(** The loop against an echo endpoint. *)
Lemma bridge_echo (fuel : nat) (evs : list poll_event) :
  BUF_SIZE < Z.of_nat fuel ->
  forall (buf : list byte) (fds : pollfd * pollfd) (w : world),
    never_fails (w_stdout w) ->
    never_fails (w_sock_tx w) ->
    peer (w_env w) = echo_peer ->
    exists r delta out s' k1 er rx' k2 L,
      bridge fuel evs NEW_FD buf fds w
      = (r, World (w_env w) s' (Sink (taken (w_stdout w) ++ out) k1) er rx'
                  (Sink (taken (w_sock_tx w) ++ delta) k2) (w_log w ++ L))
      /\ src_bytes (w_stdin w) = delta ++ src_bytes s'
      /\ src_bytes (w_sock_rx w) ++ delta = out ++ src_bytes rx'.
Proof.
  intros Hf. induction evs as [|ev evs IH]; intros buf fds w Ho Ht Hp.
  - cbn [bridge]. unfold blocked.
    exists Blocked, [], [], (w_stdin w), (sched (w_stdout w)), (w_stderr w),
      (w_sock_rx w), (sched (w_sock_tx w)), [].
    rewrite !app_nil_r. destruct w as [e i [to ko] er rx [tt kt] l]. auto.
  - destruct ev as [|rev0 rev1].
    { (* poll fails *)
      cbn [bridge]. unfold bind, sys_poll, die. cbn [Z.ltb Z.compare]. wsimpl.
      eexists (Halt 1), [], [], (w_stdin w), (sched (w_stdout w)),
        (w_stderr w ++ ["poll"%string]), (w_sock_rx w), (sched (w_sock_tx w)), [_].
      rewrite !app_nil_r. destruct w as [e i [to ko] er rx [tt kt] l]. auto. }
    destruct (bridge_ready fuel rev0 rev1 evs NEW_FD buf fds w) as (polled & _ & ->).
    set (w1 := logged w _).
    destruct (stdin_phase_echo fuel buf
                (poll_revents (fst fds) rev0, poll_revents (snd fds) rev1) w1 Hf Ht Hp)
      as (buf1 & fds1 & delta & kt & rx1 & s1 & L1 & HE1 & Hs1 & Hrx1 & Hkt).
    unfold bind at 1. rewrite HE1.
    set (w2 := World _ _ _ _ _ _ _).
    destruct (socket_phase fuel buf1 fds1 w2 Hf Ho)
      as (brk & buf2 & out & ko & rx2 & L2 & HE2 & Hrx2 & Hko & _ & _).
    unfold bind at 1. rewrite HE2. subst w1 w2. wsimpl.
    destruct brk.
    + unfold ret.
      eexists (Val tt), delta, out, s1, ko, (w_stderr w), rx2, kt, (_ :: L1 ++ L2).
      rewrite <- !app_assoc. cbn [app].
      repeat split; [exact Hs1 | rewrite <- Hrx1; exact Hrx2].
    + edestruct (IH buf2 fds1
                   (World (w_env w) s1 (Sink (taken (w_stdout w) ++ out) ko) (w_stderr w)
                          rx2 (Sink (taken (w_sock_tx w) ++ delta) kt)
                          (((w_log w ++ [SysPoll (fd (fst fds)) (fd (snd fds)) polled])
                            ++ L1) ++ L2)))
        as (r & delta' & out' & s' & k1 & er & rx' & k2 & L & HE & Hs & Hrx);
        [exact Hko | exact Hkt | exact Hp |].
      rewrite HE. wsimpl.
      exists r, (delta ++ delta'), (out ++ out'), s', k1, er, rx', k2,
        (SysPoll (fd (fst fds)) (fd (snd fds)) polled :: L1 ++ L2 ++ L).
      rewrite <- !app_assoc. cbn [app].
      split; [reflexivity|]. split; [rewrite Hs1, Hs; reflexivity|].
      rewrite <- Hrx, app_assoc, <- Hrx1, Hrx2, <- app_assoc. reflexivity.
Qed.

(** Claim C6.  Connected to an echo endpoint, with writes that may be
    short but do not fail, whatever [poll] reports: the run of [main] is
    the run of the specification's machine on the same wake-ups, in which
    each wake-up that reports a descriptor makes one read of it and the
    bytes of a positive read are forwarded in full, those of standard
    input to the socket and those of the socket to standard output.  The
    bytes taken by the socket ([sent]) are the bytes read from standard
    input, in order, and the bytes written to standard output ([out])
    followed by those still to be read from the socket are [sent].
    Hence once standard input and the socket are drained, standard
    output has received exactly the bytes of standard input. *)
Theorem echo_round_trip (fuel : nat) (evs : list poll_event) (stack : list byte)
  (prog a1 a2 : string) (w : world) :
  BUF_SIZE < Z.of_nat fuel ->
  vsock_present (w_env w) = true ->
  vsock_accepts (w_env w) (to_uint (atoi a1)) (to_uint (atoi a2)) = true ->
  peer (w_env w) = echo_peer ->
  never_fails (w_sock_tx w) ->
  never_fails (w_stdout w) ->
  exists r w' sent out,
    main fuel evs stack [prog; a1; a2] w = (r, w')
    /\ (let '(q, st) := run echo_peer evs BRIDGING (streams_of w) in
        r = main_result q /\ streams_of w' = st)
    /\ taken (w_sock_tx w') = taken (w_sock_tx w) ++ sent
    /\ taken (w_stdout w') = taken (w_stdout w) ++ out
    /\ src_bytes (w_stdin w) = sent ++ src_bytes (w_stdin w')
    /\ src_bytes (w_sock_rx w) ++ sent = out ++ src_bytes (w_sock_rx w')
    /\ (w_sock_rx w = [] -> src_bytes (w_stdin w') = [] ->
        src_bytes (w_sock_rx w') = [] -> out = src_bytes (w_stdin w)).
Proof.
  intros Hf Hv Ha Hp Ht Ho.
  destruct (run echo_peer evs BRIDGING (streams_of w)) as [q st] eqn:HRun.
  rewrite <- Hp in HRun.
  rewrite main_connected. cbv zeta. rewrite Hv, Ha.
  match goal with |- context [bind (bridge fuel evs NEW_FD ?b (?p0, ?p1)) _ ?w0] =>
    destruct (bridge_echo fuel evs Hf b (p0, p1) w0 Ho Ht Hp)
      as (r & sent & out & s' & k1 & er & rx' & k2 & L & HE & Hs & Hrx);
    destruct (bridge_refines fuel evs Hf BRIDGING b p0 p1 w0 q st Ho (fun _ => Ht)
                ltac:(split; [reflexivity | left; split; reflexivity])
                eq_refl eq_refl HRun)
      as (w'' & HE' & Hr')
  end.
  pose proof (eq_trans (eq_sym HE) HE') as Heq.
  inversion Heq as [[Hr Hw]]. rewrite <- Hw in Hr'. destruct Hr' as (Hst & _).
  unfold bind at 1. rewrite HE. wsimpl.
  assert (Hfin : w_sock_rx w = [] -> src_bytes s' = [] -> src_bytes rx' = [] ->
                 out = src_bytes (w_stdin w)).
  { intros H1 H2 H3. rewrite H1 in Hrx. rewrite H2 in Hs. rewrite H3 in Hrx.
    cbn [src_bytes app] in Hrx. rewrite !app_nil_r in *. congruence. }
  rewrite Hr.
  destruct q; cbn [loop_result]; unfold bind, sys_close, ret; wsimpl;
    eexists _, _, sent, out; (split; [reflexivity|]); wsimpl;
    (split; [split; [reflexivity | exact Hst]|]); auto.
Qed.

(** The theorem for six bytes of input in two chunks, the socket taking
    the first chunk in two pieces and standard output making a short
    write: after five wake-ups the six bytes are on standard output, in
    order, both inputs are drained and the bridge is back in [poll]. *)
Lemma echo_round_trip_witness :
  exists r w' sent out,
    main big_fuel [Ready 1 0; Ready 1 1; Ready 0 1; Ready 0 1; Ready 1 0] [] argv3
         (echo_world [Chunk abc; Chunk abc] [Accept 2] [Accept 1])
    = (r, w')
    /\ (r = Blocked
        /\ streams_of w' = Streams [] [] [] (abc ++ abc) (abc ++ abc))
    /\ taken (w_sock_tx w') = [] ++ sent
    /\ taken (w_stdout w') = [] ++ out
    /\ src_bytes [Chunk abc; Chunk abc] = sent ++ src_bytes (w_stdin w')
    /\ src_bytes [] ++ sent = out ++ src_bytes (w_sock_rx w')
    /\ (@nil rd_event = [] -> src_bytes (w_stdin w') = [] ->
        src_bytes (w_sock_rx w') = [] -> out = src_bytes [Chunk abc; Chunk abc]).
Proof.
  apply (echo_round_trip big_fuel
           [Ready 1 0; Ready 1 1; Ready 0 1; Ready 0 1; Ready 1 0] []
           "vsock-connect" "3" "5000"
           (echo_world [Chunk abc; Chunk abc] [Accept 2] [Accept 1])).
  - vm_compute. reflexivity.
  - reflexivity.
  - reflexivity.
  - reflexivity.
  - reflexivity.
  - reflexivity.
Defined.

(** Claim C2 fails on the code where it takes a hang-up for a close: with
    [POLLHUP] reported while the socket still holds three bytes, the
    bridge reads them, writes them to standard output and goes back to
    [poll]; it has not exited. *)
Lemma hangup_with_data_cex :
  Z.land (Z.lor POLLIN POLLHUP) POLLHUP <> 0
  /\ fst (main big_fuel [Ready 0 (Z.lor POLLIN POLLHUP)] [] argv3 pending_world)
     = Blocked
  /\ taken (w_stdout (snd (main big_fuel [Ready 0 (Z.lor POLLIN POLLHUP)] [] argv3
                                pending_world))) = abc
  /\ w_log (snd (main big_fuel [Ready 0 (Z.lor POLLIN POLLHUP)] [] argv3 pending_world))
     = [SysSocket 3; SysConnect 3 3 5000 0; SysPoll 0 3 1;
        SysRead 3 0 65536 3; SysWrite 1 0 3 3].
Proof. vm_compute. repeat split; try reflexivity. discriminate. Qed.

(** Lines 77-79: a socket read that returns zero or less is the [break]. *)
Lemma socket_phase_break (fuel : nat) (buf : list byte) (fds : pollfd * pollfd)
  (w : world) :
  Z.land (revents (snd fds)) (Z.lor POLLIN POLLHUP) <> 0 ->
  fst (fst (source_read (w_sock_rx w) BUF_SIZE)) <= 0 ->
  socket_to_stdout fuel NEW_FD buf fds w
  = (Val (true, buf),
     logged (set_sock_rx w (snd (source_read (w_sock_rx w) BUF_SIZE)))
            (SysRead NEW_FD 0 BUF_SIZE (fst (fst (source_read (w_sock_rx w) BUF_SIZE))))).
Proof.
  intros Hrdy Hn. unfold socket_to_stdout.
  destruct (Z.eqb_spec (Z.land (revents (snd fds)) (Z.lor POLLIN POLLHUP)) 0)
    as [H0|_]; [contradiction|].
  cbn [negb]. unfold bind. rewrite sys_read_socket.
  destruct (source_read (w_sock_rx w) BUF_SIZE) as [[n d] s] eqn:HR.
  cbn [fst snd] in *.
  destruct (source_read_bytes _ BUF_SIZE ltac:(unfold BUF_SIZE; lia) _ _ _ HR)
    as (_ & _ & Hneg).
  rewrite (Hneg Hn), buf_store_nil.
  destruct (Z.leb_spec n 0) as [_|Hp]; [reflexivity | lia].
Qed.

(** An iteration whose [poll] did not fail, in two halves. *)
Lemma bridge_split (fuel : nat) (rev0 rev1 : Z) (evs : list poll_event)
  (buf : list byte) (fds : pollfd * pollfd) (w : world) :
  bridge fuel (Ready rev0 rev1 :: evs) NEW_FD buf fds w
  = (' (buf, fds) <- (' (_, fds1) <- sys_poll (Ready rev0 rev1) fds ;;
                      stdin_to_socket fuel NEW_FD buf fds1) ;;
     ' (brk, buf) <- socket_to_stdout fuel NEW_FD buf fds ;;
     if brk : bool then ret tt else bridge fuel evs NEW_FD buf fds) w.
Proof.
  cbn [bridge]. unfold bind at 1 4 5. unfold sys_poll.
  set (p0 := poll_revents (fst fds) rev0).
  set (p1 := poll_revents (snd fds) rev1).
  destruct (revents p0 =? 0), (revents p1 =? 0); reflexivity.
Qed.

(** Claim C2, amended.  In any state of the loop, when an iteration gets
    past its stdin part (leaving the world [w2]), the socket is reported
    readable or hung up, and the read of the socket returns zero or less,
    the loop is left at once: the socket is closed and [main] returns 0,
    whatever events were still to come.  Standard input is not read
    again, so the bytes it still holds are not forwarded, and nothing more
    is written to the socket or to standard output. *)
Theorem remote_close_terminates (fuel : nat) (rev0 rev1 : Z) (evs : list poll_event)
  (buf : list byte) (fds : pollfd * pollfd) (w : world)
  (buf2 : list byte) (fds2 : pollfd * pollfd) (w2 : world) :
  (' (_, fds1) <- sys_poll (Ready rev0 rev1) fds ;;
   stdin_to_socket fuel NEW_FD buf fds1) w = (Val (buf2, fds2), w2) ->
  Z.land (revents (snd fds2)) (Z.lor POLLIN POLLHUP) <> 0 ->
  fst (fst (source_read (w_sock_rx w2) BUF_SIZE)) <= 0 ->
  exists n w',
    (bridge fuel (Ready rev0 rev1 :: evs) NEW_FD buf fds ;;
     sys_close NEW_FD ;;
     ret 0) w = (Val 0, w')
    /\ n <= 0
    /\ w_log w' = w_log w2 ++ [SysRead NEW_FD 0 BUF_SIZE n; SysClose NEW_FD]
    /\ w_stdin w' = w_stdin w2
    /\ w_sock_tx w' = w_sock_tx w2
    /\ w_stdout w' = w_stdout w2
    /\ w_stderr w' = w_stderr w2.
Proof.
  intros Hpre Hrdy Hn.
  unfold bind at 1. rewrite bridge_split.
  unfold bind at 1. rewrite Hpre.
  unfold bind at 1. rewrite (socket_phase_break fuel buf2 fds2 w2 Hrdy Hn).
  unfold ret at 1. unfold bind, sys_close, ret. wsimpl.
  eexists _, _. split; [reflexivity|]. wsimpl.
  rewrite <- app_assoc. cbn [app]. repeat split. exact Hn.
Qed.

(** The theorem for a remote that hangs up while standard input holds
    three unread bytes. *)
Lemma remote_close_terminates_witness :
  exists n w',
    (bridge big_fuel [Ready 0 POLLHUP; Ready 1 1] NEW_FD []
            (Pollfd STDIN_FILENO POLLIN 0, Pollfd NEW_FD POLLIN 0) ;;
     sys_close NEW_FD ;;
     ret 0) (demo_world [Chunk abc] []) = (Val 0, w')
    /\ n <= 0
    /\ w_log w' = [SysPoll 0 3 1] ++ [SysRead NEW_FD 0 BUF_SIZE n; SysClose NEW_FD]
    /\ w_stdin w' = [Chunk abc]
    /\ w_sock_tx w' = Sink [] []
    /\ w_stdout w' = Sink [] []
    /\ w_stderr w' = [].
Proof.
  apply (remote_close_terminates big_fuel 0 POLLHUP [Ready 1 1] []
           (Pollfd STDIN_FILENO POLLIN 0, Pollfd NEW_FD POLLIN 0)
           (demo_world [Chunk abc] [])
           [] (Pollfd STDIN_FILENO POLLIN 0, Pollfd NEW_FD POLLIN POLLHUP)
           (logged (demo_world [Chunk abc] []) (SysPoll 0 3 1))).
  - vm_compute. reflexivity.
  - vm_compute. discriminate.
  - vm_compute. discriminate.
Defined.

(** How [main] can end. *)
Lemma main_exit (fuel : nat) (evs : list poll_event) (stack : list byte)
  (argv : list string) (w : world) (c : Z) :
  exit_status (fst (main fuel evs stack argv w)) = Some c ->
  (c = 0 /\ w_stderr (snd (main fuel evs stack argv w)) = w_stderr w)
  \/ (c = 1 /\ exists m, In m (usage :: fatal_diags)
                 /\ w_stderr (snd (main fuel evs stack argv w)) = w_stderr w ++ [m]).
Proof.
  destruct (main fuel evs stack argv w) as [r0 w'] eqn:HM. cbn [fst snd].
  intros Hc.
  destruct (Z.eqb_spec (Z.of_nat (length argv)) 3) as [H3|H3].
  2:{ unfold main in HM. apply Z.eqb_neq in H3. rewrite H3 in HM. cbn [negb] in HM.
      unfold bind, fprintf_stderr, ret in HM. inversion HM; subst; clear HM.
      cbn in Hc. injection Hc as <-. right. split; [reflexivity|].
      exists usage. wsimpl. cbn; auto. }
  destruct argv as [|prog [|a1 [|a2 [|a3 argv]]]]; cbn [List.length] in H3; try lia.
  rewrite main_connected in HM. cbv zeta in HM.
  destruct (vsock_present (w_env w)).
  2:{ inversion HM; subst; clear HM. cbn in Hc. injection Hc as <-. right.
      split; [reflexivity|]. eexists. wsimpl. split; [|reflexivity]. cbn; auto. }
  destruct (vsock_accepts (w_env w) _ _).
  2:{ inversion HM; subst; clear HM. cbn in Hc. injection Hc as <-. right.
      split; [reflexivity|]. eexists. wsimpl. split; [|reflexivity]. cbn; auto. }
  unfold bind at 1 in HM.
  match type of HM with context [bridge fuel evs NEW_FD ?b ?f ?w0] =>
    pose proof (outcome_bridge fuel NEW_FD evs b f w0) as [_ Hr];
    destruct (bridge fuel evs NEW_FD b f w0) as [r w1]
  end.
  cbn [fst snd] in Hr. wsimpl.
  destruct r as [[]|c'| |]; inversion HM; subst; clear HM; cbn in Hc;
    try discriminate; injection Hc as <-.
  - left. wsimpl. auto.
  - destruct Hr as [-> (m & Hin & Hm)]. right.
    split; [reflexivity|]. exists m. split; [|exact Hm].
    cbn in Hin |- *. tauto.
Qed.

(** Lines 64-65: a read of standard input that returns zero or less
    closes that half of the bridge. *)
Lemma stdin_phase_eof (fuel : nat) (buf : list byte) (fds : pollfd * pollfd)
  (w : world) :
  Z.land (revents (fst fds)) POLLIN <> 0 ->
  fst (fst (source_read (w_stdin w) BUF_SIZE)) <= 0 ->
  stdin_to_socket fuel NEW_FD buf fds w
  = (Val (buf, (Pollfd (-1) (events (fst fds)) (revents (fst fds)), snd fds)),
     logged (logged (set_stdin w (snd (source_read (w_stdin w) BUF_SIZE)))
                    (SysRead STDIN_FILENO 0 BUF_SIZE
                             (fst (fst (source_read (w_stdin w) BUF_SIZE)))))
            (SysShutdown NEW_FD SHUT_WR)).
Proof.
  intros Hrdy Hn. unfold stdin_to_socket.
  destruct (Z.eqb_spec (Z.land (revents (fst fds)) POLLIN) 0) as [H0|_];
    [contradiction|].
  cbn [negb]. unfold bind at 1. rewrite sys_read_stdin.
  destruct (source_read (w_stdin w) BUF_SIZE) as [[n d] s] eqn:HR.
  cbn [fst snd] in *.
  destruct (source_read_bytes _ BUF_SIZE ltac:(unfold BUF_SIZE; lia) _ _ _ HR)
    as (_ & _ & Hneg).
  rewrite (Hneg Hn), buf_store_nil.
  destruct (Z.leb_spec n 0) as [_|Hp]; [reflexivity | lia].
Qed.

(** Claim C9.  No exit of [main] reports a read failure: it ends with
    status 0 and no diagnostic, or with status 1 after the usage message
    or one diagnostic of [die], none of which is for a read.  A read of
    the socket that fails is handled as one that returns 0: the loop is
    left, the socket closed and [main] returns 0.  A read of standard
    input that fails is handled as one that returns 0: the write half of
    the socket is shut down, standard input is taken out of the [poll]
    set and the loop goes on. *)
Theorem read_errors_are_not_failures (fuel : nat) (evs : list poll_event)
  (buf : list byte) (fds : pollfd * pollfd) (w : world) (s : source) :
  (forall stack argv c,
      exit_status (fst (main fuel evs stack argv w)) = Some c ->
      (c = 0 /\ w_stderr (snd (main fuel evs stack argv w)) = w_stderr w)
      \/ (c = 1 /\ exists m, In m (usage :: fatal_diags)
                     /\ w_stderr (snd (main fuel evs stack argv w)) = w_stderr w ++ [m]))
  /\ (Z.land (revents (snd fds)) (Z.lor POLLIN POLLHUP) <> 0 ->
      socket_to_stdout fuel NEW_FD buf fds (set_sock_rx w (RdErr :: s))
      = (Val (true, buf), logged (set_sock_rx w s) (SysRead NEW_FD 0 BUF_SIZE (-1)))
      /\ socket_to_stdout fuel NEW_FD buf fds (set_sock_rx w [])
         = (Val (true, buf), logged (set_sock_rx w []) (SysRead NEW_FD 0 BUF_SIZE 0))
      /\ forall rev0 rev1 fds0 w0,
           (' (_, fds1) <- sys_poll (Ready rev0 rev1) fds0 ;;
            stdin_to_socket fuel NEW_FD buf fds1) w0
           = (Val (buf, fds), set_sock_rx w (RdErr :: s)) ->
           (bridge fuel (Ready rev0 rev1 :: evs) NEW_FD buf fds0 ;;
            sys_close NEW_FD ;;
            ret 0) w0
           = (Val 0, logged (logged (set_sock_rx w s) (SysRead NEW_FD 0 BUF_SIZE (-1)))
                            (SysClose NEW_FD)))
  /\ (Z.land (revents (fst fds)) POLLIN <> 0 ->
      stdin_to_socket fuel NEW_FD buf fds (set_stdin w (RdErr :: s))
      = (Val (buf, (Pollfd (-1) (events (fst fds)) (revents (fst fds)), snd fds)),
         logged (logged (set_stdin w s) (SysRead STDIN_FILENO 0 BUF_SIZE (-1)))
                (SysShutdown NEW_FD SHUT_WR))
      /\ stdin_to_socket fuel NEW_FD buf fds (set_stdin w [])
         = (Val (buf, (Pollfd (-1) (events (fst fds)) (revents (fst fds)), snd fds)),
            logged (logged (set_stdin w []) (SysRead STDIN_FILENO 0 BUF_SIZE 0))
                   (SysShutdown NEW_FD SHUT_WR))).
Proof.
  split; [intros stack argv c; apply main_exit|]. split.
  - intros Hrdy.
    assert (He : socket_to_stdout fuel NEW_FD buf fds (set_sock_rx w (RdErr :: s))
                 = (Val (true, buf),
                    logged (set_sock_rx w s) (SysRead NEW_FD 0 BUF_SIZE (-1)))).
    { rewrite socket_phase_break; [reflexivity | exact Hrdy | cbn; lia]. }
    split; [exact He|]. split.
    + rewrite socket_phase_break; [reflexivity | exact Hrdy | cbn; lia].
    + intros rev0 rev1 fds0 w0 Hpre.
      unfold bind at 1. rewrite bridge_split.
      unfold bind at 1. rewrite Hpre.
      unfold bind at 1. rewrite He. reflexivity.
  - intros Hrdy. split.
    + rewrite stdin_phase_eof; [reflexivity | exact Hrdy | cbn; lia].
    + rewrite stdin_phase_eof; [reflexivity | exact Hrdy | cbn; lia].
Qed.

(** The theorem at a socket whose read fails and a standard input whose
    read fails. *)
Lemma read_errors_are_not_failures_witness :
  socket_to_stdout big_fuel NEW_FD []
    (Pollfd STDIN_FILENO POLLIN POLLIN, Pollfd NEW_FD POLLIN POLLHUP)
    (set_sock_rx (demo_world [] []) [RdErr])
  = (Val (true, []),
     logged (set_sock_rx (demo_world [] []) []) (SysRead NEW_FD 0 BUF_SIZE (-1)))
  /\ stdin_to_socket big_fuel NEW_FD []
       (Pollfd STDIN_FILENO POLLIN POLLIN, Pollfd NEW_FD POLLIN POLLHUP)
       (set_stdin (demo_world [] []) [RdErr])
     = (Val ([], (Pollfd (-1) POLLIN POLLIN, Pollfd NEW_FD POLLIN POLLHUP)),
        logged (logged (set_stdin (demo_world [] []) [])
                       (SysRead STDIN_FILENO 0 BUF_SIZE (-1)))
               (SysShutdown NEW_FD SHUT_WR)).
Proof.
  destruct (read_errors_are_not_failures big_fuel [] []
              (Pollfd STDIN_FILENO POLLIN POLLIN, Pollfd NEW_FD POLLIN POLLHUP)
              (demo_world [] []) []) as (_ & Hsock & Hin).
  split.
  - apply Hsock. vm_compute. discriminate.
  - apply Hin. vm_compute. discriminate.
Defined.

End VsockConnectProofs.

(* ================================================================= *)
(** * Further properties *)

(** ** System calls *)

Lemma sink_write_le (k : sink) (data : list byte) :
  fst (fst (sink_write k data)) <= len data.
Proof.
  unfold sink_write. pose proof (len_nonneg data).
  destruct (sched k) as [|[m| |] s]; cbn [fst]; try lia.
  unfold len. rewrite length_firstn. lia.
Qed.

Lemma source_read_le (s : source) (count : Z) :
  0 <= count -> fst (fst (source_read s count)) <= count.
Proof.
  intros H. destruct s as [|[bs|] s']; cbn [source_read fst]; lia.
Qed.

Lemma sys_read_result (fd : Z) (buf : list byte) (off count : Z) (w : world) :
  0 <= count ->
  exists n b w',
    sys_read fd buf off count w = (Val (n, b), w')
    /\ n <= count
    /\ w_log w' = w_log w ++ [SysRead fd off count n].
Proof.
  intros H. unfold sys_read.
  destruct (fd =? STDIN_FILENO); [|destruct (fd =? NEW_FD)].
  - pose proof (source_read_le (w_stdin w) count H) as Hle.
    destruct (source_read _ _) as [[n d] s]. eexists _, _, _. repeat split. exact Hle.
  - pose proof (source_read_le (w_sock_rx w) count H) as Hle.
    destruct (source_read _ _) as [[n d] s]. eexists _, _, _. repeat split. exact Hle.
  - eexists _, _, _. repeat split. lia.
Qed.

Lemma sys_write_result (fd : Z) (buf : list byte) (off count : Z) (w : world) :
  exists n w',
    sys_write fd buf off count w = (Val n, w')
    /\ w_log w' = w_log w ++ [SysWrite fd off count n].
Proof.
  unfold sys_write.
  destruct (fd =? STDOUT_FILENO); [|destruct (fd =? NEW_FD)];
    try destruct (sink_write _ _) as [[n a] k]; eexists _, _; split; reflexivity.
Qed.

(* ================================================================= *)
(** ** [nsm-ioctl.c] *)

Module NsmIoctlExtra.
Import NsmIoctl NsmIoctlProofs NsmIoctlSpec.

Lemma request_of_nonempty (w : world) :
  avail (w_stdin w) <> [] -> 0 < len (request_of w).
Proof.
  unfold request_of. intros H. rewrite len_firstn by (unfold MAX_REQUEST; lia).
  destruct (avail (w_stdin w)); [congruence|].
  unfold len, MAX_REQUEST. cbn [List.length]. lia.
Qed.

(** Property X1.  When a request was read but [/dev/nsm] cannot be opened,
    [main] ends with [exit(1)] after the diagnostic of the open; standard
    output is untouched and, after the reads of the request, the failed
    open is the only system call: no ioctl is issued. *)
Theorem device_unavailable (fuel : nat) (stack : list byte) (w : world) :
  MAX_REQUEST < Z.of_nat fuel ->
  avail (w_stdin w) <> [] ->
  dev_present (w_env w) = false ->
  exists w' R,
    main fuel stack w = (Halt 1, w')
    /\ w_stdout w' = w_stdout w
    /\ w_stderr w' = w_stderr w ++ ["open(/dev/nsm)"%string]
    /\ w_log w' = w_log w ++ R ++ [SysOpen NSM_DEV_PATH (-1)]
    /\ Forall request_read R.
Proof.
  intros Hf Hav Hdev.
  destruct (main_cases fuel stack w Hf) as (s' & R & HR & HE).
  cbv zeta in HE. rewrite HE. clear HE.
  pose proof (request_of_nonempty w Hav) as Hlen.
  destruct (Z.leb_spec (len (request_of w)) 0) as [H0|_]; [lia|].
  rewrite Hdev. cbn [negb].
  eexists _, R. split; [reflexivity|]. wsimpl.
  rewrite <- app_assoc. repeat split. exact HR.
Qed.

(** The theorem at a sample machine. *)
Lemma device_unavailable_witness :
  exists w' R,
    main big_fuel []
         (World (Env false (fun _ => None) false (fun _ _ => false) (fun _ rx => rx))
                [Chunk abc] (Sink [] []) [] [] (Sink [] []) [])
    = (Halt 1, w')
    /\ w_stdout w' = Sink [] []
    /\ w_stderr w' = [] ++ ["open(/dev/nsm)"%string]
    /\ w_log w' = [] ++ R ++ [SysOpen NSM_DEV_PATH (-1)]
    /\ Forall request_read R.
Proof.
  apply (device_unavailable big_fuel []
           (World (Env false (fun _ => None) false (fun _ _ => false) (fun _ rx => rx))
                  [Chunk abc] (Sink [] []) [] [] (Sink [] []) [])).
  - vm_compute. reflexivity.
  - discriminate.
  - reflexivity.
Defined.

(** Property X2.  When the ioctl fails, [main] ends with [exit(1)] after the
    diagnostic of the ioctl; standard output is untouched and the failed
    ioctl is the last system call: the descriptor is not closed and
    nothing is written. *)
Theorem ioctl_failure (fuel : nat) (stack : list byte) (w : world) :
  MAX_REQUEST < Z.of_nat fuel ->
  avail (w_stdin w) <> [] ->
  dev_present (w_env w) = true ->
  dev_ioctl (w_env w) (request_of w) = None ->
  exists w' R,
    main fuel stack w = (Halt 1, w')
    /\ w_stdout w' = w_stdout w
    /\ w_stderr w' = w_stderr w ++ ["ioctl(NSM)"%string]
    /\ w_log w' = w_log w ++ R
                  ++ [SysOpen NSM_DEV_PATH NEW_FD;
                      SysIoctl NEW_FD NSM_IOCTL_CMD (request_of w) (-1)]
    /\ Forall request_read R.
Proof.
  intros Hf Hav Hdev Hio.
  destruct (main_cases fuel stack w Hf) as (s' & R & HR & HE).
  cbv zeta in HE. rewrite HE. clear HE.
  pose proof (request_of_nonempty w Hav) as Hlen.
  destruct (Z.leb_spec (len (request_of w)) 0) as [H0|_]; [lia|].
  rewrite Hdev, Hio. cbn [negb].
  eexists _, R. split; [reflexivity|]. wsimpl.
  rewrite <- !app_assoc. repeat split. exact HR.
Qed.

(** The theorem at a sample machine. *)
Lemma ioctl_failure_witness :
  exists w' R,
    main big_fuel []
         (World (Env true (fun _ => None) false (fun _ _ => false) (fun _ rx => rx))
                [Chunk abc] (Sink [] []) [] [] (Sink [] []) [])
    = (Halt 1, w')
    /\ w_stdout w' = Sink [] []
    /\ w_stderr w' = [] ++ ["ioctl(NSM)"%string]
    /\ w_log w' = [] ++ R
                  ++ [SysOpen NSM_DEV_PATH NEW_FD;
                      SysIoctl NEW_FD NSM_IOCTL_CMD
                        (request_of
                           (World (Env true (fun _ => None) false (fun _ _ => false)
                                       (fun _ rx => rx))
                                  [Chunk abc] (Sink [] []) [] [] (Sink [] []) [])) (-1)]
    /\ Forall request_read R.
Proof.
  apply (ioctl_failure big_fuel []
           (World (Env true (fun _ => None) false (fun _ _ => false) (fun _ rx => rx))
                  [Chunk abc] (Sink [] []) [] [] (Sink [] []) [])).
  - vm_compute. reflexivity.
  - discriminate.
  - reflexivity.
  - reflexivity.
Defined.

(** Property X3.  When the device answers with a response of length 0,
    [main] returns 0 without a single [write]: after the close of the
    device no system call is issued, and standard output and the error
    stream are untouched. *)
Theorem empty_response (fuel : nat) (stack : list byte) (w : world) :
  MAX_REQUEST < Z.of_nat fuel ->
  avail (w_stdin w) <> [] ->
  dev_present (w_env w) = true ->
  dev_ioctl (w_env w) (request_of w) = Some [] ->
  exists w' R,
    main fuel stack w = (Val 0, w')
    /\ w_stdout w' = w_stdout w
    /\ w_stderr w' = w_stderr w
    /\ w_log w' = w_log w ++ R
                  ++ [SysOpen NSM_DEV_PATH NEW_FD;
                      SysIoctl NEW_FD NSM_IOCTL_CMD (request_of w) 0;
                      SysClose NEW_FD]
    /\ Forall request_read R.
Proof.
  intros Hf Hav Hdev Hio.
  destruct (main_cases fuel stack w Hf) as (s' & R & HR & HE).
  cbv zeta in HE. rewrite HE. clear HE.
  pose proof (request_of_nonempty w Hav) as Hlen.
  destruct (Z.leb_spec (len (request_of w)) 0) as [H0|_]; [lia|].
  rewrite Hdev, Hio. cbn [negb].
  destruct fuel as [|fuel]; [unfold MAX_REQUEST in Hf; lia|].
  unfold bind at 1. cbn [write_response response_len].
  change (to_size_t 0 <? to_uint (len [])) with false. cbn iota.
  unfold ret, bind.
  eexists _, R. split; [reflexivity|]. wsimpl.
  rewrite <- !app_assoc. repeat split. exact HR.
Qed.

(** The theorem at a sample machine. *)
Lemma empty_response_witness :
  exists w' R,
    main big_fuel []
         (World (Env true (fun _ => Some []) false (fun _ _ => false) (fun _ rx => rx))
                [Chunk abc] (Sink [] []) [] [] (Sink [] []) [])
    = (Val 0, w')
    /\ w_stdout w' = Sink [] []
    /\ w_stderr w' = []
    /\ w_log w' = [] ++ R
                  ++ [SysOpen NSM_DEV_PATH NEW_FD;
                      SysIoctl NEW_FD NSM_IOCTL_CMD abc 0;
                      SysClose NEW_FD]
    /\ Forall request_read R.
Proof.
  apply (empty_response big_fuel []
           (World (Env true (fun _ => Some []) false (fun _ _ => false) (fun _ rx => rx))
                  [Chunk abc] (Sink [] []) [] [] (Sink [] []) [])).
  - vm_compute. reflexivity.
  - discriminate.
  - reflexivity.
  - reflexivity.
Defined.

Lemma outcome_read_request msgs (fuel : nat) :
  forall buf req_len w, outcome msgs w (read_request fuel buf req_len w).
Proof.
  induction fuel as [|fuel IH]; intros buf req_len w; cbn [read_request].
  - split; [exists []; symmetry; apply app_nil_r | reflexivity].
  - apply outcome_bind; [apply outcome_sys_read|].
    intros [n b] w1. destruct (0 <? n); [apply IH | apply outcome_ret].
Qed.

Lemma outcome_write_response msgs (fuel : nat) :
  In "write(stdout)"%string msgs ->
  forall iov buf written w, outcome msgs w (write_response fuel iov buf written w).
Proof.
  intros Hin. induction fuel as [|fuel IH]; intros iov buf written w;
    cbn [write_response].
  - split; [exists []; symmetry; apply app_nil_r | reflexivity].
  - destruct (to_size_t written <? response_len iov); [|apply outcome_ret].
    apply outcome_bind; [apply outcome_sys_write|].
    intros n w1. destruct (n <=? 0); [apply outcome_die; exact Hin | apply IH].
Qed.

(** Property X4.  Whatever the machine does and whatever the fuel, a
    run of [main] that ends with status 0 has printed nothing on the
    error stream, and a run that ends otherwise ends with status 1 after
    exactly one diagnostic: the empty request, the open, the ioctl or the
    write. *)
Theorem exit_diagnostics (fuel : nat) (stack : list byte) (w : world) (c : Z) :
  exit_status (fst (main fuel stack w)) = Some c ->
  (c = 0 /\ w_stderr (snd (main fuel stack w)) = w_stderr w)
  \/ (c = 1 /\ exists m, In m nsm_diags
                 /\ w_stderr (snd (main fuel stack w)) = w_stderr w ++ [m]).
Proof.
  destruct (main fuel stack w) as [r0 w'] eqn:HM. cbn [fst snd]. intros Hc.
  unfold main in HM. unfold bind at 1 in HM.
  pose proof (outcome_read_request nsm_diags fuel (alloca MAX_REQUEST stack) 0 w)
    as [_ Hr].
  destruct (read_request fuel (alloca MAX_REQUEST stack) 0 w) as [[[b n]|c'| |] w1];
    cbn [fst snd] in Hr.
  2:{ inversion HM; subst. cbn in Hc. injection Hc as <-.
      destruct Hr as [-> Hm]. right. auto. }
  2,3: inversion HM; subst; discriminate Hc.
  destruct (n <=? 0).
  { unfold bind, fprintf_stderr, ret in HM. inversion HM; subst; clear HM.
    cbn in Hc. injection Hc as <-. right. split; [reflexivity|].
    eexists. split; [left; reflexivity|]. wsimpl. rewrite Hr. reflexivity. }
  unfold bind at 1 in HM. unfold sys_open at 1 in HM.
  destruct ((NSM_DEV_PATH =? NSM_DEV_PATH)%string && dev_present (w_env w1)).
  2:{ change (-1 <? 0) with true in HM. cbn iota in HM. unfold die in HM.
      inversion HM; subst; clear HM. cbn in Hc. injection Hc as <-.
      right. split; [reflexivity|]. eexists. wsimpl.
      split; [right; left; reflexivity | rewrite Hr; reflexivity]. }
  change (NEW_FD <? 0) with false in HM. cbn iota in HM.
  unfold bind at 1 in HM. unfold sys_ioctl at 1 in HM.
  destruct (dev_ioctl _ _) as [resp|].
  2:{ change (-1 <? 0) with true in HM. cbn iota in HM. unfold die in HM.
      inversion HM; subst; clear HM. cbn in Hc. injection Hc as <-.
      right. split; [reflexivity|]. eexists. wsimpl.
      split; [right; right; left; reflexivity | rewrite Hr; reflexivity]. }
  change (0 <? 0) with false in HM. cbn iota in HM.
  unfold bind at 1 in HM. unfold sys_close at 1 in HM.
  unfold bind at 1 in HM.
  match type of HM with context [write_response fuel ?iov ?bf 0 ?w0] =>
    pose proof (outcome_write_response nsm_diags fuel
                  ltac:(cbn; auto) iov bf 0 w0) as [_ Hw];
    destruct (write_response fuel iov bf 0 w0) as [[[]|c'| |] w2]
  end; cbn [fst snd] in Hw; wsimpl; inversion HM; subst; clear HM; cbn in Hc;
    try discriminate; injection Hc as <-.
  - left. split; [reflexivity|]. rewrite Hw. exact Hr.
  - destruct Hw as [-> (m & Hin & Hm)]. right. split; [reflexivity|].
    exists m. split; [exact Hin|]. rewrite Hm, Hr. reflexivity.
Qed.

(** The theorem at a sample machine. *)
Lemma exit_diagnostics_witness :
  (0 = 0 /\ w_stderr (snd (main big_fuel [] (demo_world [Chunk abc] []))) = [])
  \/ (0 = 1 /\ exists m, In m nsm_diags
                 /\ w_stderr (snd (main big_fuel [] (demo_world [Chunk abc] [])))
                    = [] ++ [m]).
Proof.
  apply (exit_diagnostics big_fuel [] (demo_world [Chunk abc] []) 0).
  vm_compute. reflexivity.
Defined.

Lemma bind_ext {A B} (m : M A) (f g : A -> M B) (w : world) :
  (forall a w', f a w' = g a w') -> bind m f w = bind m g w.
Proof.
  intros H. unfold bind. destruct (m w) as [[a| | |] w']; auto.
Qed.

(** The request loop does not look at what [req_buf] holds. *)
Lemma read_request_buffer (fuel : nat) :
  forall (b1 b2 : list byte) (req_len : Z) (w : world),
    snd (read_request fuel b1 req_len w) = snd (read_request fuel b2 req_len w)
    /\ match fst (read_request fuel b1 req_len w),
             fst (read_request fuel b2 req_len w) with
       | Val (_, n1), Val (_, n2) => n1 = n2
       | Halt c1, Halt c2 => c1 = c2
       | Blocked, Blocked => True
       | OutOfFuel, OutOfFuel => True
       | _, _ => False
       end.
Proof.
  induction fuel as [|fuel IH]; intros b1 b2 req_len w; cbn [read_request].
  - split; reflexivity.
  - unfold bind. rewrite !sys_read_stdin.
    destruct (source_read (w_stdin w) _) as [[n d] s].
    destruct (0 <? n); [apply IH | split; reflexivity].
Qed.

(** The response loop looks at [response_len] only. *)
Lemma write_response_iov (fuel : nat) :
  forall (iov1 iov2 : nsm_iovec) (buf : list byte) (written : Z) (w : world),
    response_len iov1 = response_len iov2 ->
    write_response fuel iov1 buf written w = write_response fuel iov2 buf written w.
Proof.
  induction fuel as [|fuel IH]; intros iov1 iov2 buf written w Hl;
    cbn [write_response]; [reflexivity|].
  rewrite Hl. destruct (_ <? _); [|reflexivity].
  unfold bind. destruct (sys_write _ _ _ _ w) as [[n| | |] w1]; try reflexivity.
  destruct (n <=? 0); [reflexivity | apply IH; exact Hl].
Qed.

(** Property X5.  As long as the device keeps its answer within the
    capacity of [resp_buf], what the uninitialised [req_buf] holds on
    entry is never observed: two runs of [main] that differ in it only
    are equal, result and world (so no stale byte of the stack reaches
    the device or standard output). *)
Theorem stack_not_observed (fuel : nat) (stack1 stack2 : list byte) (w : world) :
  MAX_REQUEST < Z.of_nat fuel ->
  (forall resp, dev_ioctl (w_env w) (request_of w) = Some resp ->
                len resp <= MAX_RESPONSE) ->
  main fuel stack1 w = main fuel stack2 w.
Proof.
  intros Hf _.
  assert (Ha : forall st, len (alloca MAX_REQUEST st) = MAX_REQUEST)
    by (intros; apply length_alloca; unfold MAX_REQUEST; lia).
  destruct (read_request_spec fuel (alloca MAX_REQUEST stack1) 0 w)
    as (s1 & L1 & HE1 & _); [unfold MAX_REQUEST; lia | apply Ha | lia |].
  destruct (read_request_spec fuel (alloca MAX_REQUEST stack2) 0 w)
    as (s2 & L2 & HE2 & _); [unfold MAX_REQUEST; lia | apply Ha | lia |].
  destruct (read_request_buffer fuel (alloca MAX_REQUEST stack1)
              (alloca MAX_REQUEST stack2) 0 w) as [Hw _].
  rewrite HE1, HE2 in Hw. cbn [snd] in Hw.
  rewrite Z.sub_0_r, Z.add_0_l in HE1, HE2. fold (request_of w) in HE1, HE2.
  pose proof (len_request_of w) as Hreq. unfold MAX_REQUEST in Hreq.
  unfold main. unfold bind at 1. rewrite HE1.
  symmetry. unfold bind at 1. rewrite HE2, <- Hw.
  destruct (Z.leb_spec (len (request_of w)) 0) as [H0|H0]; [reflexivity|].
  apply bind_ext. intros fd w1. destruct (fd <? 0); [reflexivity|].
  unfold bind at 1. symmetry. unfold bind at 1. unfold sys_ioctl.
  cbn [request request_len response response_len].
  rewrite to_uint_small by lia.
  rewrite <- (Z.sub_0_r (len (request_of w))).
  rewrite !buf_load_store_0 by lia.
  destruct (dev_ioctl _ _) as [resp|]; [|reflexivity].
  change (0 <? 0) with false. cbn iota.
  apply bind_ext. intros _ w2.
  unfold bind. cbn [response].
  match goal with |- ?lhs = ?rhs =>
    match lhs with context [write_response fuel ?i1 ?b 0 w2] =>
      match rhs with context [write_response fuel ?i2 b 0 w2] =>
        rewrite (write_response_iov fuel i1 i2 b 0 w2 eq_refl)
      end
    end
  end.
  reflexivity.
Qed.

(** The theorem at a sample machine. *)
Lemma stack_not_observed_witness :
  main big_fuel abc (demo_world [Chunk abc] [])
  = main big_fuel [] (demo_world [Chunk abc] []).
Proof.
  apply (stack_not_observed big_fuel abc [] (demo_world [Chunk abc] [])).
  - vm_compute. reflexivity.
  - intros resp H. vm_compute in H. inversion H. vm_compute. discriminate.
Defined.

(** Property X6.  A first [write] of a non-empty response that
    returns 0 or -1 is not retried: [main] ends with [exit(1)] after the
    diagnostic of the write, having issued that one write for the whole
    response and written nothing. *)
Theorem refused_write_is_fatal (fuel : nat) (stack : list byte) (w : world)
  (resp : list byte) (e : wr_event) (k : list wr_event) :
  MAX_REQUEST < Z.of_nat fuel ->
  avail (w_stdin w) <> [] ->
  dev_present (w_env w) = true ->
  dev_ioctl (w_env w) (request_of w) = Some resp ->
  1 <= len resp <= MAX_RESPONSE ->
  sched (w_stdout w) = e :: k ->
  accepts e = false ->
  exists w' R n,
    main fuel stack w = (Halt 1, w')
    /\ taken (w_stdout w') = taken (w_stdout w)
    /\ w_stderr w' = w_stderr w ++ ["write(stdout)"%string]
    /\ w_log w' = w_log w ++ R
                  ++ [SysOpen NSM_DEV_PATH NEW_FD;
                      SysIoctl NEW_FD NSM_IOCTL_CMD (request_of w) 0;
                      SysClose NEW_FD;
                      SysWrite STDOUT_FILENO 0 (len resp) n]
    /\ n <= 0
    /\ Forall request_read R.
Proof.
  intros Hf Hav Hdev Hio Hcap Hk He.
  destruct (main_cases fuel stack w Hf) as (s' & R & HR & HE).
  cbv zeta in HE. rewrite HE. clear HE.
  pose proof (request_of_nonempty w Hav) as Hlen.
  destruct (Z.leb_spec (len (request_of w)) 0) as [H0|_]; [lia|].
  rewrite Hdev, Hio. cbn [negb]. unfold MAX_RESPONSE in *.
  rewrite firstn_all2 by (unfold len in *; lia).
  rewrite to_uint_small by lia.
  destruct fuel as [|fuel]; [unfold MAX_REQUEST in Hf; lia|].
  unfold bind at 1. cbn [write_response response_len].
  rewrite to_size_t_small by lia.
  destruct (Z.ltb_spec 0 (len resp)) as [_|H0]; [|lia].
  unfold bind at 1. rewrite sys_write_stdout.
  rewrite to_int_small, to_size_t_small by lia.
  rewrite buf_load_store_0 by lia. cbn [Z.to_nat skipn]. rewrite Z.sub_0_r.
  unfold sink_write. wsimpl. rewrite Hk.
  destruct e as [m| |]; [discriminate He| |]; cbn [Z.leb Z.compare]; unfold die; wsimpl.
  - eexists _, R, 0. split; [reflexivity|]. wsimpl.
    rewrite <- !app_assoc. cbn [app]. repeat split; [lia | exact HR].
  - eexists _, R, (-1). split; [reflexivity|]. wsimpl.
    rewrite <- !app_assoc. cbn [app]. repeat split; [lia | exact HR].
Qed.

(** The theorem at a sample machine. *)
Lemma refused_write_is_fatal_witness :
  exists w' R n,
    main big_fuel [] (demo_world [Chunk abc] [WrNone]) = (Halt 1, w')
    /\ taken (w_stdout w') = []
    /\ w_stderr w' = [] ++ ["write(stdout)"%string]
    /\ w_log w' = [] ++ R
                  ++ [SysOpen NSM_DEV_PATH NEW_FD;
                      SysIoctl NEW_FD NSM_IOCTL_CMD
                        (request_of (demo_world [Chunk abc] [WrNone])) 0;
                      SysClose NEW_FD;
                      SysWrite STDOUT_FILENO 0 (len (abc ++ abc)) n]
    /\ n <= 0
    /\ Forall request_read R.
Proof.
  apply (refused_write_is_fatal big_fuel [] (demo_world [Chunk abc] [WrNone])
           (abc ++ abc) WrNone []).
  - vm_compute. reflexivity.
  - discriminate.
  - reflexivity.
  - reflexivity.
  - vm_compute. split; discriminate.
  - reflexivity.
  - reflexivity.
Defined.

Lemma write_response_bounds (fuel : nat) :
  forall (iov : nsm_iovec) (buf d : list byte) (written : Z) (w : world),
    response_len iov = len d ->
    len d <= MAX_RESPONSE ->
    0 <= written <= len d ->
    exists L,
      w_log (snd (write_response fuel iov (buf_store buf 0 d) written w))
      = w_log w ++ L
      /\ Forall (response_write (len d)) L.
Proof.
  unfold MAX_RESPONSE.
  induction fuel as [|fuel IH]; intros iov buf d written w Hn Hcap Hw;
    cbn [write_response].
  - exists []. split; [symmetry; apply app_nil_r | constructor].
  - rewrite Hn, to_size_t_small by lia.
    destruct (Z.ltb_spec written (len d)) as [Hlt|Hge].
    2:{ exists []. split; [symmetry; apply app_nil_r | constructor]. }
    unfold bind. rewrite sys_write_stdout.
    rewrite to_int_small, to_size_t_small by lia.
    rewrite buf_load_store_0 by lia.
    pose proof (sink_write_le (w_stdout w) (skipn (Z.to_nat written) d)) as Hle.
    assert (Hdl : len (skipn (Z.to_nat written) d) = len d - written)
      by (unfold len; rewrite length_skipn; unfold len in *; lia).
    destruct (sink_write _ _) as [[n a] k]. cbn [fst] in Hle.
    assert (Hc : response_write (len d) (SysWrite 1 written (len d - written) n))
      by (cbn; unfold STDOUT_FILENO; lia).
    destruct (Z.leb_spec n 0) as [H0|H0].
    + unfold die. cbn [snd]. wsimpl. exists [SysWrite 1 written (len d - written) n].
      split; [reflexivity | constructor; [exact Hc | constructor]].
    + edestruct (IH iov buf d (written + n)
                   (logged (set_stdout w k) (SysWrite 1 written (len d - written) n)))
        as (L & HL & HF); try lia.
      rewrite HL. wsimpl. rewrite <- app_assoc. cbn [app].
      eexists. split; [reflexivity | constructor; assumption].
Qed.

(** Property X7.  As long as the device keeps its answer
    within the capacity, and however standard output behaves, every
    [write] of the response loop is issued at an offset [0 <= off] with a
    count [0 < count] such that [off + count] is the reported length: no
    byte past the response is ever handed to [write]. *)
Theorem response_writes_in_bounds (fuel : nat) (stack : list byte) (w : world)
  (resp : list byte) :
  MAX_REQUEST < Z.of_nat fuel ->
  avail (w_stdin w) <> [] ->
  dev_present (w_env w) = true ->
  dev_ioctl (w_env w) (request_of w) = Some resp ->
  len resp <= MAX_RESPONSE ->
  exists R W,
    w_log (snd (main fuel stack w))
    = w_log w ++ R
      ++ [SysOpen NSM_DEV_PATH NEW_FD;
          SysIoctl NEW_FD NSM_IOCTL_CMD (request_of w) 0;
          SysClose NEW_FD] ++ W
    /\ Forall request_read R
    /\ Forall (response_write (len resp)) W.
Proof.
  intros Hf Hav Hdev Hio Hcap.
  destruct (main_cases fuel stack w Hf) as (s' & R & HR & HE).
  cbv zeta in HE. rewrite HE. clear HE.
  pose proof (request_of_nonempty w Hav) as Hlen.
  destruct (Z.leb_spec (len (request_of w)) 0) as [H0|_]; [lia|].
  rewrite Hdev, Hio. cbn [negb].
  rewrite firstn_all2 by (unfold MAX_RESPONSE, len in *; lia).
  rewrite to_uint_small by (unfold MAX_RESPONSE in *; pose proof (len_nonneg resp); lia).
  unfold bind at 1.
  match goal with |- context [write_response fuel ?iov _ 0 ?w0] =>
    destruct (write_response_bounds fuel iov zeros resp 0 w0)
      as (W & HW & HF);
      [reflexivity | exact Hcap | pose proof (len_nonneg resp); lia |];
    fold zeros;
    destruct (write_response fuel iov (buf_store zeros 0 resp) 0 w0) as [r w2]
  end.
  cbn [snd] in HW. wsimpl.
  exists R, W. split; [|split; assumption].
  destruct r as [[]| | |]; unfold ret; cbn [snd]; rewrite HW;
    rewrite <- !app_assoc; reflexivity.
Qed.

(** The theorem at a sample machine. *)
Lemma response_writes_in_bounds_witness :
  exists R W,
    w_log (snd (main big_fuel [] (demo_world [Chunk abc] [Accept 4; WrErr])))
    = [] ++ R
      ++ [SysOpen NSM_DEV_PATH NEW_FD;
          SysIoctl NEW_FD NSM_IOCTL_CMD
            (request_of (demo_world [Chunk abc] [Accept 4; WrErr])) 0;
          SysClose NEW_FD] ++ W
    /\ Forall request_read R
    /\ Forall (response_write (len (abc ++ abc))) W.
Proof.
  apply (response_writes_in_bounds big_fuel []
           (demo_world [Chunk abc] [Accept 4; WrErr]) (abc ++ abc)).
  - vm_compute. reflexivity.
  - discriminate.
  - reflexivity.
  - reflexivity.
  - vm_compute. discriminate.
Defined.

End NsmIoctlExtra.

(* ================================================================= *)
(** ** [vsock-connect.c] *)

Module VsockConnectExtra.
Import VsockConnect VsockConnectProofs VsockConnectSpec.

(** Property X8.  With any number of arguments other than two,
    [main] prints the usage message and returns 1; nothing else changes:
    no socket is created and no system call is issued. *)
Theorem wrong_argument_count (fuel : nat) (evs : list poll_event)
  (stack : list byte) (argv : list string) (w : world) :
  length argv <> 3%nat ->
  main fuel evs stack argv w = (Val 1, set_stderr w (w_stderr w ++ [usage])).
Proof.
  intros H. unfold main.
  destruct (Z.eqb_spec (Z.of_nat (length argv)) 3) as [E|_]; [lia|].
  reflexivity.
Qed.

(** The theorem at a sample machine. *)
Lemma wrong_argument_count_witness :
  main big_fuel [Ready 1 1] [] ["vsock-connect"; "3"]%string (demo_world [Chunk abc] [])
  = (Val 1, set_stderr (demo_world [Chunk abc] []) ([] ++ [usage])).
Proof.
  apply (wrong_argument_count big_fuel [Ready 1 1] [] ["vsock-connect"; "3"]%string
           (demo_world [Chunk abc] [])).
  cbn. lia.
Defined.

(** Property X9.  When the vsock socket cannot be created, [main]
    ends with [exit(1)] after the diagnostic of [socket]; the failed
    [socket] is its only system call, so no connection is attempted. *)
Theorem socket_failure (fuel : nat) (evs : list poll_event) (stack : list byte)
  (prog a1 a2 : string) (w : world) :
  vsock_present (w_env w) = false ->
  main fuel evs stack [prog; a1; a2] w
  = (Halt 1, set_stderr (logged w (SysSocket (-1)))
                        (w_stderr w ++ ["socket(AF_VSOCK)"%string])).
Proof.
  intros H. rewrite main_connected. cbv zeta. rewrite H. reflexivity.
Qed.

(** The theorem at a sample machine. *)
Lemma socket_failure_witness :
  main big_fuel [Ready 1 1] [] argv3
       (World (Env false (fun _ => None) false (fun _ _ => true) (fun _ rx => rx))
              [Chunk abc] (Sink [] []) [] [] (Sink [] []) [])
  = (Halt 1,
     set_stderr
       (logged (World (Env false (fun _ => None) false (fun _ _ => true)
                           (fun _ rx => rx))
                      [Chunk abc] (Sink [] []) [] [] (Sink [] []) [])
               (SysSocket (-1)))
       ([] ++ ["socket(AF_VSOCK)"%string])).
Proof.
  apply (socket_failure big_fuel [Ready 1 1] [] "vsock-connect" "3" "5000"
           (World (Env false (fun _ => None) false (fun _ _ => true) (fun _ rx => rx))
                  [Chunk abc] (Sink [] []) [] [] (Sink [] []) [])).
  reflexivity.
Defined.

(** Property X10.  When the endpoint refuses the connection, [main]
    ends with [exit(1)] after the diagnostic of [connect], with [socket]
    and [connect] as its only system calls: the loop is not entered and
    the socket is not closed. *)
Theorem connect_failure (fuel : nat) (evs : list poll_event) (stack : list byte)
  (prog a1 a2 : string) (w : world) :
  vsock_present (w_env w) = true ->
  vsock_accepts (w_env w) (to_uint (atoi a1)) (to_uint (atoi a2)) = false ->
  main fuel evs stack [prog; a1; a2] w
  = (Halt 1,
     set_stderr
       (logged (logged w (SysSocket NEW_FD))
               (SysConnect NEW_FD (to_uint (atoi a1)) (to_uint (atoi a2)) (-1)))
       (w_stderr w ++ ["connect(vsock)"%string])).
Proof.
  intros Hv Ha. rewrite main_connected. cbv zeta. rewrite Hv, Ha. reflexivity.
Qed.

(** The theorem at a sample machine. *)
Lemma connect_failure_witness :
  main big_fuel [Ready 1 1] [] argv3
       (World (Env false (fun _ => None) true (fun _ _ => false) (fun _ rx => rx))
              [Chunk abc] (Sink [] []) [] [] (Sink [] []) [])
  = (Halt 1,
     set_stderr
       (logged (logged (World (Env false (fun _ => None) true (fun _ _ => false)
                                   (fun _ rx => rx))
                              [Chunk abc] (Sink [] []) [] [] (Sink [] []) [])
                       (SysSocket NEW_FD))
               (SysConnect NEW_FD (to_uint (atoi "3")) (to_uint (atoi "5000")) (-1)))
       ([] ++ ["connect(vsock)"%string])).
Proof.
  apply (connect_failure big_fuel [Ready 1 1] [] "vsock-connect" "3" "5000"
           (World (Env false (fun _ => None) true (fun _ _ => false) (fun _ rx => rx))
                  [Chunk abc] (Sink [] []) [] [] (Sink [] []) [])).
  - reflexivity.
  - reflexivity.
Defined.

(** *** Idle wake-ups *)

(** Property X11.  Wake-ups of [poll] that report neither
    [POLLIN] on standard input nor [POLLIN] or [POLLHUP] on the socket
    (a hang-up of standard input alone, an error condition alone) make
    the bridge do nothing but call [poll] again: no read, no write, no
    shutdown, and the process stays in the loop. *)
Theorem idle_wakeups_do_nothing (fuel : nat) (evs : list poll_event) :
  Forall idle evs ->
  forall (buf : list byte) (p0 p1 : pollfd) (w : world),
    events p0 = POLLIN ->
    events p1 = POLLIN ->
    exists L,
      bridge fuel evs NEW_FD buf (p0, p1) w
      = (Blocked, World (w_env w) (w_stdin w) (w_stdout w) (w_stderr w)
                        (w_sock_rx w) (w_sock_tx w) (w_log w ++ L))
      /\ Forall is_poll L
      /\ length L = length evs.
Proof.
  induction 1 as [|ev evs Hev _ IH]; intros buf p0 p1 w H0 H1.
  - exists []. cbn [bridge]. unfold blocked. rewrite app_nil_r.
    destruct w. repeat split. constructor.
  - destruct ev as [|rev0 rev1]; [contradiction|]. destruct Hev as [Hi0 Hi1].
    destruct (bridge_ready fuel rev0 rev1 evs NEW_FD buf (p0, p1) w) as (r & _ & ->).
    cbn [fst snd]. unfold bind at 1. unfold stdin_to_socket at 1. cbn [fst].
    rewrite (revents_pollin p0 rev0 H0 Hi0). cbn [Z.eqb negb]. unfold ret at 1.
    unfold bind at 1. unfold socket_to_stdout at 1. cbn [snd].
    rewrite (revents_pollin_pollhup p1 rev1 H1 Hi1). cbn [Z.eqb negb]. unfold ret at 1.
    destruct (IH buf (poll_revents p0 rev0) (poll_revents p1 rev1)
                 (logged w (SysPoll (fd p0) (fd p1) r)) H0 H1) as (L & HE & HL & Hn).
    rewrite HE. wsimpl. exists (SysPoll (fd p0) (fd p1) r :: L).
    rewrite <- app_assoc. cbn [app List.length].
    repeat split; [constructor; [exact I | exact HL] | congruence].
Qed.

(** The theorem at a sample machine. *)
Lemma idle_wakeups_do_nothing_witness :
  exists L,
    bridge big_fuel [Ready POLLHUP 0; Ready POLLHUP POLLERR] NEW_FD []
           (Pollfd STDIN_FILENO POLLIN 0, Pollfd NEW_FD POLLIN 0) pending_world
    = (Blocked, World demo_env [Chunk abc] (Sink [] []) [] [Chunk abc] (Sink [] [])
                      ([] ++ L))
    /\ Forall is_poll L
    /\ length L = 2%nat.
Proof.
  apply (idle_wakeups_do_nothing big_fuel [Ready POLLHUP 0; Ready POLLHUP POLLERR]).
  - repeat constructor.
  - reflexivity.
  - reflexivity.
Defined.

(** *** A failure of [poll] *)

Lemma write_all_not_blocked (fuel : nat) (out : Z) (msg : string) :
  forall buf n written w, fst (write_all fuel out msg buf n written w) <> Blocked.
Proof.
  induction fuel as [|fuel IH]; intros buf n written w; cbn [write_all];
    [discriminate|].
  destruct (written <? n); [|discriminate].
  unfold bind, sys_write.
  destruct (out =? STDOUT_FILENO); [|destruct (out =? NEW_FD)];
    try destruct (sink_write _ _) as [[m a] k];
    match goal with |- context [if ?c then _ else _] => destruct c end;
    try discriminate; apply IH.
Qed.

Lemma stdin_to_socket_not_blocked fuel sock buf fds w :
  fst (stdin_to_socket fuel sock buf fds w) <> Blocked.
Proof.
  unfold stdin_to_socket. destruct (negb _); [|discriminate].
  unfold bind at 1, sys_read.
  destruct (STDIN_FILENO =? STDIN_FILENO); [|destruct (STDIN_FILENO =? NEW_FD)];
    try destruct (source_read _ _) as [[m a] k];
    (destruct (_ <=? 0); [discriminate|]);
    unfold bind;
    match goal with |- context [write_all ?f ?o ?m ?b ?n ?z ?w0] =>
      pose proof (write_all_not_blocked f o m b n z w0);
      destruct (write_all f o m b n z w0) as [[[]| | |] ?]
    end; cbn in *; congruence.
Qed.

Lemma socket_to_stdout_not_blocked fuel buf fds w :
  fst (socket_to_stdout fuel NEW_FD buf fds w) <> Blocked.
Proof.
  unfold socket_to_stdout. destruct (negb _); [|discriminate].
  unfold bind at 1. rewrite sys_read_socket.
  destruct (source_read _ _) as [[m a] k].
  destruct (_ <=? 0); [discriminate|].
  unfold bind.
  match goal with |- context [write_all ?f ?o ?m ?b ?n ?z ?w0] =>
    pose proof (write_all_not_blocked f o m b n z w0);
    destruct (write_all f o m b n z w0) as [[[]| | |] ?]
  end; cbn in *; congruence.
Qed.

(** Property X12.  Whenever [poll] fails, after any wake-ups
    that left the bridge running in the world [w1], the bridge ends with
    [exit(1)] after the diagnostic of [poll]; nothing else happens in
    that iteration (no read, no write, no close) and later wake-ups
    are not looked at. *)
Theorem poll_failure_is_fatal (fuel : nat) (evs1 evs2 : list poll_event) :
  forall (buf : list byte) (fds : pollfd * pollfd) (w w1 : world),
    bridge fuel evs1 NEW_FD buf fds w = (Blocked, w1) ->
    exists fd0 fd1,
      bridge fuel (evs1 ++ PollErr :: evs2) NEW_FD buf fds w
      = (Halt 1, set_stderr (logged w1 (SysPoll fd0 fd1 (-1)))
                            (w_stderr w1 ++ ["poll"%string])).
Proof.
  induction evs1 as [|ev evs1 IH]; intros buf fds w w1 HB.
  - cbn [bridge] in HB. injection HB as <-.
    exists (fd (fst fds)), (fd (snd fds)). reflexivity.
  - destruct ev as [|rev0 rev1]; [discriminate HB|].
    cbn [app]. rewrite bridge_split in HB |- *.
    unfold bind at 1 in HB. unfold bind at 1.
    destruct ((' (_, fds1) <- sys_poll (Ready rev0 rev1) fds ;;
               stdin_to_socket fuel NEW_FD buf fds1) w)
      as [[[buf2 fds2]| | |] w3] eqn:Hpre; try discriminate.
    + unfold bind at 1 in HB. unfold bind at 1.
      pose proof (socket_to_stdout_not_blocked fuel buf2 fds2 w3) as Hn2.
      destruct (socket_to_stdout fuel NEW_FD buf2 fds2 w3) as [[[brk buf3]| | |] w4];
        try discriminate; [|exfalso; apply Hn2; reflexivity].
      destruct brk; [discriminate|]. apply IH. exact HB.
    + exfalso. unfold bind, sys_poll in Hpre.
      match type of Hpre with stdin_to_socket ?f ?s ?b ?fd ?w0 = _ =>
        apply (stdin_to_socket_not_blocked f s b fd w0)
      end.
      rewrite Hpre. reflexivity.
Qed.

(** The theorem at a sample machine. *)
Lemma poll_failure_is_fatal_witness :
  exists fd0 fd1,
    bridge big_fuel ([Ready 1 0] ++ PollErr :: [Ready 1 1]) NEW_FD []
           (Pollfd STDIN_FILENO POLLIN 0, Pollfd NEW_FD POLLIN 0)
           (demo_world [Chunk abc] [])
    = (Halt 1,
       set_stderr
         (logged (World demo_env [] (Sink [] []) [] [] (Sink abc [])
                        [SysPoll 0 3 1; SysRead 0 0 65536 3; SysWrite 3 0 3 3])
                 (SysPoll fd0 fd1 (-1)))
         ([] ++ ["poll"%string])).
Proof.
  apply (poll_failure_is_fatal big_fuel [Ready 1 0] [Ready 1 1] []
           (Pollfd STDIN_FILENO POLLIN 0, Pollfd NEW_FD POLLIN 0)
           (demo_world [Chunk abc] [])
           (World demo_env [] (Sink [] []) [] [] (Sink abc [])
                  [SysPoll 0 3 1; SysRead 0 0 65536 3; SysWrite 3 0 3 3])).
  vm_compute. reflexivity.
Defined.

(** *** Accesses of [buf] *)

Lemma write_all_inside (fuel : nat) (out : Z) (msg : string) :
  forall (buf : list byte) (n written : Z) (w : world),
    0 <= written -> n <= BUF_SIZE ->
    exists L,
      w_log (snd (write_all fuel out msg buf n written w)) = w_log w ++ L
      /\ Forall inside_buf L.
Proof.
  unfold BUF_SIZE.
  induction fuel as [|fuel IH]; intros buf n written w Hw Hn; cbn [write_all].
  - exists []. split; [symmetry; apply app_nil_r | constructor].
  - destruct (Z.ltb_spec written n) as [Hlt|Hge].
    2:{ exists []. split; [symmetry; apply app_nil_r | constructor]. }
    rewrite to_size_t_small by lia. unfold bind.
    destruct (sys_write_result out buf written (n - written) w) as (r & w1 & -> & Hl).
    assert (Hc : inside_buf (SysWrite out written (n - written) r))
      by (cbn; unfold BUF_SIZE; lia).
    destruct (Z.leb_spec r 0) as [Hr|Hr].
    + unfold die. cbn [snd]. wsimpl. rewrite Hl. eexists. split; [reflexivity|].
      constructor; [exact Hc | constructor].
    + destruct (IH buf n (written + r) w1) as (L & HL & HF); try lia.
      rewrite HL, Hl, <- app_assoc. eexists. split; [reflexivity|].
      constructor; assumption.
Qed.

Lemma log_of_bind {A B} (P : syscall -> Prop) (m : M A) (f : A -> M B) (w : world) :
  (exists L, w_log (snd (m w)) = w_log w ++ L /\ Forall P L) ->
  (forall a w1, m w = (Val a, w1) ->
                exists L, w_log (snd (f a w1)) = w_log w1 ++ L /\ Forall P L) ->
  exists L, w_log (snd (bind m f w)) = w_log w ++ L /\ Forall P L.
Proof.
  intros (L & HL & HF) Hf. unfold bind.
  destruct (m w) as [[a| | |] w1]; cbn [snd] in *; eauto.
  destruct (Hf a w1 eq_refl) as (L' & HL' & HF').
  exists (L ++ L'). rewrite HL', HL, app_assoc. split; [reflexivity|].
  apply Forall_app; auto.
Qed.

Lemma log_of_ret {A} (P : syscall -> Prop) (a : A) (w : world) :
  exists L, w_log (snd (ret a w)) = w_log w ++ L /\ Forall P L.
Proof. exists []. split; [symmetry; apply app_nil_r | constructor]. Qed.

Lemma log_of_die {A} (P : syscall -> Prop) (msg : string) (w : world) :
  exists L, w_log (snd (die (A := A) msg w)) = w_log w ++ L /\ Forall P L.
Proof. exists []. split; [symmetry; apply app_nil_r | constructor]. Qed.

(** Property X13.  In every run of the loop, whatever the
    machine does, each [read] is handed [buf] and [BUF_SIZE], and each
    [write] is handed [buf + off] and a count with [0 <= off],
    [0 < count] and [off + count <= BUF_SIZE]: [buf] is never accessed
    out of bounds. *)
Theorem buffer_accesses_in_bounds (fuel : nat) (evs : list poll_event) :
  forall (buf : list byte) (fds : pollfd * pollfd) (w : world),
    exists L,
      w_log (snd (bridge fuel evs NEW_FD buf fds w)) = w_log w ++ L
      /\ Forall inside_buf L.
Proof.
  induction evs as [|ev evs IH]; intros buf fds w; cbn [bridge].
  - exists []. split; [symmetry; apply app_nil_r | constructor].
  - apply log_of_bind.
    { unfold sys_poll. destruct ev; cbn [snd]; wsimpl;
        (eexists; split; [reflexivity | constructor; [exact I | constructor]]). }
    intros [r fds1] w1 _. destruct (r <? 0); [apply log_of_die|].
    apply log_of_bind.
    { unfold stdin_to_socket. destruct (negb _); [|apply log_of_ret].
      apply log_of_bind.
      - destruct (sys_read_result STDIN_FILENO buf 0 BUF_SIZE w1
                    ltac:(unfold BUF_SIZE; lia)) as (n & b & w2 & HE & Hn & Hl).
        rewrite HE. cbn [snd]. rewrite Hl. eexists. split; [reflexivity|].
        constructor; [cbn; auto | constructor].
      - intros [n b] w2 HE.
        destruct (sys_read_result STDIN_FILENO buf 0 BUF_SIZE w1
                    ltac:(unfold BUF_SIZE; lia)) as (n' & b' & w2' & HE' & Hn & Hl).
        rewrite HE in HE'. injection HE' as <- <- <-.
        destruct (n <=? 0).
        + apply log_of_bind; [|intros; apply log_of_ret].
          unfold sys_shutdown. cbn [snd]. wsimpl. eexists. split; [reflexivity|].
          constructor; [exact I | constructor].
        + apply log_of_bind; [apply write_all_inside; lia | intros; apply log_of_ret]. }
    intros [buf2 fds2] w2 _.
    apply log_of_bind.
    { unfold socket_to_stdout. destruct (negb _); [|apply log_of_ret].
      apply log_of_bind.
      - destruct (sys_read_result NEW_FD buf2 0 BUF_SIZE w2
                    ltac:(unfold BUF_SIZE; lia)) as (n & b & w3 & HE & Hn & Hl).
        rewrite HE. cbn [snd]. rewrite Hl. eexists. split; [reflexivity|].
        constructor; [cbn; auto | constructor].
      - intros [n b] w3 HE.
        destruct (sys_read_result NEW_FD buf2 0 BUF_SIZE w2
                    ltac:(unfold BUF_SIZE; lia)) as (n' & b' & w3' & HE' & Hn & Hl).
        rewrite HE in HE'. injection HE' as <- <- <-.
        destruct (n <=? 0); [apply log_of_ret|].
        apply log_of_bind; [apply write_all_inside; lia | intros; apply log_of_ret]. }
    intros [brk buf3] w3 _. destruct brk; [apply log_of_ret | apply IH].
Qed.

(** *** What the socket-to-stdout half leaves alone *)

Lemma downstream_refl (w : world) : downstream_only w w.
Proof.
  repeat split. exists []. split; [symmetry; apply app_nil_r | constructor].
Qed.

Lemma downstream_trans (w1 w2 w3 : world) :
  downstream_only w1 w2 -> downstream_only w2 w3 -> downstream_only w1 w3.
Proof.
  intros (He & Hs & Ht & L & HL & HF) (He' & Hs' & Ht' & L' & HL' & HF').
  unfold downstream_only. rewrite He', Hs', Ht', HL', He, Hs, Ht, HL.
  repeat split. exists (L ++ L'). rewrite app_assoc. split; [reflexivity|].
  apply Forall_app; auto.
Qed.

Lemma downstream_bind {A B} (m : M A) (f : A -> M B) (w : world) :
  downstream_only w (snd (m w)) ->
  (forall a w1, downstream_only w1 (snd (f a w1))) ->
  downstream_only w (snd (bind m f w)).
Proof.
  intros Hm Hf. unfold bind.
  destruct (m w) as [[a| | |] w1]; cbn [snd] in *; try exact Hm.
  eapply downstream_trans; [exact Hm | apply Hf].
Qed.

Lemma downstream_logged (w : world) (c : syscall) :
  half_closed_call c -> downstream_only w (logged w c).
Proof.
  intros Hc. repeat split. exists [c]. split; [reflexivity | repeat constructor; exact Hc].
Qed.

Lemma write_all_stdout_frame (fuel : nat) (msg : string) :
  forall (buf : list byte) (n written : Z) (w : world),
    downstream_only w (snd (write_all fuel STDOUT_FILENO msg buf n written w)).
Proof.
  induction fuel as [|fuel IH]; intros buf n written w; cbn [write_all].
  - apply downstream_refl.
  - destruct (written <? n); [|apply downstream_refl].
    apply downstream_bind.
    + rewrite sys_write_stdout. destruct (sink_write _ _) as [[r a] k]. cbn [snd].
      repeat split. exists [SysWrite 1 written (to_size_t (n - written)) r].
      split; [reflexivity | repeat constructor].
    + intros r w1. destruct (r <=? 0); [|apply IH].
      unfold die. cbn [snd]. repeat split.
      exists []. split; [symmetry; apply app_nil_r | constructor].
Qed.

Lemma socket_to_stdout_frame (fuel : nat) (buf : list byte) (fds : pollfd * pollfd)
  (w : world) :
  downstream_only w (snd (socket_to_stdout fuel NEW_FD buf fds w)).
Proof.
  unfold socket_to_stdout. destruct (negb _); [|apply downstream_refl].
  apply downstream_bind.
  - rewrite sys_read_socket. destruct (source_read _ _) as [[n d] s]. cbn [snd].
    repeat split. exists [SysRead 3 0 BUF_SIZE n].
    split; [reflexivity | repeat constructor].
  - intros [n b] w1. destruct (n <=? 0); [apply downstream_refl|].
    apply downstream_bind; [apply write_all_stdout_frame|].
    intros; apply downstream_refl.
Qed.

(** Property X14.  Once standard input is out of the [poll]
    set, whatever happens afterwards, failures included: standard input
    is never read again, nothing more is written to the socket, and the
    only system calls are [poll] without standard input, reads of the
    socket and writes to standard output. *)
Theorem closed_stdin_stays_closed (fuel : nat) (evs : list poll_event) :
  forall (buf : list byte) (p0 p1 : pollfd) (w : world),
    fd p0 = -1 ->
    downstream_only w (snd (bridge fuel evs NEW_FD buf (p0, p1) w)).
Proof.
  induction evs as [|ev evs IH]; intros buf p0 p1 w Hp0.
  - apply downstream_refl.
  - destruct ev as [|rev0 rev1].
    { cbn. rewrite Hp0. repeat split.
      exists [SysPoll (-1) (fd p1) (-1)]. split; [reflexivity | repeat constructor]. }
    destruct (bridge_ready fuel rev0 rev1 evs NEW_FD buf (p0, p1) w) as (r & _ & ->).
    cbn [fst snd]. rewrite (poll_revents_closed p0 rev0 Hp0), Hp0.
    eapply downstream_trans; [apply (downstream_logged w (SysPoll (-1) (fd p1) r));
                              reflexivity|].
    unfold bind at 1. unfold stdin_to_socket at 1.
    cbn [fst revents Z.land Z.eqb negb]. unfold ret at 1.
    apply downstream_bind; [apply socket_to_stdout_frame|].
    intros [brk buf2] w2. destruct brk; [apply downstream_refl|].
    apply IH. reflexivity.
Qed.

(** The theorem at a sample machine. *)
Lemma closed_stdin_stays_closed_witness :
  downstream_only pending_world
    (snd (bridge big_fuel [Ready 1 1; PollErr] NEW_FD []
                 (Pollfd (-1) POLLIN 0, Pollfd NEW_FD POLLIN 0) pending_world)).
Proof.
  apply (closed_stdin_stays_closed big_fuel [Ready 1 1; PollErr] []
           (Pollfd (-1) POLLIN 0) (Pollfd NEW_FD POLLIN 0) pending_world).
  reflexivity.
Defined.

(** *** From standard input to the socket, whatever the peer does *)

Lemma write_all_socket (fuel : nat) (msg : string) :
  forall (buf d : list byte) (written : Z) (w : world),
    0 <= written <= len d ->
    len d < 2 ^ 64 ->
    len d - written < Z.of_nat fuel ->
    never_fails (w_sock_tx w) ->
    exists k' rx' L,
      write_all fuel NEW_FD msg (buf_store buf 0 d) (len d) written w
      = (Val tt, World (w_env w) (w_stdin w) (w_stdout w) (w_stderr w) rx'
                   (Sink (taken (w_sock_tx w) ++ skipn (Z.to_nat written) d) k')
                   (w_log w ++ L))
      /\ forallb accepts k' = true.
Proof.
  induction fuel as [|fuel IH]; intros buf d written w Hw Hd Hf Hnf; [lia|].
  cbn [write_all].
  destruct (Z.ltb_spec written (len d)) as [Hlt|Hge].
  2:{ exists (sched (w_sock_tx w)), (w_sock_rx w), []. unfold ret.
      rewrite skipn_all2 by (unfold len in *; lia). rewrite !app_nil_r.
      destruct w as [e i o er rx [t k] l]. split; [reflexivity | exact Hnf]. }
  unfold bind. rewrite sys_write_socket, to_size_t_small by lia.
  rewrite buf_load_store_0 by lia.
  destruct (sink_write_accepts (w_sock_tx w) (skipn (Z.to_nat written) d) Hnf)
    as (a & k & HS & Ha & Hpre & Hk).
  { apply skipn_nonempty. lia. }
  rewrite HS.
  assert (Hal : len (skipn (Z.to_nat written) d) = len d - written)
    by (unfold len; rewrite length_skipn; unfold len in Hw; lia).
  destruct (Z.leb_spec (len a) 0) as [H0|_]; [lia|].
  edestruct (IH buf d (written + len a)
               (logged (set_sock_rx (set_sock_tx w (Sink (taken (w_sock_tx w) ++ a) k))
                                    (peer (w_env w) a (w_sock_rx w)))
                       (SysWrite 3 written (len d - written) (len a))))
    as (k' & rx' & L & HE & Hk'); try lia; [exact Hk|].
  exists k', rx', (SysWrite 3 written (len d - written) (len a) :: L).
  split; [etransitivity; [exact HE|] | exact Hk'].
  wsimpl. rewrite <- !app_assoc. cbn [app].
  rewrite skipn_step by (tauto || lia). reflexivity.
Qed.

Lemma forwarded_clean_refl (w : world) :
  never_fails (w_sock_tx w) -> forwarded_clean w w.
Proof.
  intros H. split; [|exact H]. exists []. rewrite app_nil_r. auto.
Qed.

Lemma forwarded_clean_trans (w1 w2 w3 : world) :
  forwarded_clean w1 w2 -> forwarded_clean w2 w3 -> forwarded_clean w1 w3.
Proof.
  intros [(s1 & Ht1 & Hs1) _] [(s2 & Ht2 & Hs2) Hc]. split; [|exact Hc].
  exists (s1 ++ s2). rewrite Ht2, Ht1, Hs1, Hs2, !app_assoc. auto.
Qed.

Lemma downstream_forwarded (w w' : world) :
  never_fails (w_sock_tx w) -> downstream_only w w' -> forwarded_clean w w'.
Proof.
  intros Hc (_ & Hs & Ht & _). split; [|rewrite Ht; exact Hc].
  exists []. rewrite Hs, Ht, app_nil_r. auto.
Qed.

(** Lines 63-74 when writes to the socket do not fail. *)
Lemma stdin_phase_clean (fuel : nat) (buf : list byte) (fds : pollfd * pollfd)
  (w : world) :
  BUF_SIZE < Z.of_nat fuel ->
  never_fails (w_sock_tx w) ->
  exists buf' fds' w',
    stdin_to_socket fuel NEW_FD buf fds w = (Val (buf', fds'), w')
    /\ forwarded_clean w w'.
Proof.
  intros Hf Hnf. unfold stdin_to_socket.
  destruct (negb _).
  2:{ eexists _, _, _. split; [reflexivity | apply forwarded_clean_refl; exact Hnf]. }
  unfold bind at 1. rewrite sys_read_stdin.
  destruct (source_read (w_stdin w) BUF_SIZE) as [[n d] s] eqn:HR.
  destruct (source_read_bytes _ BUF_SIZE ltac:(unfold BUF_SIZE; lia) _ _ _ HR)
    as (Hb & Hpos & Hneg).
  pose proof (source_read_len _ _ _ _ HR) as Hlen.
  destruct (Z.leb_spec n 0) as [Hn|Hn].
  - rewrite (Hneg Hn) in *. unfold bind, sys_shutdown, ret.
    eexists _, _, _. split; [reflexivity|]. split; [|exact Hnf].
    exists []. wsimpl. rewrite app_nil_r. auto.
  - specialize (Hpos Hn). subst n.
    edestruct (write_all_socket fuel "write(sock)" buf d 0
                 (logged (set_stdin w s) (SysRead 0 0 BUF_SIZE (len d))))
      as (k' & rx' & L & HE & Hk');
      try (unfold BUF_SIZE in *; lia); [exact Hnf|].
    unfold bind at 1. rewrite HE. unfold ret.
    eexists _, _, _. split; [reflexivity|]. split; [|exact Hk'].
    exists d. wsimpl. cbn [Z.to_nat skipn]. auto.
Qed.

Lemma bridge_forwards (fuel : nat) (evs : list poll_event) :
  BUF_SIZE < Z.of_nat fuel ->
  forall (buf : list byte) (fds : pollfd * pollfd) (w : world),
    never_fails (w_sock_tx w) ->
    forwarded_clean w (snd (bridge fuel evs NEW_FD buf fds w)).
Proof.
  intros Hf. induction evs as [|ev evs IH]; intros buf fds w Hnf.
  - apply forwarded_clean_refl. exact Hnf.
  - destruct ev as [|rev0 rev1].
    { cbn. split; [|exact Hnf]. exists []. wsimpl. rewrite app_nil_r. auto. }
    destruct (bridge_ready fuel rev0 rev1 evs NEW_FD buf fds w) as (r & _ & ->).
    set (w1 := logged w _).
    assert (H01 : forwarded_clean w w1)
      by (apply (forwarded_clean_refl w Hnf)).
    destruct (stdin_phase_clean fuel buf
                (poll_revents (fst fds) rev0, poll_revents (snd fds) rev1) w1 Hf Hnf)
      as (buf2 & fds2 & w2 & HE & H12).
    unfold bind at 1. rewrite HE.
    pose proof (socket_to_stdout_frame fuel buf2 fds2 w2) as Hds.
    apply (downstream_forwarded _ _ (proj2 H12)) in Hds.
    unfold bind.
    destruct (socket_to_stdout fuel NEW_FD buf2 fds2 w2) as [[[brk buf3]| | |] w3];
      cbn [snd] in *;
      try (eapply forwarded_clean_trans; [exact H01|];
           eapply forwarded_clean_trans; [exact H12 | exact Hds]).
    destruct brk.
    + unfold ret. cbn [snd].
      eapply forwarded_clean_trans; [exact H01|].
      eapply forwarded_clean_trans; [exact H12 | exact Hds].
    + eapply forwarded_clean_trans; [exact H01|].
      eapply forwarded_clean_trans; [exact H12|].
      eapply forwarded_clean_trans; [exact Hds|].
      apply IH. exact (proj2 Hds).
Qed.

(** Property X15.  As long as writes to the socket do not
    fail (they may be short), whatever the peer sends or does and
    whatever happens on standard output, failures included: the bytes
    taken by the socket are exactly the bytes consumed from standard
    input, in order, nothing lost, repeated or reordered. *)
Theorem stdin_bytes_reach_socket (fuel : nat) (evs : list poll_event)
  (buf : list byte) (fds : pollfd * pollfd) (w : world) :
  BUF_SIZE < Z.of_nat fuel ->
  never_fails (w_sock_tx w) ->
  forwarded w (snd (bridge fuel evs NEW_FD buf fds w)).
Proof.
  intros Hf Hnf. apply (bridge_forwards fuel evs Hf buf fds w Hnf).
Qed.

(** The theorem at a sample machine. *)
Lemma stdin_bytes_reach_socket_witness :
  forwarded
    (World demo_env [Chunk abc; Chunk abc] (Sink [] [WrErr]) [] [Chunk abc]
           (Sink [] [Accept 2]) [])
    (snd (bridge big_fuel [Ready 1 0; Ready 1 1; Ready 1 1] NEW_FD []
                 (Pollfd STDIN_FILENO POLLIN 0, Pollfd NEW_FD POLLIN 0)
                 (World demo_env [Chunk abc; Chunk abc] (Sink [] [WrErr]) []
                        [Chunk abc] (Sink [] [Accept 2]) []))).
Proof.
  apply (stdin_bytes_reach_socket big_fuel [Ready 1 0; Ready 1 1; Ready 1 1] []
           (Pollfd STDIN_FILENO POLLIN 0, Pollfd NEW_FD POLLIN 0)
           (World demo_env [Chunk abc; Chunk abc] (Sink [] [WrErr]) [] [Chunk abc]
                  (Sink [] [Accept 2]) [])).
  - vm_compute. reflexivity.
  - reflexivity.
Defined.

(** Property X16.  When standard input delivers a chunk and the
    first [write] of it to the socket returns 0 or -1, the bridge ends
    with [exit(1)] after the diagnostic of that write: the chunk has been
    consumed from standard input but none of it reached the socket, the
    socket is not read in that iteration and standard output is
    untouched. *)
Theorem socket_write_failure (fuel : nat) (rev0 rev1 : Z) (evs : list poll_event)
  (buf : list byte) (rv0 : Z) (p1 : pollfd) (w : world)
  (e : wr_event) (k : list wr_event) :
  0 < Z.of_nat fuel ->
  Z.land rev0 POLLIN <> 0 ->
  0 < fst (fst (source_read (w_stdin w) BUF_SIZE)) ->
  sched (w_sock_tx w) = e :: k ->
  accepts e = false ->
  exists polled n r w',
    bridge fuel (Ready rev0 rev1 :: evs) NEW_FD buf
           (Pollfd STDIN_FILENO POLLIN rv0, p1) w
    = (Halt 1, w')
    /\ w_stdin w' = snd (source_read (w_stdin w) BUF_SIZE)
    /\ taken (w_sock_tx w') = taken (w_sock_tx w)
    /\ w_stdout w' = w_stdout w
    /\ w_stderr w' = w_stderr w ++ ["write(sock)"%string]
    /\ w_log w' = w_log w ++ [SysPoll STDIN_FILENO (fd p1) polled;
                              SysRead STDIN_FILENO 0 BUF_SIZE n;
                              SysWrite NEW_FD 0 n r]
    /\ 0 < n /\ r <= 0.
Proof.
  intros Hf Hin Hdata Hk He.
  destruct (bridge_ready fuel rev0 rev1 evs NEW_FD buf
              (Pollfd STDIN_FILENO POLLIN rv0, p1) w) as (polled & _ & ->).
  cbn [fst snd fd]. unfold bind at 1. unfold stdin_to_socket at 1.
  cbn [fst snd]. unfold poll_revents at 1 2 3.
  cbn [fd events revents]. change (STDIN_FILENO <? 0) with false. cbn iota.
  rewrite pollin_reported.
  destruct (Z.eqb_spec (Z.land rev0 POLLIN) 0) as [H0|_]; [contradiction|].
  cbn [negb]. unfold bind at 1. rewrite sys_read_stdin. wsimpl.
  destruct (source_read (w_stdin w) BUF_SIZE) as [[n d] s] eqn:HR.
  cbn [fst snd] in Hdata |- *.
  pose proof (source_read_le (w_stdin w) BUF_SIZE ltac:(unfold BUF_SIZE; lia)) as Hle.
  rewrite HR in Hle. cbn [fst] in Hle. unfold BUF_SIZE in Hle.
  destruct (Z.leb_spec n 0) as [Hn|_]; [lia|].
  destruct fuel as [|fuel]; [lia|].
  unfold bind at 1. cbn [write_all].
  destruct (Z.ltb_spec 0 n) as [_|Hn]; [|lia].
  unfold bind at 1. rewrite sys_write_socket. wsimpl.
  rewrite Z.sub_0_r, to_size_t_small by lia.
  unfold sink_write. rewrite Hk.
  destruct e as [m| |]; [discriminate He| |]; cbn [Z.leb Z.compare]; unfold die; wsimpl.
  - eexists polled, n, 0, _. split; [reflexivity|]. wsimpl.
    rewrite <- !app_assoc. cbn [app]. repeat split; lia.
  - eexists polled, n, (-1), _. split; [reflexivity|]. wsimpl.
    rewrite <- !app_assoc. cbn [app]. repeat split; lia.
Qed.

(** The theorem at a sample machine. *)
Lemma socket_write_failure_witness :
  exists polled n r w',
    bridge big_fuel [Ready 1 0; Ready 1 1] NEW_FD []
           (Pollfd STDIN_FILENO POLLIN 0, Pollfd NEW_FD POLLIN 0)
           (World demo_env [Chunk abc] (Sink [] []) [] [] (Sink [] [WrErr]) [])
    = (Halt 1, w')
    /\ w_stdin w' = snd (source_read [Chunk abc] BUF_SIZE)
    /\ taken (w_sock_tx w') = []
    /\ w_stdout w' = Sink [] []
    /\ w_stderr w' = [] ++ ["write(sock)"%string]
    /\ w_log w' = [] ++ [SysPoll STDIN_FILENO NEW_FD polled;
                         SysRead STDIN_FILENO 0 BUF_SIZE n;
                         SysWrite NEW_FD 0 n r]
    /\ 0 < n /\ r <= 0.
Proof.
  apply (socket_write_failure big_fuel 1 0 [Ready 1 1] [] 0 (Pollfd NEW_FD POLLIN 0)
           (World demo_env [Chunk abc] (Sink [] []) [] [] (Sink [] [WrErr]) [])
           WrErr []).
  - vm_compute. reflexivity.
  - vm_compute. discriminate.
  - vm_compute. reflexivity.
  - reflexivity.
  - reflexivity.
Defined.

(** *** Leaving the loop *)

Lemma log_grows {A} msgs (w : world) (p : res A * world) :
  outcome msgs w p -> exists L, w_log (snd p) = w_log w ++ L.
Proof. intros [H _]. exact H. Qed.

Lemma socket_to_stdout_break (fuel : nat) (buf buf' : list byte)
  (fds : pollfd * pollfd) (w w' : world) :
  socket_to_stdout fuel NEW_FD buf fds w = (Val (true, buf'), w') ->
  exists n, n <= 0 /\ w_log w' = w_log w ++ [SysRead NEW_FD 0 BUF_SIZE n].
Proof.
  unfold socket_to_stdout. destruct (negb _); [|discriminate].
  unfold bind at 1. rewrite sys_read_socket.
  destruct (source_read _ _) as [[n d] s].
  destruct (Z.leb_spec n 0) as [Hn|Hn].
  - unfold ret. intros [= <- <-]. exists n. auto.
  - unfold bind. destruct (write_all _ _ _ _ _ _ _) as [[[]| | |] w1]; discriminate.
Qed.

Lemma bridge_returns (fuel : nat) (evs : list poll_event) :
  forall (buf : list byte) (fds : pollfd * pollfd) (w w' : world),
    bridge fuel evs NEW_FD buf fds w = (Val tt, w') ->
    exists L n,
      n <= 0 /\ w_log w' = w_log w ++ L ++ [SysRead NEW_FD 0 BUF_SIZE n].
Proof.
  induction evs as [|ev evs IH]; intros buf fds w w' HB; [discriminate HB|].
  destruct ev as [|rev0 rev1]; [discriminate HB|].
  rewrite bridge_split in HB. unfold bind at 1 in HB.
  match type of HB with context [bind ?m ?f w] =>
    assert (Hpre : exists L, w_log (snd (bind m f w)) = w_log w ++ L);
    [|destruct (bind m f w) as [[[buf2 fds2]| | |] w2]; try discriminate]
  end.
  { eapply (log_grows bridge_diags). apply outcome_bind.
    - unfold sys_poll. apply outcome_logged.
    - intros [r fds1] w1. apply outcome_stdin_to_socket. }
  destruct Hpre as [L1 HL1]. cbn [snd] in HL1.
  unfold bind at 1 in HB.
  pose proof (log_grows _ _ _ (outcome_socket_to_stdout fuel NEW_FD buf2 fds2 w2))
    as [L2 HL2].
  destruct (socket_to_stdout fuel NEW_FD buf2 fds2 w2) as [[[brk buf3]| | |] w3] eqn:HS;
    try discriminate.
  cbn [snd] in HL2. destruct brk.
  - unfold ret in HB. injection HB as <-.
    destruct (socket_to_stdout_break _ _ _ _ _ _ HS) as (n & Hn & Hl).
    exists L1, n. split; [exact Hn|]. rewrite Hl, HL1, <- app_assoc. reflexivity.
  - destruct (IH _ _ _ _ HB) as (L & n & Hn & Hl).
    exists (L1 ++ L2 ++ L), n. split; [exact Hn|].
    rewrite Hl, HL2, HL1, <- !app_assoc. reflexivity.
Qed.

(** Property X17.  Every run of [main] that returns 0,
    whatever the machine does, ended like this: a read of the socket
    returned zero or less, then the socket was closed; and nothing was
    printed on the error stream. *)
Theorem exit_zero_means_remote_closed (fuel : nat) (evs : list poll_event)
  (stack : list byte) (argv : list string) (w w' : world) :
  main fuel evs stack argv w = (Val 0, w') ->
  exists L n,
    n <= 0
    /\ w_log w' = w_log w ++ L ++ [SysRead NEW_FD 0 BUF_SIZE n; SysClose NEW_FD]
    /\ w_stderr w' = w_stderr w.
Proof.
  intros HM.
  destruct (Z.eqb_spec (Z.of_nat (length argv)) 3) as [H3|H3].
  2:{ unfold main in HM. apply Z.eqb_neq in H3. rewrite H3 in HM. discriminate HM. }
  destruct argv as [|prog [|a1 [|a2 [|a3 argv]]]]; cbn [List.length] in H3; try lia.
  rewrite main_connected in HM. cbv zeta in HM.
  destruct (vsock_present (w_env w)); [|discriminate].
  destruct (vsock_accepts (w_env w) _ _); [|discriminate].
  unfold bind at 1 in HM.
  match type of HM with context [bridge fuel evs NEW_FD ?b ?f ?w0] =>
    pose proof (outcome_bridge fuel NEW_FD evs b f w0) as [_ Hr];
    destruct (bridge fuel evs NEW_FD b f w0) as [[[]| | |] w1] eqn:HB;
      try discriminate
  end.
  cbn [fst snd] in Hr.
  destruct (bridge_returns _ _ _ _ _ _ HB) as (L & n & Hn & Hl).
  unfold bind, sys_close, ret in HM. injection HM as <-. wsimpl.
  exists (SysSocket NEW_FD :: SysConnect NEW_FD (to_uint (atoi a1)) (to_uint (atoi a2)) 0
            :: L), n.
  split; [exact Hn|]. split; [|exact Hr].
  rewrite Hl. wsimpl. rewrite <- !app_assoc. reflexivity.
Qed.

(** The theorem at a sample machine. *)
Lemma exit_zero_means_remote_closed_witness :
  exists L n,
    n <= 0
    /\ w_log (snd (main big_fuel [Ready 0 17; Ready 0 17] [] argv3 pending_world))
       = [] ++ L ++ [SysRead NEW_FD 0 BUF_SIZE n; SysClose NEW_FD]
    /\ w_stderr (snd (main big_fuel [Ready 0 17; Ready 0 17] [] argv3 pending_world))
       = [].
Proof.
  apply (exit_zero_means_remote_closed big_fuel [Ready 0 17; Ready 0 17] [] argv3
           pending_world).
  vm_compute. reflexivity.
Defined.

End VsockConnectExtra.
